(** * RESTful OpenAPI generator of ZenStack (packages/plugins/openapi/src/rest-generator.ts)

    A shallow embedding of [RESTfulOpenAPIGenerator]: the generated OpenAPI
    document is a JavaScript value (objects keep their property insertion
    order), the ZModel AST is a set of records, exceptions are an error
    monad and the [warnings] array of the generator instance is threaded
    explicitly. *)

From Stdlib Require Import String Ascii List Bool Arith Lia.
Import ListNotations.
Local Open Scope string_scope.
Local Open Scope list_scope.

(** Template literals: [`list-${name}`] is ["list-" +++ name]. *)
Infix "+++" := String.append (at level 60, right associativity).

(* ================================================================= *)
(** ** JavaScript values *)

Set Warnings "-register-all".

(** The values the generator builds.  An object is an association list in
    property insertion order; [JUndefined] is the value of a property that
    was written as [undefined] (the serializers drop such properties). *)
Inductive JSON : Type :=
| JUndefined
| JNull
| JBool (b : bool)
| JStr (s : string)
| JArr (items : list JSON)
| JObj (props : list (string * JSON)).

Definition Obj := list (string * JSON).

(** [o[k] = v]: an existing key keeps its position, a new key goes last. *)
Fixpoint obj_set (k : string) (v : JSON) (o : Obj) : Obj :=
  match o with
  | [] => [(k, v)]
  | (k', v') :: rest =>
      if (k' =? k)%string then (k, v) :: rest else (k', v') :: obj_set k v rest
  end.

(** [o[k]], [None] when the object has no such property. *)
Fixpoint obj_get (k : string) (o : Obj) : option JSON :=
  match o with
  | [] => None
  | (k', v') :: rest => if (k' =? k)%string then Some v' else obj_get k rest
  end.

Definition obj_keys (o : Obj) : list string := map fst o.

(** [{ ...a, ...b }] *)
Definition spread (a b : Obj) : Obj :=
  fold_left (fun acc kv => obj_set (fst kv) (snd kv) acc) b a.

(** Property read on a value: [v.k], [undefined] when absent. *)
Definition prop (k : string) (v : JSON) : JSON :=
  match v with
  | JObj o => match obj_get k o with Some x => x | None => JUndefined end
  | _ => JUndefined
  end.

(** JavaScript truthiness, [a ?? b] and [v === true]. *)
Definition truthy (v : JSON) : bool :=
  match v with
  | JUndefined | JNull => false
  | JBool b => b
  | JStr s => negb (s =? EmptyString)%string
  | JArr _ | JObj _ => true
  end.

Definition nullish (a b : JSON) : JSON :=
  match a with
  | JUndefined | JNull => b
  | _ => a
  end.

Definition strict_true (v : JSON) : bool :=
  match v with
  | JBool true => true
  | _ => false
  end.

(* ================================================================= *)
(** ** Exceptions *)

Inductive Outcome (A : Type) : Type :=
| Ok (a : A)
| Throw (msg : string).
Arguments Ok {A} a.
Arguments Throw {A} msg.

Definition bind {A B : Type} (c : Outcome A) (k : A -> Outcome B) : Outcome B :=
  match c with
  | Ok a => k a
  | Throw m => Throw m
  end.

Notation "x <- c ;; k" := (bind c (fun x => k))
  (at level 61, c at next level, right associativity).

(** A [for ... of] loop over [xs] with accumulator [acc] whose body may throw. *)
Fixpoint foldM {A S : Type} (body : S -> A -> Outcome S) (xs : list A) (acc : S)
  : Outcome S :=
  match xs with
  | [] => Ok acc
  | x :: rest => acc' <- body acc x ;; foldM body rest acc'
  end.

(** [invariant(cond, msg)] of the runtime's local helpers. *)
Definition invariant (cond : bool) (msg : string) : Outcome unit :=
  if cond then Ok tt else Throw msg.

(* ================================================================= *)
(** ** The ZModel AST (the parts the generator reads) *)

(** [DataModelFieldType] / [TypeDefFieldType]: [type] is the built-in type
    name if any, [reference] the name a declaration reference points at. *)
Record FieldType : Type := {
  t_type : option string;
  t_reference : option string;
  t_array : bool;
  t_optional : bool
}.

(** [DataModelField].  [f_isId] and [f_isForeignKey] are the verdicts of the
    SDK's [isIdField] and [isForeignKeyField]; [f_resolvedDecl] is
    [$resolvedType?.decl]. *)
Record DataModelField : Type := {
  f_name : string;
  f_type : FieldType;
  f_attributes : list string;
  f_isId : bool;
  f_isForeignKey : bool;
  f_resolvedDecl : option string
}.

Record TypeDefField : Type := {
  tf_name : string;
  tf_type : FieldType
}.

Record DataModel : Type := {
  m_name : string;
  m_fields : list DataModelField
}.

Record Enum : Type := {
  e_name : string;
  e_fields : list string
}.

Record TypeDef : Type := {
  td_name : string;
  td_fields : list TypeDefField
}.

Inductive Declaration : Type :=
| DeclDataModel (m : DataModel)
| DeclEnum (e : Enum)
| DeclTypeDef (t : TypeDef)
| DeclOther (name : string).

Record Model : Type := {
  declarations : list Declaration
}.

Definition isDataModel (d : option Declaration) : bool :=
  match d with Some (DeclDataModel _) => true | _ => false end.
Definition isEnum (d : option Declaration) : bool :=
  match d with Some (DeclEnum _) => true | _ => false end.
Definition isTypeDef (d : option Declaration) : bool :=
  match d with Some (DeclTypeDef _) => true | _ => false end.

Definition decl_name (d : Declaration) : string :=
  match d with
  | DeclDataModel m => m_name m
  | DeclEnum e => e_name e
  | DeclTypeDef t => td_name t
  | DeclOther n => n
  end.

(** A type reference resolves to the type declaration (data model, enum or
    type definition) of that name. *)
Definition is_type_decl (d : Declaration) : bool :=
  match d with DeclOther _ => false | _ => true end.

Definition resolve (m : Model) (r : option string) : option Declaration :=
  match r with
  | None => None
  | Some n => find (fun d => is_type_decl d && (decl_name d =? n)%string) (declarations m)
  end.

Definition isIdField (f : DataModelField) : bool := f_isId f.
Definition isForeignKeyField (f : DataModelField) : bool := f_isForeignKey f.
Definition hasAttribute (f : DataModelField) (a : string) : bool :=
  existsb (fun x => (x =? a)%string) (f_attributes f).

(** DMMF side: only the model names are read. *)
Record DMMFModel : Type := { dm_name : string }.

(** Result of the policy analyzer: each entry is [true], [false] or
    [undefined]. *)
Record Policies : Type := {
  p_read : option bool;
  p_create : option bool;
  p_update : option bool;
  p_delete : option bool
}.

(** A value of TypeScript type [object]: an array or a record. *)
Inductive JsObject : Type :=
| ObjArray (items : list JSON)
| ObjRecord (props : Obj).

Definition object_value (o : JsObject) : JSON :=
  match o with
  | ObjArray xs => JArr xs
  | ObjRecord ps => JObj ps
  end.

(** [{ tagDescription?: string, security?: object }] *)
Record ResourceMeta : Type := {
  tagDescription : option string;
  security : option JsObject
}.

Record PluginOptions : Type := {
  o_output : option string;
  o_specVersion : option string;
  o_title : option string;
  o_version : option string;
  o_description : option string;
  o_summary : option string;
  o_prefix : option string;
  o_modelNameMapping : option (list (string * string));
  o_omitInputDetails : option JSON
}.

(** [this.getOption(name, default)] *)
Definition getOption {A : Type} (v : option A) (default : A) : A :=
  match v with Some x => x | None => default end.

(** The double-quote character of the generated descriptions. *)
Definition dq : string := String (ascii_of_nat 34) EmptyString.
Definition quoted (s : string) : string := dq +++ s +++ dq.

Definition JFalse : JSON := JBool false.
Definition JTrue : JSON := JBool true.
Definition strings (l : list string) : JSON := JArr (map JStr l).

(* ================================================================= *)
(** ** Helpers of the generator base class and of the runtime *)

(** Modelled from the spec: [wrapArray], [array], [oneOf] and [allOf] of
    [OpenAPIGeneratorBase] (generator-base.ts is not among the sources):
    an array-valued field is wrapped as [{type: array, items: base}];
    [oneOf]/[allOf] compose the given schemas. *)
Definition array (itemType : JSON) : JSON :=
  JObj [("type", JStr "array"); ("items", itemType)].
Definition wrapArray (schema : JSON) (isArray : bool) : JSON :=
  if isArray then array schema else schema.
Definition oneOf (schemas : list JSON) : JSON := JObj [("oneOf", JArr schemas)].
Definition allOf (schemas : list JSON) : JSON := JObj [("allOf", JArr schemas)].

(** [pluralize('relationship', n)] for the two counts the generator uses. *)
Definition pluralize_relationship (count : nat) : string :=
  if Nat.eqb count 1 then "relationship" else "relationships".

(** [s.endsWith('/')] and [s.substring(0, s.length - 1)]. *)
Fixpoint endsWith_slash (s : string) : bool :=
  match s with
  | EmptyString => false
  | String c EmptyString => (c =? "/")%char
  | String _ rest => endsWith_slash rest
  end.

Fixpoint drop_last (s : string) : string :=
  match s with
  | EmptyString => EmptyString
  | String _ EmptyString => EmptyString
  | String c rest => String c (drop_last rest)
  end.

Definition spread_obj (v : JSON) : Obj :=
  match v with JObj o => o | _ => [] end.

(* ================================================================= *)
(** ** Component pruning *)

(** Every [$ref] string that occurs in a value: a [$ref] property that
    holds a string is a reference, every other property and every array
    element is traversed. *)
Fixpoint collectRefs (v : JSON) : list string :=
  match v with
  | JArr xs =>
      (fix items (l : list JSON) : list string :=
         match l with
         | [] => []
         | x :: rest => collectRefs x ++ items rest
         end) xs
  | JObj ps =>
      (fix props (l : list (string * JSON)) : list string :=
         match l with
         | [] => []
         | (k, x) :: rest =>
             match x with
             | JStr s => if (k =? "$ref")%string then [s] else []
             | _ => collectRefs x
             end ++ props rest
         end) ps
  | _ => []
  end.

(** [strip p s] is [Some r] when [s = p +++ r]. *)
Fixpoint strip (p s : string) : option string :=
  match p with
  | EmptyString => Some s
  | String a p' =>
      match s with
      | String b s' => if (a =? b)%char then strip p' s' else None
      | EmptyString => None
      end
  end.

(** The schema component a [$ref] string names, if it names one. *)
Definition schemaName (r : string) : option string :=
  strip "#/components/schemas/" r.

Definition usedComponents (v : JSON) : list string :=
  flat_map (fun r => match schemaName r with Some n => [n] | None => [] end)
           (collectRefs v).

Definition mem (x : string) (l : list string) : bool :=
  existsb (fun y => (y =? x)%string) l.

(** Modelled from the spec: the part of [pruneComponents] that follows
    references (generator-base.ts is not among the sources): "traverse every
    [$ref] reachable from the generated paths (request bodies, response
    schemas, and transitively from any schema reached)".  [pending] holds
    the components not yet visited; each round visits those whose name is
    already [used] and adds the names they reference. *)
Fixpoint reachable (fuel : nat) (pending : Obj) (used : list string) : list string :=
  match fuel with
  | 0 => used
  | S fuel' =>
      match partition (fun kv => mem (fst kv) used) pending with
      | ([], _) => used
      | (hit, miss) =>
          reachable fuel' miss (used ++ flat_map (fun kv => usedComponents (snd kv)) hit)
      end
  end.

Definition allUsed (paths schemas : Obj) : list string :=
  reachable (List.length schemas) schemas (usedComponents (JObj paths)).

(** Modelled from the spec: [pruneComponents] of [OpenAPIGeneratorBase]
    (generator-base.ts is not among the sources): "remove every named
    component NOT reachable" from the paths. *)
Definition pruneComponents (paths schemas : Obj) : Obj :=
  filter (fun kv => mem (fst kv) (allUsed paths schemas)) schemas.

(* ================================================================= *)
(** ** The generator *)

Section Generator.

(** Constructor arguments of [RESTfulOpenAPIGenerator]. *)
Variable this_model : Model.
Variable options : PluginOptions.
Variable dmmf_models : list DMMFModel.

(** External collaborators: the SDK's policy analyzer, the resource
    metadata reader of meta.ts, the runtime's [lowerCaseFirst], the SDK's
    [getDataModels(this.model)], and from the generator base class
    [includedModels], [wrapNullable] (which depends on the spec version),
    [generateSecuritySchemes] and [DEFAULT_SPEC_VERSION]. *)
Variable analyzePolicies : DataModel -> Policies.
Variable getModelResourceMeta : DataModel -> option ResourceMeta.
Variable lowerCaseFirst : string -> string.
Variable getDataModels : list DataModel.
Variable includedModels : list DataModel.
Variable wrapNullable : JSON -> bool -> JSON.
Variable generateSecuritySchemes : Outcome JSON.
Variable DEFAULT_SPEC_VERSION : string.

(** [field.type.reference?.ref] *)
Definition ref_decl (t : FieldType) : option Declaration :=
  resolve this_model (t_reference t).

(** The SDK's [isRelationshipField]: the field's type resolves to a data
    model (the same test [generatePathsForModel] makes inline). *)
Definition isRelationshipField (f : DataModelField) : bool :=
  isDataModel (ref_decl (f_type f)).

Definition modelNameMapping : list (string * string) :=
  getOption (o_modelNameMapping options) [].

Definition mapModelName (modelName : string) : string :=
  match find (fun kv => (fst kv =? modelName)%string) modelNameMapping with
  | Some kv => snd kv
  | None => modelName
  end.

Definition ref (type : string) : JSON :=
  JObj [("$ref", JStr ("#/components/schemas/" +++ type))].

Definition parameter (type : string) : JSON :=
  JObj [("$ref", JStr ("#/components/parameters/" +++ type))].

Definition error_content : JSON :=
  JObj [("application/vnd.api+json", JObj [("schema", ref "_errorResponse")])].

Definition forbidden : JSON :=
  JObj [("description", JStr "Request is forbidden"); ("content", error_content)].

Definition validationError : JSON :=
  JObj [("description", JStr "Request is unprocessable due to validation errors");
        ("content", error_content)].

Definition notFound : JSON :=
  JObj [("description", JStr "Resource is not found"); ("content", error_content)].

Definition success (responseComponent : option string) : JSON :=
  JObj [("description", JStr "Successful operation");
        ("content",
          match responseComponent with
          | Some c =>
              if truthy (JStr c)
              then JObj [("application/vnd.api+json", JObj [("schema", ref c)])]
              else JUndefined
          | None => JUndefined
          end)].

Definition type_is (t : FieldType) (n : string) : bool :=
  match t_type t with
  | Some x => (x =? n)%string
  | None => false
  end.

Definition fieldTypeToOpenAPISchema (type : FieldType) : Outcome JSON :=
  if type_is type "String" then Ok (JObj [("type", JStr "string")])
  else if type_is type "Int" || type_is type "BigInt" then Ok (JObj [("type", JStr "integer")])
  else if type_is type "Float" then Ok (JObj [("type", JStr "number")])
  else if type_is type "Decimal"
  then Ok (oneOf [JObj [("type", JStr "number")]; JObj [("type", JStr "string")]])
  else if type_is type "Boolean" then Ok (JObj [("type", JStr "boolean")])
  else if type_is type "DateTime"
  then Ok (JObj [("type", JStr "string"); ("format", JStr "date-time")])
  else if type_is type "Bytes"
  then Ok (JObj [("type", JStr "string"); ("format", JStr "byte");
                 ("description", JStr "Base64 encoded byte array")])
  else if type_is type "Json" then Ok (JObj [])
  else
    match ref_decl type with
    | Some fieldDecl => Ok (ref (decl_name fieldDecl))
    | None => Throw "Type is not a model reference"
    end.

Definition generateField (type : FieldType) : Outcome JSON :=
  schema <- fieldTypeToOpenAPISchema type ;;
  Ok (wrapArray (wrapNullable schema (t_optional type)) (t_array type)).

(** *** Filter parameters *)

Definition makeFilterParameter (field : DataModelField) (name description : string)
    (array : bool) (schemaOverride : option JSON) : Outcome JSON :=
  schema <-
    match schemaOverride with
    | Some s => Ok s
    | None =>
        let fieldDecl := ref_decl (f_type field) in
        match fieldDecl with
        | Some (DeclEnum e) => Ok (ref (e_name e))
        | Some (DeclDataModel _) => Ok (JObj [("type", JStr "string")])
        | _ =>
            if isTypeDef fieldDecl || type_is (f_type field) "Json"
            then Ok (JObj [("type", JStr "string"); ("format", JStr "json")])
            else
              _ <- invariant
                     (match t_type (f_type field) with
                      | Some x => truthy (JStr x)
                      | None => false
                      end) "Invariant failed" ;;
              fieldTypeToOpenAPISchema (f_type field)
        end
    end ;;
  let schema := wrapArray schema array in
  Ok (JObj [
    ("name", JStr (if (name =? "id")%string then "filter[id]"
                   else "filter[" +++ f_name field +++ name +++ "]"));
    ("required", JFalse);
    ("description", JStr (if (name =? "id")%string then description
                          else description +++ " for " +++ quoted (f_name field)));
    ("in", JStr "query");
    ("style", JStr "form");
    ("explode", JFalse);
    ("schema", schema)]).

Definition comparable (t : FieldType) : bool :=
  match t_type t with
  | Some x =>
      truthy (JStr x) &&
      existsb (fun n => (n =? x)%string) ["Int"; "BigInt"; "Float"; "Decimal"; "DateTime"]
  | None => false
  end.

(** One round of the loop over [model.fields]; [result] is the array the
    parameters are pushed to. *)
Definition filterParametersOfField (hasMultipleIds : bool) (result : list JSON)
    (field : DataModelField) : Outcome (list JSON) :=
  if isForeignKeyField field then Ok result
  else if isIdField field && negb hasMultipleIds then
    p <- makeFilterParameter field "id" "Id filter" false None ;;
    Ok (result ++ [p])
  else
    p <- makeFilterParameter field EmptyString "Equality filter"
           (t_array (f_type field)) None ;;
    let result := result ++ [p] in
    if isRelationshipField field then Ok result
    else if t_array (f_type field) then
      p1 <- makeFilterParameter field "$has" "Collection contains filter" false None ;;
      p2 <- makeFilterParameter field "$hasEvery" "Collection contains-all filter" true None ;;
      p3 <- makeFilterParameter field "$hasSome" "Collection contains-any filter" true None ;;
      p4 <- makeFilterParameter field "$isEmpty" "Collection is empty filter" false
              (Some (JObj [("type", JStr "boolean")])) ;;
      Ok (result ++ [p1; p2; p3; p4])
    else
      result <-
        (if comparable (f_type field) then
           p1 <- makeFilterParameter field "$lt" "Less-than filter" false None ;;
           p2 <- makeFilterParameter field "$lte" "Less-than or equal filter" false None ;;
           p3 <- makeFilterParameter field "$gt" "Greater-than filter" false None ;;
           p4 <- makeFilterParameter field "$gte" "Greater-than or equal filter" false None ;;
           Ok (result ++ [p1; p2; p3; p4])
         else Ok result) ;;
      if type_is (f_type field) "String" then
        p1 <- makeFilterParameter field "$contains" "String contains filter" false None ;;
        p2 <- makeFilterParameter field "$icontains"
                "String case-insensitive contains filter" false None ;;
        p3 <- makeFilterParameter field "$search" "String full-text search filter" false None ;;
        p4 <- makeFilterParameter field "$startsWith" "String startsWith filter" false None ;;
        p5 <- makeFilterParameter field "$endsWith" "String endsWith filter" false None ;;
        Ok (result ++ [p1; p2; p3; p4; p5])
      else Ok result.

Definition generateFilterParameters (model : DataModel) : Outcome (list JSON) :=
  let hasMultipleIds := Nat.ltb 1 (List.length (filter isIdField (m_fields model))) in
  foldM (filterParametersOfField hasMultipleIds) (m_fields model) [].

(** *** Operations *)

Definition policy_value (p : option bool) : JSON :=
  match p with
  | Some b => JBool b
  | None => JUndefined
  end.

(** [resourceMeta?.security] *)
Definition meta_security (resourceMeta : option ResourceMeta) : JSON :=
  match resourceMeta with
  | Some meta =>
      match security meta with
      | Some o => object_value o
      | None => JUndefined
      end
  | None => JUndefined
  end.

(** [resourceMeta?.security ?? policy === true ? [] : undefined]:
    [===] binds tighter than [??], which binds tighter than [? :]. *)
Definition security_expr (resourceMeta : option ResourceMeta) (policy : option bool)
  : JSON :=
  if truthy (nullish (meta_security resourceMeta)
                     (JBool (strict_true (policy_value policy))))
  then JArr []
  else JUndefined.

Definition request_body (component : string) : JSON :=
  JObj [("content",
         JObj [("application/vnd.api+json", JObj [("schema", ref component)])])].

Definition makeResourceList (model : DataModel) (policies : Policies)
    (resourceMeta : option ResourceMeta) : Outcome JSON :=
  filters <- generateFilterParameters model ;;
  Ok (JObj [
    ("operationId", JStr ("list-" +++ m_name model));
    ("description", JStr ("List " +++ quoted (m_name model) +++ " resources"));
    ("tags", strings [lowerCaseFirst (m_name model)]);
    ("parameters",
      JArr ([parameter "include"; parameter "sort"; parameter "page-offset";
             parameter "page-limit"] ++ filters));
    ("responses",
      JObj [("200", success (Some (m_name model +++ "ListResponse")));
            ("403", forbidden)]);
    ("security", security_expr resourceMeta (p_read policies))]).

Definition makeResourceCreate (model : DataModel) (policies : Policies)
    (resourceMeta : option ResourceMeta) : JSON :=
  JObj [
    ("operationId", JStr ("create-" +++ m_name model));
    ("description", JStr ("Create a " +++ quoted (m_name model) +++ " resource"));
    ("tags", strings [lowerCaseFirst (m_name model)]);
    ("requestBody", request_body (m_name model +++ "CreateRequest"));
    ("responses",
      JObj [("201", success (Some (m_name model +++ "Response")));
            ("403", forbidden);
            ("422", validationError)]);
    ("security", security_expr resourceMeta (p_create policies))].

Definition makeResourceFetch (model : DataModel) (policies : Policies)
    (resourceMeta : option ResourceMeta) : JSON :=
  JObj [
    ("operationId", JStr ("fetch-" +++ m_name model));
    ("description", JStr ("Fetch a " +++ quoted (m_name model) +++ " resource"));
    ("tags", strings [lowerCaseFirst (m_name model)]);
    ("parameters", JArr [parameter "id"; parameter "include"]);
    ("responses",
      JObj [("200", success (Some (m_name model +++ "Response")));
            ("403", forbidden);
            ("404", notFound)]);
    ("security", security_expr resourceMeta (p_read policies))].

Definition makeRelatedFetch (model : DataModel) (field : DataModelField)
    (relationDecl : DataModel) (resourceMeta : option ResourceMeta) : Outcome JSON :=
  let policies := analyzePolicies relationDecl in
  let parameters := [parameter "id"; parameter "include"] in
  parameters <-
    (if t_array (f_type field) then
       filters <- generateFilterParameters model ;;
       Ok (parameters ++
           [parameter "sort"; parameter "page-offset"; parameter "page-limit"] ++ filters)
     else Ok parameters) ;;
  Ok (JObj [
    ("operationId", JStr ("fetch-" +++ m_name model +++ "-related-" +++ f_name field));
    ("description",
      JStr ("Fetch the related " +++ quoted (f_name field) +++ " resource for " +++
            quoted (m_name model)));
    ("tags", strings [lowerCaseFirst (m_name model)]);
    ("parameters", JArr parameters);
    ("responses",
      JObj [("200", success (Some (if t_array (f_type field)
                                   then m_name relationDecl +++ "ListResponse"
                                   else m_name relationDecl +++ "Response")));
            ("403", forbidden);
            ("404", notFound)]);
    ("security", security_expr resourceMeta (p_read policies))]).

Definition makeResourceUpdate (model : DataModel) (policies : Policies)
    (operationId : string) (resourceMeta : option ResourceMeta) : JSON :=
  JObj [
    ("operationId", JStr operationId);
    ("description", JStr ("Update a " +++ quoted (m_name model) +++ " resource"));
    ("tags", strings [lowerCaseFirst (m_name model)]);
    ("parameters", JArr [parameter "id"]);
    ("requestBody", request_body (m_name model +++ "UpdateRequest"));
    ("responses",
      JObj [("200", success (Some (m_name model +++ "Response")));
            ("403", forbidden);
            ("404", notFound);
            ("422", validationError)]);
    ("security", security_expr resourceMeta (p_update policies))].

Definition makeResourceDelete (model : DataModel) (policies : Policies)
    (resourceMeta : option ResourceMeta) : JSON :=
  JObj [
    ("operationId", JStr ("delete-" +++ m_name model));
    ("description", JStr ("Delete a " +++ quoted (m_name model) +++ " resource"));
    ("tags", strings [lowerCaseFirst (m_name model)]);
    ("parameters", JArr [parameter "id"]);
    ("responses",
      JObj [("200", success None);
            ("403", forbidden);
            ("404", notFound)]);
    ("security", security_expr resourceMeta (p_delete policies))].

Definition makeRelationshipFetch (model : DataModel) (field : DataModelField)
    (policies : Policies) (resourceMeta : option ResourceMeta) : Outcome JSON :=
  let parameters := [parameter "id"] in
  parameters <-
    (if t_array (f_type field) then
       filters <- generateFilterParameters model ;;
       Ok (parameters ++
           [parameter "sort"; parameter "page-offset"; parameter "page-limit"] ++ filters)
     else Ok parameters) ;;
  Ok (JObj [
    ("operationId",
      JStr ("fetch-" +++ m_name model +++ "-relationship-" +++ f_name field));
    ("description",
      JStr ("Fetch the " +++ quoted (f_name field) +++ " relationships for a " +++
            quoted (m_name model)));
    ("tags", strings [lowerCaseFirst (m_name model)]);
    ("parameters", JArr parameters);
    ("responses",
      JObj [("200", if t_array (f_type field)
                    then success (Some "_toManyRelationshipResponse")
                    else success (Some "_toOneRelationshipResponse"));
            ("403", forbidden);
            ("404", notFound)]);
    ("security", security_expr resourceMeta (p_read policies))]).

Definition makeRelationshipCreate (model : DataModel) (field : DataModelField)
    (policies : Policies) (resourceMeta : option ResourceMeta) : JSON :=
  JObj [
    ("operationId",
      JStr ("create-" +++ m_name model +++ "-relationship-" +++ f_name field));
    ("description",
      JStr ("Create new " +++ quoted (f_name field) +++ " relationships for a " +++
            quoted (m_name model)));
    ("tags", strings [lowerCaseFirst (m_name model)]);
    ("parameters", JArr [parameter "id"]);
    ("requestBody", request_body "_toManyRelationshipRequest");
    ("responses",
      JObj [("200", success (Some "_toManyRelationshipResponse"));
            ("403", forbidden);
            ("404", notFound)]);
    ("security", security_expr resourceMeta (p_update policies))].

Definition makeRelationshipUpdate (model : DataModel) (field : DataModelField)
    (policies : Policies) (operationId : string) (resourceMeta : option ResourceMeta)
  : JSON :=
  JObj [
    ("operationId", JStr operationId);
    ("description",
      JStr ("Update " +++ quoted (f_name field) +++ " " +++
            pluralize_relationship (if t_array (f_type field) then 2 else 1) +++
            " for a " +++ quoted (m_name model)));
    ("tags", strings [lowerCaseFirst (m_name model)]);
    ("parameters", JArr [parameter "id"]);
    ("requestBody",
      JObj [("content",
             JObj [("application/vnd.api+json",
                    JObj [("schema", if t_array (f_type field)
                                     then ref "_toManyRelationshipRequest"
                                     else ref "_toOneRelationshipRequest")])])]);
    ("responses",
      JObj [("200", if t_array (f_type field)
                    then success (Some "_toManyRelationshipResponse")
                    else success (Some "_toOneRelationshipResponse"));
            ("403", forbidden);
            ("404", notFound)]);
    ("security", security_expr resourceMeta (p_update policies))].

(** *** Paths *)

(** [let container = result[path]; if (!container) container = result[path] = {}]:
    the path item the following assignments write to. *)
Definition container_at (path : string) (result : Obj) : Obj :=
  match obj_get path result with
  | Some (JObj c) => c
  | _ => []
  end.

(** One round of the loop over [zmodel.fields] in [generatePathsForModel]. *)
Definition pathsOfField (prefix modelName : string) (model : DMMFModel)
    (zmodel : DataModel) (policies : Policies) (resourceMeta : option ResourceMeta)
    (result : Obj) (field : DataModelField) : Outcome Obj :=
  match ref_decl (f_type field) with
  | Some (DeclDataModel relationDecl) =>
      (* GET /resource/{id}/{relationship} *)
      let relatedDataPath :=
        prefix +++ "/" +++ lowerCaseFirst modelName +++ "/{id}/" +++ f_name field in
      let container := container_at relatedDataPath result in
      get <- makeRelatedFetch zmodel field relationDecl resourceMeta ;;
      let container := obj_set "get" get container in
      let result := obj_set relatedDataPath (JObj container) result in

      let relationshipPath :=
        prefix +++ "/" +++ lowerCaseFirst modelName +++ "/{id}/relationships/" +++
        f_name field in
      let container := container_at relationshipPath result in
      (* GET /resource/{id}/relationships/{relationship} *)
      get <- makeRelationshipFetch zmodel field policies resourceMeta ;;
      let container := obj_set "get" get container in
      (* PUT /resource/{id}/relationships/{relationship} *)
      let container :=
        obj_set "put"
          (makeRelationshipUpdate zmodel field policies
             ("update-" +++ dm_name model +++ "-relationship-" +++ f_name field +++ "-put")
             resourceMeta) container in
      (* PATCH /resource/{id}/relationships/{relationship} *)
      let container :=
        obj_set "patch"
          (makeRelationshipUpdate zmodel field policies
             ("update-" +++ dm_name model +++ "-relationship-" +++ f_name field +++ "-patch")
             resourceMeta) container in
      let container :=
        if t_array (f_type field)
        then (* POST /resource/{id}/relationships/{relationship} *)
             obj_set "post" (makeRelationshipCreate zmodel field policies resourceMeta)
                     container
        else container in
      Ok (obj_set relationshipPath (JObj container) result)
  | _ => Ok result
  end.

Definition generatePathsForModel (model : DMMFModel) (zmodel : DataModel)
  : Outcome Obj :=
  let result : Obj := [] in
  (* analyze access policies to determine default security *)
  let policies := analyzePolicies zmodel in
  let prefix := getOption (o_prefix options) EmptyString in
  let prefix := if endsWith_slash prefix then drop_last prefix else prefix in
  let resourceMeta := getModelResourceMeta zmodel in
  let modelName := mapModelName (dm_name model) in
  (* GET /resource, POST /resource *)
  list <- makeResourceList zmodel policies resourceMeta ;;
  let result :=
    obj_set (prefix +++ "/" +++ lowerCaseFirst modelName)
      (JObj [("get", list);
             ("post", makeResourceCreate zmodel policies resourceMeta)]) result in
  (* GET, PUT, PATCH, DELETE /resource/{id} *)
  let result :=
    obj_set (prefix +++ "/" +++ lowerCaseFirst modelName +++ "/{id}")
      (JObj [("get", makeResourceFetch zmodel policies resourceMeta);
             ("put", makeResourceUpdate zmodel policies
                       ("update-" +++ modelName +++ "-put") resourceMeta);
             ("patch", makeResourceUpdate zmodel policies
                         ("update-" +++ modelName +++ "-patch") resourceMeta);
             ("delete", makeResourceDelete zmodel policies resourceMeta)]) result in
  (* paths for related resources and relationships *)
  foldM (pathsOfField prefix modelName model zmodel policies resourceMeta)
        (m_fields zmodel) result.

(** [this.model.declarations.find((d) => isDataModel(d) && d.name === name)] *)
Definition findZModel (name : string) : option DataModel :=
  match find (fun d => isDataModel (Some d) && (decl_name d =? name)%string)
             (declarations this_model) with
  | Some (DeclDataModel zmodel) => Some zmodel
  | _ => None
  end.

(** The loop of [generatePaths]: [result] is the paths object built so far
    and [warnings] the generator's [this.warnings], which survives a throw. *)
Fixpoint generatePaths_loop (models : list DMMFModel) (result : Obj)
    (warnings : list string) : Outcome Obj * list string :=
  match models with
  | [] => (Ok result, warnings)
  | model :: rest =>
      if mem (dm_name model) (map m_name includedModels) then
        match findZModel (dm_name model) with
        | Some zmodel =>
            match generatePathsForModel model zmodel with
            | Ok paths => generatePaths_loop rest (spread result paths) warnings
            | Throw e => (Throw e, warnings)
            end
        | None =>
            generatePaths_loop rest result
              (warnings ++ ["Unable to load ZModel definition for: " +++ dm_name model +++ "}"])
        end
      else generatePaths_loop rest result warnings
  end.

Definition generatePaths (warnings : list string) : Outcome Obj * list string :=
  generatePaths_loop dmmf_models [] warnings.

(** *** Component schemas *)

Definition described (type description : string) : JSON :=
  JObj [("type", JStr type); ("description", JStr description)].

Definition generateSharedComponents : Obj := [
  ("_jsonapi",
    JObj [("type", JStr "object");
          ("description", JStr "An object describing the server’s implementation");
          ("required", strings ["version"]);
          ("properties", JObj [("version", JObj [("type", JStr "string")])])]);
  ("_meta",
    JObj [("type", JStr "object");
          ("description", JStr "Meta information about the request or response");
          ("properties",
            JObj [("serialization",
                   JObj [("description", JStr "Superjson serialization metadata")])]);
          ("additionalProperties", JTrue)]);
  ("_resourceIdentifier",
    JObj [("type", JStr "object");
          ("description", JStr "Identifier for a resource");
          ("required", strings ["type"; "id"]);
          ("properties",
            JObj [("type", described "string" "Resource type");
                  ("id", described "string" "Resource id")])]);
  ("_resource",
    allOf [ref "_resourceIdentifier";
           JObj [("type", JStr "object");
                 ("description", JStr "A resource with attributes and relationships");
                 ("properties",
                   JObj [("attributes", described "object" "Resource attributes");
                         ("relationships", described "object" "Resource relationships")])]]);
  ("_links",
    JObj [("type", JStr "object");
          ("required", strings ["self"]);
          ("description", JStr "Links related to the resource");
          ("properties",
            JObj [("self", described "string" "Link for refetching the curent results")])]);
  ("_pagination",
    JObj [("type", JStr "object");
          ("description", JStr "Pagination information");
          ("required", strings ["first"; "last"; "prev"; "next"]);
          ("properties",
            JObj [("first", wrapNullable (described "string" "Link to the first page") true);
                  ("last", wrapNullable (described "string" "Link to the last page") true);
                  ("prev", wrapNullable (described "string" "Link to the previous page") true);
                  ("next", wrapNullable (described "string" "Link to the next page") true)])]);
  ("_errors",
    JObj [("type", JStr "array");
          ("description", JStr "An array of error objects");
          ("items",
            JObj [("type", JStr "object");
                  ("required", strings ["status"; "code"]);
                  ("properties",
                    JObj [("status", described "string" "HTTP status");
                          ("code", described "string" "Error code");
                          ("prismaCode",
                            described "string"
                              "Prisma error code if the error is thrown by Prisma");
                          ("title", described "string" "Error title");
                          ("detail", described "string" "Error detail");
                          ("reason", described "string" "Detailed error reason");
                          ("zodErrors",
                            JObj [("type", JStr "object");
                                  ("additionalProperties", JTrue);
                                  ("description",
                                    JStr "Zod validation errors if the error is due to data validation failure")])])])]);
  ("_errorResponse",
    JObj [("type", JStr "object");
          ("required", strings ["errors"]);
          ("description", JStr "An error response");
          ("properties",
            JObj [("jsonapi", ref "_jsonapi"); ("errors", ref "_errors")])]);
  ("_relationLinks",
    JObj [("type", JStr "object");
          ("required", strings ["self"; "related"]);
          ("description", JStr "Links related to a relationship");
          ("properties",
            JObj [("self", described "string" "Link for fetching this relationship");
                  ("related",
                    described "string"
                      "Link for fetching the resource represented by this relationship")])]);
  ("_toOneRelationship",
    JObj [("type", JStr "object");
          ("description", JStr "A to-one relationship");
          ("properties",
            JObj [("data", wrapNullable (ref "_resourceIdentifier") true)])]);
  ("_toOneRelationshipWithLinks",
    JObj [("type", JStr "object");
          ("required", strings ["links"; "data"]);
          ("description", JStr "A to-one relationship with links");
          ("properties",
            JObj [("links", ref "_relationLinks");
                  ("data", wrapNullable (ref "_resourceIdentifier") true)])]);
  ("_toManyRelationship",
    JObj [("type", JStr "object");
          ("required", strings ["data"]);
          ("description", JStr "A to-many relationship");
          ("properties", JObj [("data", array (ref "_resourceIdentifier"))])]);
  ("_toManyRelationshipWithLinks",
    JObj [("type", JStr "object");
          ("required", strings ["links"; "data"]);
          ("description", JStr "A to-many relationship with links");
          ("properties",
            JObj [("links", ref "_pagedRelationLinks");
                  ("data", array (ref "_resourceIdentifier"))])]);
  ("_pagedRelationLinks",
    JObj (spread
            [("description", JStr "Relationship links with pagination information")]
            (spread_obj (allOf [ref "_pagination"; ref "_relationLinks"]))));
  ("_toManyRelationshipRequest",
    JObj [("type", JStr "object");
          ("required", strings ["data"]);
          ("description", JStr "Input for manipulating a to-many relationship");
          ("properties",
            JObj [("data",
                   JObj [("type", JStr "array");
                         ("items", ref "_resourceIdentifier")])])]);
  ("_toOneRelationshipRequest",
    JObj (spread
            [("description", JStr "Input for manipulating a to-one relationship")]
            (spread_obj
               (wrapNullable
                  (JObj [("type", JStr "object");
                         ("required", strings ["data"]);
                         ("properties", JObj [("data", ref "_resourceIdentifier")])])
                  true))));
  ("_toManyRelationshipResponse",
    JObj (spread
            [("description", JStr "Response for a to-many relationship")]
            (spread_obj
               (allOf [ref "_toManyRelationshipWithLinks";
                       JObj [("type", JStr "object");
                             ("properties", JObj [("jsonapi", ref "_jsonapi")])]]))));
  ("_toOneRelationshipResponse",
    JObj (spread
            [("description", JStr "Response for a to-one relationship")]
            (spread_obj
               (allOf [ref "_toOneRelationshipWithLinks";
                       JObj [("type", JStr "object");
                             ("properties", JObj [("jsonapi", ref "_jsonapi")])]]))))
].

Definition query_parameter (name description type : string) : JSON :=
  JObj [("name", JStr name);
        ("in", JStr "query");
        ("description", JStr description);
        ("required", JFalse);
        ("style", JStr "form");
        ("schema", JObj [("type", JStr type)])].

Definition generateParameters : Obj := [
  ("id",
    JObj [("name", JStr "id");
          ("in", JStr "path");
          ("description", JStr "The resource id");
          ("required", JTrue);
          ("schema", JObj [("type", JStr "string")])]);
  ("include", query_parameter "include" "Relationships to include" "string");
  ("sort", query_parameter "sort" "Fields to sort by" "string");
  ("page-offset", query_parameter "page[offset]" "Offset for pagination" "integer");
  ("page-limit", query_parameter "page[limit]" "Limit for pagination" "integer")
].

Definition generateEnumComponent (_enum : Enum) : JSON :=
  JObj [("type", JStr "string");
        ("description", JStr ("The " +++ quoted (e_name _enum) +++ " Enum"));
        ("enum", strings (e_fields _enum))].

Definition generateTypeDefComponent (typeDef : TypeDef) : Outcome JSON :=
  properties <-
    foldM (fun acc field =>
             schema <- generateField (tf_type field) ;;
             Ok (obj_set (tf_name field) schema acc))
          (td_fields typeDef) [] ;;
  Ok (JObj [("type", JStr "object");
            ("description", JStr ("The " +++ quoted (td_name typeDef) +++ " TypeDef"));
            ("properties", JObj properties)]).

Inductive Mode : Type := ModeRead | ModeCreate | ModeUpdate.

Definition is_read (mode : Mode) : bool :=
  match mode with ModeRead => true | _ => false end.
Definition is_create (mode : Mode) : bool :=
  match mode with ModeCreate => true | _ => false end.

(** The three accumulators of the field loop of [generateModelEntity]. *)
Record EntityParts : Type := {
  attributes : Obj;
  relationships : Obj;
  required : list string
}.

Definition entityPartsOfField (mode : Mode) (acc : EntityParts)
    (field : DataModelField) : Outcome EntityParts :=
  if isForeignKeyField field && negb (is_read mode) then
    (* foreign keys are not exposed as attributes *)
    Ok acc
  else if isRelationshipField field then
    let relType :=
      match mode with
      | ModeCreate | ModeUpdate =>
          if t_array (f_type field) then "_toManyRelationship" else "_toOneRelationship"
      | ModeRead =>
          if t_array (f_type field)
          then "_toManyRelationshipWithLinks" else "_toOneRelationshipWithLinks"
      end in
    Ok {| attributes := attributes acc;
          relationships :=
            obj_set (f_name field)
                    (wrapNullable (ref relType) (t_optional (f_type field)))
                    (relationships acc);
          required := required acc |}
  else
    schema <- generateField (f_type field) ;;
    Ok {| attributes := obj_set (f_name field) schema (attributes acc);
          relationships := relationships acc;
          required :=
            if is_create mode
               && negb (t_optional (f_type field))
               && negb (hasAttribute field "@default")
               (* collection relation fields are implicitly optional *)
               && negb (isDataModel (resolve this_model (f_resolvedDecl field))
                        && t_array (f_type field))
            then required acc ++ [f_name field]
            else if is_read mode
            then (* all fields are required for read operations *)
                 required acc ++ [f_name field]
            else required acc |}.

Definition generateModelEntity (model : DataModel) (mode : Mode) : Outcome JSON :=
  let idFields := filter isIdField (m_fields model) in
  (* For compound ids each component is also exposed as a separate fields. *)
  let fields :=
    if Nat.ltb 1 (List.length idFields) then m_fields model
    else filter (fun f => negb (isIdField f)) (m_fields model) in
  parts <- foldM (entityPartsOfField mode) fields
             {| attributes := []; relationships := []; required := [] |} ;;
  let toplevelRequired := ["type"; "attributes"] in
  let properties : Obj := [
    ("type", JObj [("type", JStr "string")]);
    ("attributes",
      JObj [("type", JStr "object");
            ("required",
              if Nat.ltb 0 (List.length (required parts))
              then strings (required parts) else JUndefined);
            ("properties", JObj (attributes parts))])] in
  idFieldSchema <-
    match idFields with
    | [idField] => fieldTypeToOpenAPISchema (f_type idField)
    | _ => Ok (JObj [("type", JStr "string")])
    end ;;
  let '(properties, toplevelRequired) :=
    if is_create mode then
      (* 'id' is required if there's no default value *)
      match filter isIdField (m_fields model) with
      | [idField] =>
          if negb (hasAttribute idField "@default")
          then (spread [("id", idFieldSchema)] properties, "id" :: toplevelRequired)
          else (properties, toplevelRequired)
      | _ => (properties, toplevelRequired)
      end
    else
      (* 'id' always required for read and update *)
      (spread [("id", idFieldSchema)] properties, "id" :: toplevelRequired) in
  let properties :=
    if Nat.ltb 0 (List.length (obj_keys (relationships parts)))
    then obj_set "relationships"
           (JObj [("type", JStr "object");
                  ("properties", JObj (relationships parts))]) properties
    else properties in
  Ok (JObj [("type", JStr "object");
            ("description", JStr ("The " +++ quoted (m_name model) +++ " model"));
            ("required", strings toplevelRequired);
            ("properties", JObj properties)]).

(** The [relationships] record of the response envelopes. *)
Definition responseRelationships (model : DataModel) : Obj :=
  fold_left
    (fun relationships field =>
       if isRelationshipField field then
         if t_array (f_type field)
         then obj_set (f_name field) (ref "_toManyRelationship") relationships
         else obj_set (f_name field) (ref "_toOneRelationship") relationships
       else relationships)
    (m_fields model) [].

Definition generateDataModelComponents (model : DataModel) : Outcome Obj :=
  let result : Obj := [] in
  read <- generateModelEntity model ModeRead ;;
  let result := obj_set (m_name model) read result in
  create <- generateModelEntity model ModeCreate ;;
  let result :=
    obj_set (m_name model +++ "CreateRequest")
      (JObj [("type", JStr "object");
             ("description", JStr ("Input for creating a " +++ quoted (m_name model)));
             ("required", strings ["data"]);
             ("properties", JObj [("data", create); ("meta", ref "_meta")])]) result in
  update <- generateModelEntity model ModeUpdate ;;
  let result :=
    obj_set (m_name model +++ "UpdateRequest")
      (JObj [("type", JStr "object");
             ("description", JStr ("Input for updating a " +++ quoted (m_name model)));
             ("required", strings ["data"]);
             ("properties", JObj [("data", update); ("meta", ref "_meta")])]) result in
  let relationships := responseRelationships model in
  let withRelationships :=
    allOf [ref (m_name model);
           JObj [("type", JStr "object");
                 ("properties",
                   JObj [("relationships",
                          JObj [("type", JStr "object");
                                ("properties", JObj relationships)])])]] in
  let result :=
    obj_set (m_name model +++ "Response")
      (JObj [("type", JStr "object");
             ("description", JStr ("Response for a " +++ quoted (m_name model)));
             ("required", strings ["data"]);
             ("properties",
               JObj [("jsonapi", ref "_jsonapi");
                     ("data", withRelationships);
                     ("meta", ref "_meta");
                     ("included",
                       JObj [("type", JStr "array"); ("items", ref "_resource")]);
                     ("links", ref "_links")])]) result in
  let result :=
    obj_set (m_name model +++ "ListResponse")
      (JObj [("type", JStr "object");
             ("description", JStr ("Response for a list of " +++ quoted (m_name model)));
             ("required", strings ["data"; "links"]);
             ("properties",
               JObj [("jsonapi", ref "_jsonapi");
                     ("data", array withRelationships);
                     ("meta", ref "_meta");
                     ("included",
                       JObj [("type", JStr "array"); ("items", ref "_resource")]);
                     ("links", allOf [ref "_links"; ref "_pagination"])])]) result in
  Ok result.

Definition declared_enums : list Enum :=
  flat_map (fun d => match d with DeclEnum e => [e] | _ => [] end)
           (declarations this_model).

Definition declared_typeDefs : list TypeDef :=
  flat_map (fun d => match d with DeclTypeDef t => [t] | _ => [] end)
           (declarations this_model).

(** [generateComponents] returns [{ schemas, parameters }]; the two records
    are kept apart here. *)
Definition generateSchemas : Outcome Obj :=
  let schemas := spread [] generateSharedComponents in
  let schemas :=
    fold_left (fun schemas _enum =>
                 obj_set (e_name _enum) (generateEnumComponent _enum) schemas)
              declared_enums schemas in
  (* data models *)
  schemas <-
    foldM (fun schemas model =>
             components <- generateDataModelComponents model ;;
             Ok (spread schemas components))
          getDataModels schemas ;;
  (* type defs *)
  foldM (fun schemas typeDef =>
           component <- generateTypeDefComponent typeDef ;;
           Ok (obj_set (td_name typeDef) component schemas))
        declared_typeDefs schemas.

Definition generateComponents : Outcome (Obj * Obj) :=
  schemas <- generateSchemas ;;
  Ok (schemas, spread [] generateParameters).

(** *** The document *)

(** The generator instance: its mutable [warnings] array. *)
Record Generator : Type := { warnings : list string }.

(** The constructor. *)
Definition new_generator : Outcome Generator :=
  match o_omitInputDetails options with
  | Some _ => Throw "omitInputDetails option is not supported for rest flavor"
  | None => Ok {| warnings := [] |}
  end.

Definition optional_string (v : option string) : JSON :=
  match v with Some s => JStr s | None => JUndefined end.

Definition document_tags : JSON :=
  JArr (map (fun model =>
               let meta := getModelResourceMeta model in
               JObj [("name", JStr (lowerCaseFirst (m_name model)));
                     ("description",
                       JStr (match meta with
                             | Some {| tagDescription := Some d |} => d
                             | _ => m_name model +++ " operations"
                             end))])
            includedModels).

(** [generate()]: the document handed to the serializer, or the exception,
    and the generator afterwards.  The returned [{ warnings }] is the
    [warnings] of that generator. *)
Definition generate (this : Generator) : Outcome JSON * Generator :=
  match o_output options with
  | None => (Throw "output option is required", this)
  | Some _ =>
      match generateComponents with
      | Throw e => (Throw e, this)
      | Ok (schemas, parameters) =>
          match generatePaths (warnings this) with
          | (Throw e, warnings) => (Throw e, {| warnings := warnings |})
          | (Ok paths, warnings) =>
              let this := {| warnings := warnings |} in
              (* prune unused component schemas *)
              let schemas := pruneComponents paths schemas in
              (* generate security schemes, and root-level security *)
              match generateSecuritySchemes with
              | Throw e => (Throw e, this)
              | Ok securitySchemes =>
                  let components :=
                    JObj [("schemas", JObj schemas);
                          ("parameters", JObj parameters);
                          ("securitySchemes", securitySchemes)] in
                  let security :=
                    if truthy securitySchemes
                       && Nat.ltb 0 (List.length (obj_keys (spread_obj securitySchemes)))
                    then JArr (map (fun scheme => JObj [(scheme, JArr [])])
                                   (obj_keys (spread_obj securitySchemes)))
                    else JUndefined in
                  (Ok (JObj [
                     ("openapi", JStr (getOption (o_specVersion options) DEFAULT_SPEC_VERSION));
                     ("info",
                       JObj [("title", JStr (getOption (o_title options)
                                                       "ZenStack Generated API"));
                             ("version", JStr (getOption (o_version options) "1.0.0"));
                             ("description", optional_string (o_description options));
                             ("summary", optional_string (o_summary options))]);
                     ("tags", document_tags);
                     ("paths", JObj paths);
                     ("components", components);
                     ("security", security)]), this)
              end
          end
      end
  end.

End Generator.

(* ================================================================= *)
(** ** Sample inputs *)

(** The runtime's [lowerCaseFirst] on ASCII letters. *)
Definition lower_ascii (c : ascii) : ascii :=
  let n := nat_of_ascii c in
  if Nat.leb 65 n && Nat.leb n 90 then ascii_of_nat (n + 32) else c.

Definition sample_lowerCaseFirst (s : string) : string :=
  match s with
  | EmptyString => EmptyString
  | String c rest => String (lower_ascii c) rest
  end.

(** A nullable wrapper in the style of the 3.1 documents. *)
Definition sample_wrapNullable (schema : JSON) (isNullable : bool) : JSON :=
  if isNullable then oneOf [schema; JObj [("type", JStr "null")]] else schema.

Definition scalar (type : string) : FieldType :=
  {| t_type := Some type; t_reference := None; t_array := false; t_optional := false |}.

Definition relation (target : string) (isArray : bool) : FieldType :=
  {| t_type := None; t_reference := Some target; t_array := isArray;
     t_optional := false |}.

Definition plain_field (name : string) (type : FieldType) : DataModelField :=
  {| f_name := name; f_type := type; f_attributes := []; f_isId := false;
     f_isForeignKey := false; f_resolvedDecl := t_reference type |}.

Definition id_field (name : string) (attributes : list string) : DataModelField :=
  {| f_name := name; f_type := scalar "String"; f_attributes := "@id" :: attributes;
     f_isId := true; f_isForeignKey := false; f_resolvedDecl := None |}.

Definition foreign_key (name : string) (isId : bool) : DataModelField :=
  {| f_name := name; f_type := scalar "String";
     f_attributes := if isId then ["@id"] else [];
     f_isId := isId; f_isForeignKey := true; f_resolvedDecl := None |}.

(** [model User { id String @id  email String  posts Post[] }] and
    [model Post { id String @id @default(cuid())  title String
                  author User @relation(...)  authorId String }] *)
Definition User : DataModel :=
  {| m_name := "User";
     m_fields := [id_field "id" []; plain_field "email" (scalar "String");
                  plain_field "posts" (relation "Post" true)] |}.

Definition Post : DataModel :=
  {| m_name := "Post";
     m_fields := [id_field "id" ["@default"]; plain_field "title" (scalar "String");
                  plain_field "author" (relation "User" false);
                  foreign_key "authorId" false] |}.

(** [model Profile { userId String @id  user User @relation(fields: [userId], ...) }]:
    the identifier is also the foreign key of the relation. *)
Definition Profile : DataModel :=
  {| m_name := "Profile";
     m_fields := [foreign_key "userId" true; plain_field "user" (relation "User" false)] |}.

Definition blog : Model :=
  {| declarations := [DeclDataModel User; DeclDataModel Post; DeclDataModel Profile] |}.

Definition no_options : PluginOptions :=
  {| o_output := Some "openapi.yaml"; o_specVersion := None; o_title := None;
     o_version := None; o_description := None; o_summary := None; o_prefix := None;
     o_modelNameMapping := None; o_omitInputDetails := None |}.

(** [modelNameMapping = { User: 'Post-relationship-author' }] *)
Definition remapped : PluginOptions :=
  {| o_output := Some "openapi.yaml"; o_specVersion := None; o_title := None;
     o_version := None; o_description := None; o_summary := None; o_prefix := None;
     o_modelNameMapping := Some [("User", "Post-relationship-author")];
     o_omitInputDetails := None |}.

Definition no_policies (_ : DataModel) : Policies :=
  {| p_read := None; p_create := None; p_update := None; p_delete := None |}.

Definition no_meta (_ : DataModel) : option ResourceMeta := None.

(** [@@allow('read', true)] on [Post] only. *)
Definition post_readable (m : DataModel) : Policies :=
  {| p_read := if (m_name m =? "Post")%string then Some true else None;
     p_create := None; p_update := None; p_delete := None |}.

(** The value of a parameter's [name] property. *)
Definition param_name (p : JSON) : string :=
  match prop "name" p with
  | JStr s => s
  | _ => EmptyString
  end.

(* ================================================================= *)
(** ** Vocabulary of the properties *)

(** The entity has a resource-level security override. *)
Definition has_override (resourceMeta : option ResourceMeta) : bool :=
  match resourceMeta with
  | Some {| security := Some _ |} => true
  | _ => false
  end.

(** The policy analyzer returned [true]. *)
Definition analyzer_true (policy : option bool) : bool :=
  match policy with
  | Some true => true
  | _ => false
  end.

(** [[]] when the override is present or the policy is unconditionally
    true, unset otherwise. *)
Definition security_open (override : bool) (policy : option bool) : JSON :=
  if override || analyzer_true policy then JArr [] else JUndefined.

Definition operation_parameters (op : JSON) : list JSON :=
  match prop "parameters" op with
  | JArr l => l
  | _ => []
  end.

(** The [sort], pagination and other parameters every collection fetch
    starts with. *)
Definition collection_parameters : list JSON :=
  [parameter "sort"; parameter "page-offset"; parameter "page-limit"].

(** Top-level [id] of an entity schema: present among [properties], listed
    in [required]. *)
Definition has_id (schema : JSON) : bool :=
  match obj_get "id" (spread_obj (prop "properties" schema)) with
  | Some _ => true
  | None => false
  end.

Definition lists (name : string) (v : JSON) : bool :=
  match v with
  | JArr l => existsb (fun x => match x with JStr s => (s =? name)%string | _ => false end) l
  | _ => false
  end.

Definition id_required (schema : JSON) : bool := lists "id" (prop "required" schema).

(** The entity has a single identifier field, and it carries no default. *)
Definition single_id_without_default (model : DataModel) : bool :=
  match filter isIdField (m_fields model) with
  | [idField] => negb (hasAttribute idField "@default")
  | _ => false
  end.

(** The URL prefix after the trailing slash is stripped, and the two paths
    of a relationship field. *)
Definition url_prefix (options : PluginOptions) : string :=
  let prefix := getOption (o_prefix options) EmptyString in
  if endsWith_slash prefix then drop_last prefix else prefix.

Definition relatedDataPath (prefix resource fieldName : string) : string :=
  prefix +++ "/" +++ resource +++ "/{id}/" +++ fieldName.

Definition relationshipPath (prefix resource fieldName : string) : string :=
  prefix +++ "/" +++ resource +++ "/{id}/relationships/" +++ fieldName.

(** No character of [s] is [c]. *)
Fixpoint without (c : ascii) (s : string) : bool :=
  match s with
  | EmptyString => true
  | String a rest => negb (a =? c)%char && without c rest
  end.

(** The HTTP methods of a path item, in insertion order. *)
Definition methods (paths : Obj) (path : string) : list string :=
  obj_keys (container_at path paths).

(** What the round of a relationship field writes at its relationship
    path: GET, PUT and PATCH, and POST for an array-valued field. *)
Definition relationshipItem (lowerCaseFirst : string -> string) (model : DMMFModel)
    (zmodel : DataModel) (policies : Policies) (resourceMeta : option ResourceMeta)
    (field : DataModelField) (get : JSON) : Obj :=
  [("get", get);
   ("put", makeRelationshipUpdate lowerCaseFirst zmodel field policies
             ("update-" +++ dm_name model +++ "-relationship-" +++ f_name field +++ "-put")
             resourceMeta);
   ("patch", makeRelationshipUpdate lowerCaseFirst zmodel field policies
               ("update-" +++ dm_name model +++ "-relationship-" +++ f_name field +++ "-patch")
               resourceMeta)]
  ++ (if t_array (f_type field)
      then [("post", makeRelationshipCreate lowerCaseFirst zmodel field policies resourceMeta)]
      else []).

(** [`filter[${field.name}${name}]`] *)
Definition filterName (fieldName operator : string) : string :=
  "filter[" +++ fieldName +++ operator +++ "]".

(** The names of the parameters one round of [generateFilterParameters]
    pushes for a field. *)
Definition filterNamesOfField (this_model : Model) (hasMultipleIds : bool)
    (field : DataModelField) : list string :=
  if isForeignKeyField field then []
  else if isIdField field && negb hasMultipleIds then ["filter[id]"]
  else
    filterName (f_name field) EmptyString ::
    (if isRelationshipField this_model field then []
     else if t_array (f_type field)
     then map (filterName (f_name field)) ["$has"; "$hasEvery"; "$hasSome"; "$isEmpty"]
     else
       (if comparable (f_type field)
        then map (filterName (f_name field)) ["$lt"; "$lte"; "$gt"; "$gte"]
        else [])
       ++
       (if type_is (f_type field) "String"
        then map (filterName (f_name field))
                 ["$contains"; "$icontains"; "$search"; "$startsWith"; "$endsWith"]
        else [])).

(** How many parameters of a list carry the given name. *)
Definition count_named (name : string) (params : list JSON) : nat :=
  List.length (filter (fun p => (param_name p =? name)%string) params).

Definition hasMultipleIds (model : DataModel) : bool :=
  Nat.ltb 1 (List.length (filter isIdField (m_fields model))).

(** The fields that give rise to a parameter named [filter[id]]: a field
    that is not a foreign key and is either the single identifier or is
    itself named [id]. *)
Definition yields_filter_id (multiple : bool) (f : DataModelField) : bool :=
  negb (isForeignKeyField f) &&
  ((isIdField f && negb multiple) || (f_name f =? "id")%string).

(** The warning pushed for a model without ZModel declaration. *)
Definition missing_warning (name : string) : string :=
  "Unable to load ZModel definition for: " +++ name +++ "}".

Definition is_filter_id (s : string) : bool := (s =? "filter[id]")%string.

(** The [operationId] of an operation. *)
Definition operation_id (op : JSON) : string :=
  match prop "operationId" op with
  | JStr s => s
  | _ => EmptyString
  end.

(** Every operation of a paths object, with its path and its method. *)
Definition operations (paths : Obj) : list (string * string * JSON) :=
  flat_map (fun entry =>
              map (fun operation => (fst entry, fst operation, snd operation))
                  (spread_obj (snd entry)))
           paths.

Definition operationIds (paths : Obj) : list string :=
  map (fun o => operation_id (snd o)) (operations paths).

Definition slot (o : string * string * JSON) : string * string := fst o.

(** A list of strings without repetition, decided. *)
Fixpoint distinct (l : list string) : bool :=
  match l with
  | [] => true
  | x :: rest => negb (mem x rest) && distinct rest
  end.

(** The pieces of a string between its hyphens. *)
Fixpoint segments (s : string) : list string :=
  match s with
  | EmptyString => [EmptyString]
  | String c rest =>
      if (c =? "-")%char then EmptyString :: segments rest
      else match segments rest with
           | piece :: pieces => String c piece :: pieces
           | [] => [String c EmptyString]
           end
  end.

(** The eleven operations the generator builds for an entity named [M]
    (in the DMMF and in the ZModel) and a relationship field named [f],
    with the [operationId], the path and the method each one gets;
    [mapped] is the entity name after [mapModelName] and [resource] that
    name after [lowerCaseFirst]. *)
Inductive OperationKind : Type :=
| OpList | OpCreate | OpFetch | OpUpdatePut | OpUpdatePatch | OpDelete
| OpRelated | OpRelationshipFetch | OpRelationshipPut | OpRelationshipPatch
| OpRelationshipCreate.

Definition operation_name (kind : OperationKind) (M mapped f : string) : string :=
  match kind with
  | OpList => "list-" +++ M
  | OpCreate => "create-" +++ M
  | OpFetch => "fetch-" +++ M
  | OpUpdatePut => "update-" +++ mapped +++ "-put"
  | OpUpdatePatch => "update-" +++ mapped +++ "-patch"
  | OpDelete => "delete-" +++ M
  | OpRelated => "fetch-" +++ M +++ "-related-" +++ f
  | OpRelationshipFetch => "fetch-" +++ M +++ "-relationship-" +++ f
  | OpRelationshipPut => "update-" +++ M +++ "-relationship-" +++ f +++ "-put"
  | OpRelationshipPatch => "update-" +++ M +++ "-relationship-" +++ f +++ "-patch"
  | OpRelationshipCreate => "create-" +++ M +++ "-relationship-" +++ f
  end.

Definition operation_segments (kind : OperationKind) (M mapped f : string)
  : list string :=
  match kind with
  | OpList => ["list"; M]
  | OpCreate => ["create"; M]
  | OpFetch => ["fetch"; M]
  | OpUpdatePut => ["update"; mapped; "put"]
  | OpUpdatePatch => ["update"; mapped; "patch"]
  | OpDelete => ["delete"; M]
  | OpRelated => ["fetch"; M; "related"; f]
  | OpRelationshipFetch => ["fetch"; M; "relationship"; f]
  | OpRelationshipPut => ["update"; M; "relationship"; f; "put"]
  | OpRelationshipPatch => ["update"; M; "relationship"; f; "patch"]
  | OpRelationshipCreate => ["create"; M; "relationship"; f]
  end.

Definition operation_path (prefix : string) (kind : OperationKind)
    (resource f : string) : string :=
  match kind with
  | OpList | OpCreate => prefix +++ "/" +++ resource
  | OpFetch | OpUpdatePut | OpUpdatePatch | OpDelete =>
      prefix +++ "/" +++ resource +++ "/{id}"
  | OpRelated => relatedDataPath prefix resource f
  | OpRelationshipFetch | OpRelationshipPut | OpRelationshipPatch
  | OpRelationshipCreate => relationshipPath prefix resource f
  end.

Definition operation_method (kind : OperationKind) : string :=
  match kind with
  | OpList | OpFetch | OpRelated | OpRelationshipFetch => "get"
  | OpCreate | OpRelationshipCreate => "post"
  | OpUpdatePut | OpRelationshipPut => "put"
  | OpUpdatePatch | OpRelationshipPatch => "patch"
  | OpDelete => "delete"
  end.

(** [op], found at [path] under [method], is one of the eleven operations
    of an entity with hyphen-free names, and sits where that operation goes. *)
Definition placed (options : PluginOptions) (lowerCaseFirst : string -> string)
    (path method : string) (op : JSON) : Prop :=
  exists kind M f,
    without "-" M = true /\
    without "-" (mapModelName options M) = true /\
    without "-" f = true /\
    operation_id op = operation_name kind M (mapModelName options M) f /\
    path = operation_path (url_prefix options) kind
             (lowerCaseFirst (mapModelName options M)) f /\
    method = operation_method kind.

Definition item_placed (options : PluginOptions) (lowerCaseFirst : string -> string)
    (path : string) (item : Obj) : Prop :=
  NoDup (obj_keys item) /\
  forall method op, In (method, op) item -> placed options lowerCaseFirst path method op.

Definition paths_placed (options : PluginOptions) (lowerCaseFirst : string -> string)
    (paths : Obj) : Prop :=
  NoDup (obj_keys paths) /\
  forall path item,
    In (path, item) paths ->
    exists c, item = JObj c /\ item_placed options lowerCaseFirst path c.

(** A component name is reachable from the paths: some path references it,
    or a reachable component of [schemas] references it. *)
Inductive Reachable (paths schemas : Obj) : string -> Prop :=
| reachable_from_path (n : string) :
    In n (usedComponents (JObj paths)) -> Reachable paths schemas n
| reachable_from_schema (k n : string) (v : JSON) :
    Reachable paths schemas k -> In (k, v) schemas -> In n (usedComponents v) ->
    Reachable paths schemas n.

(** [S] holds of everything the components it holds of reference. *)
Definition closed_under (schemas : Obj) (S : string -> Prop) : Prop :=
  forall k v n, In (k, v) schemas -> S k -> In n (usedComponents v) -> S n.

(** The names of the components [generateComponents] produces: the shared
    ones, one per enum, five per data model, one per type definition. *)
Definition shared_names : list string :=
  ["_jsonapi"; "_meta"; "_resourceIdentifier"; "_resource"; "_links"; "_pagination";
   "_errors"; "_errorResponse"; "_relationLinks"; "_toOneRelationship";
   "_toOneRelationshipWithLinks"; "_toManyRelationship"; "_toManyRelationshipWithLinks";
   "_pagedRelationLinks"; "_toManyRelationshipRequest"; "_toOneRelationshipRequest";
   "_toManyRelationshipResponse"; "_toOneRelationshipResponse"].

Definition model_components (name : string) : list string :=
  [name; name +++ "CreateRequest"; name +++ "UpdateRequest"; name +++ "Response";
   name +++ "ListResponse"].

Definition component_names (this_model : Model) (getDataModels : list DataModel)
  : list string :=
  shared_names
  ++ map e_name (declared_enums this_model)
  ++ flat_map (fun m => model_components (m_name m)) getDataModels
  ++ map td_name (declared_typeDefs this_model).

(** Every component the value references is among [names]. *)
Definition within (names : list string) (v : JSON) : Prop :=
  incl (usedComponents v) names.

(** A type whose reference, if it resolves to a data model, resolves to one
    that [getDataModels] returns. *)
Definition refers_to_generated (this_model : Model) (getDataModels : list DataModel)
    (t : FieldType) : Prop :=
  forall m, ref_decl this_model t = Some (DeclDataModel m) -> In m getDataModels.

(** The DMMF model is among [this.includedModels]. *)
Definition isIncluded (includedModels : list DataModel) (model : DMMFModel) : bool :=
  mem (dm_name model) (map m_name includedModels).

(** The DMMF model is included and [this.model] declares no data model of
    its name. *)
Definition lacksZModel (this_model : Model) (includedModels : list DataModel)
    (model : DMMFModel) : bool :=
  isIncluded includedModels model &&
  match findZModel this_model (dm_name model) with
  | Some _ => false
  | None => true
  end.

(** The options with [prefix] set. *)
Definition with_prefix (options : PluginOptions) (prefix : string) : PluginOptions :=
  {| o_output := o_output options; o_specVersion := o_specVersion options;
     o_title := o_title options; o_version := o_version options;
     o_description := o_description options; o_summary := o_summary options;
     o_prefix := Some prefix; o_modelNameMapping := o_modelNameMapping options;
     o_omitInputDetails := o_omitInputDetails options |}.

(** Every operation of a paths object satisfies [P], which may depend on
    the path the operation is at. *)
Definition all_placed_operations (P : string -> JSON -> Prop) (paths : Obj) : Prop :=
  forall path method op, In (path, method, op) (operations paths) -> P path op.

Definition all_operations (P : JSON -> Prop) (paths : Obj) : Prop :=
  all_placed_operations (fun _ => P) paths.

(** The [name]s of the entries of a [tags] array. *)
Definition tag_names (tags : JSON) : list string :=
  match tags with
  | JArr entries => map param_name entries
  | _ => []
  end.

(** The computation returns a value (it does not throw). *)
Definition returns {A : Type} (c : Outcome A) : Prop := exists a, c = Ok a.

(** The built-in scalar types [fieldTypeToOpenAPISchema] maps. *)
Definition builtinTypes : list string :=
  ["String"; "Int"; "BigInt"; "Float"; "Decimal"; "Boolean"; "DateTime"; "Bytes"; "Json"].

Definition isBuiltin (t : FieldType) : bool := existsb (type_is t) builtinTypes.

(** The type is a built-in scalar or its reference resolves to a
    declaration. *)
Definition convertible (this_model : Model) (t : FieldType) : bool :=
  isBuiltin t ||
  match ref_decl this_model t with
  | Some _ => true
  | None => false
  end.

(** Every field of the entity that is not a foreign key has a convertible
    type. *)
Definition filterable (this_model : Model) (zmodel : DataModel) : bool :=
  forallb (fun f => isForeignKeyField f || convertible this_model (f_type f))
          (m_fields zmodel).

(** Every field of the entity, and of the type definition, has a
    convertible type. *)
Definition describable (this_model : Model) (zmodel : DataModel) : bool :=
  forallb (fun f => convertible this_model (f_type f)) (m_fields zmodel).

Definition describableTypeDef (this_model : Model) (typeDef : TypeDef) : bool :=
  forallb (fun f => convertible this_model (tf_type f)) (td_fields typeDef).

(** The DMMF model is skipped by [generatePaths], or lacks a ZModel
    declaration, or its declaration is filterable. *)
Definition servable (this_model : Model) (includedModels : list DataModel)
    (model : DMMFModel) : bool :=
  negb (isIncluded includedModels model) ||
  match findZModel this_model (dm_name model) with
  | Some zmodel => filterable this_model zmodel
  | None => true
  end.

(** The fields the loop of [generateModelEntity] runs over: all of them for
    a compound identifier, otherwise the fields that are no identifier. *)
Definition entityFields (model : DataModel) : list DataModelField :=
  if Nat.ltb 1 (List.length (filter isIdField (m_fields model))) then m_fields model
  else filter (fun f => negb (isIdField f)) (m_fields model).

(** The loop does not skip the field: foreign keys are skipped unless the
    mode is [read]. *)
Definition exposedIn (mode : Mode) (f : DataModelField) : bool :=
  negb (isForeignKeyField f && negb (is_read mode)).

(** The field becomes an attribute, or a relationship, of the entity
    schema in the given mode. *)
Definition isAttribute (this_model : Model) (mode : Mode) (f : DataModelField) : bool :=
  exposedIn mode f && negb (isRelationshipField this_model f).

Definition isRelation (this_model : Model) (mode : Mode) (f : DataModelField) : bool :=
  exposedIn mode f && isRelationshipField this_model f.

(** The attribute is listed in [attributes.required]: always when reading,
    never when updating, and when creating unless it is optional, has a
    default or is a list of models. *)
Definition requiredIn (this_model : Model) (mode : Mode) (f : DataModelField) : bool :=
  match mode with
  | ModeRead => true
  | ModeCreate =>
      negb (t_optional (f_type f)) && negb (hasAttribute f "@default") &&
      negb (isDataModel (resolve this_model (f_resolvedDecl f)) && t_array (f_type f))
  | ModeUpdate => false
  end.

(** The shared component a relationship of the entity schema refers to. *)
Definition relationshipType (mode : Mode) (isArray : bool) : string :=
  match mode with
  | ModeRead =>
      if isArray then "_toManyRelationshipWithLinks" else "_toOneRelationshipWithLinks"
  | ModeCreate | ModeUpdate =>
      if isArray then "_toManyRelationship" else "_toOneRelationship"
  end.

(** [names.length > 0 ? names : undefined] *)
Definition optional_strings (names : list string) : JSON :=
  if Nat.ltb 0 (List.length names) then strings names else JUndefined.

(** A parameter of an operation resolves against the named [parameters]
    of the components: it is a reference to one of them, or it is an
    inline query parameter with a name. *)
Definition resolvable (parameters : Obj) (p : JSON) : Prop :=
  (exists n, p = parameter n /\ In n (obj_keys parameters)) \/
  (prop "in" p = JStr "query" /\ exists s, prop "name" p = JStr s).

(* ================================================================= *)
(** ** Basic facts *)

Lemma bind_Ok {A B : Type} (c : Outcome A) (k : A -> Outcome B) (b : B) :
  bind c k = Ok b -> exists a, c = Ok a /\ k a = Ok b.
Proof.
  destruct c as [a|m]; simpl; intros H; [exists a; auto | discriminate].
Qed.

(** Splits a successful monadic computation into its successful steps. *)
Ltac ok_inv H :=
  match type of H with
  | bind _ _ = Ok _ =>
      let a := fresh "a" in
      let Ha := fresh "Ha" in
      apply bind_Ok in H; destruct H as (a & Ha & H)
  end.

Lemma Ok_inj {A : Type} (a b : A) : Ok a = Ok b -> a = b.
Proof. intros H. injection H as H. exact H. Qed.

Lemma security_expr_open (resourceMeta : option ResourceMeta) (policy : option bool) :
  security_expr resourceMeta policy = security_open (has_override resourceMeta) policy.
Proof.
  destruct resourceMeta as [[description [[items|props]|]]|];
    destruct policy as [[|]|]; reflexivity.
Qed.

Lemma security_open_cases (override : bool) (policy : option bool) :
  security_open override policy = JArr [] \/ security_open override policy = JUndefined.
Proof.
  unfold security_open; destruct (override || analyzer_true policy); auto.
Qed.

(* ================================================================= *)
(** ** Security of the operations *)

Section Security.

Variable this_model : Model.
Variable analyzePolicies : DataModel -> Policies.
Variable lowerCaseFirst : string -> string.

Lemma makeResourceList_security model policies resourceMeta op :
  makeResourceList this_model lowerCaseFirst model policies resourceMeta = Ok op ->
  prop "security" op = security_expr resourceMeta (p_read policies).
Proof.
  unfold makeResourceList; intros H; ok_inv H; injection H as <-; reflexivity.
Qed.

Lemma makeRelationshipFetch_security model field policies resourceMeta op :
  makeRelationshipFetch this_model lowerCaseFirst model field policies resourceMeta = Ok op ->
  prop "security" op = security_expr resourceMeta (p_read policies).
Proof.
  unfold makeRelationshipFetch; intros H; ok_inv H; injection H as <-; reflexivity.
Qed.

Lemma makeRelatedFetch_security model field relationDecl resourceMeta op :
  makeRelatedFetch this_model analyzePolicies lowerCaseFirst model field relationDecl
    resourceMeta = Ok op ->
  prop "security" op = security_expr resourceMeta (p_read (analyzePolicies relationDecl)).
Proof.
  unfold makeRelatedFetch; intros H; ok_inv H; injection H as <-; reflexivity.
Qed.


End Security.


(* ================================================================= *)
(** ** Objects and strings *)

Lemma obj_get_set_same (k : string) (v : JSON) (o : Obj) :
  obj_get k (obj_set k v o) = Some v.
Proof.
  induction o as [|[k' v'] o IH]; simpl.
  - rewrite String.eqb_refl. reflexivity.
  - destruct (k' =? k)%string eqn:E; simpl; rewrite ?E, ?String.eqb_refl; auto.
Qed.

Lemma obj_get_set_other (k k' : string) (v : JSON) (o : Obj) :
  k <> k' -> obj_get k' (obj_set k v o) = obj_get k' o.
Proof.
  intros Hne. induction o as [|[k0 v0] o IH]; simpl.
  - destruct (k =? k')%string eqn:E; [apply String.eqb_eq in E; contradiction | reflexivity].
  - destruct (k0 =? k)%string eqn:E; simpl.
    + apply String.eqb_eq in E. subst k0.
      destruct (k =? k')%string eqn:E'; [apply String.eqb_eq in E'; contradiction | reflexivity].
    + rewrite IH. reflexivity.
Qed.

Lemma append_empty_r (s : string) : s +++ EmptyString = s.
Proof. induction s; simpl; congruence. Qed.

Lemma append_inj_l (p a b : string) : p +++ a = p +++ b -> a = b.
Proof. induction p; simpl; intros H; [assumption | injection H; auto]. Qed.

Lemma append_assoc (a b c : string) : (a +++ b) +++ c = a +++ b +++ c.
Proof. induction a; simpl; congruence. Qed.

Lemma without_append (c : ascii) (a b : string) :
  without c (a +++ b) = without c a && without c b.
Proof.
  induction a as [|x a IH]; simpl; [reflexivity|].
  rewrite IH. apply andb_assoc.
Qed.

(** Paths of different fields, and the two paths of slash-free fields, are
    all different. *)
Lemma relatedDataPath_inj (prefix resource f g : string) :
  relatedDataPath prefix resource f = relatedDataPath prefix resource g -> f = g.
Proof.
  unfold relatedDataPath. intros H.
  apply append_inj_l in H. apply (append_inj_l "/") in H.
  apply append_inj_l in H. apply (append_inj_l "/{id}/") in H. assumption.
Qed.

Lemma relationshipPath_inj (prefix resource f g : string) :
  relationshipPath prefix resource f = relationshipPath prefix resource g -> f = g.
Proof.
  unfold relationshipPath. intros H.
  apply append_inj_l in H. apply (append_inj_l "/") in H.
  apply append_inj_l in H. apply (append_inj_l "/{id}/relationships/") in H. assumption.
Qed.

Lemma related_not_relationship (prefix resource f g : string) :
  without "/" f = true ->
  relatedDataPath prefix resource f <> relationshipPath prefix resource g.
Proof.
  unfold relatedDataPath, relationshipPath. intros Hf H.
  apply append_inj_l in H. apply (append_inj_l "/") in H.
  apply append_inj_l in H. apply (append_inj_l "/{id}/") in H.
  subst f. change (without "/" ("relationships" +++ "/" +++ g) = true) in Hf.
  rewrite without_append in Hf. simpl in Hf. discriminate.
Qed.

Lemma resource_not_related (prefix resource f : string) :
  prefix +++ "/" +++ resource <> relatedDataPath prefix resource f /\
  prefix +++ "/" +++ resource +++ "/{id}" <> relatedDataPath prefix resource f.
Proof.
  unfold relatedDataPath. split; intros H.
  - rewrite <- (append_empty_r resource) in H at 1.
    apply append_inj_l in H. apply (append_inj_l "/") in H.
    apply append_inj_l in H. discriminate.
  - apply append_inj_l in H. apply (append_inj_l "/") in H.
    apply append_inj_l in H. discriminate.
Qed.

Lemma resource_not_relationship (prefix resource f : string) :
  prefix +++ "/" +++ resource <> relationshipPath prefix resource f /\
  prefix +++ "/" +++ resource +++ "/{id}" <> relationshipPath prefix resource f.
Proof.
  unfold relationshipPath. split; intros H.
  - rewrite <- (append_empty_r resource) in H at 1.
    apply append_inj_l in H. apply (append_inj_l "/") in H.
    apply append_inj_l in H. discriminate.
  - apply append_inj_l in H. apply (append_inj_l "/") in H.
    apply append_inj_l in H. discriminate.
Qed.

(* ================================================================= *)
(** ** The paths of one entity *)

Section PathsOfModel.

Variable this_model : Model.
Variable options : PluginOptions.
Variable analyzePolicies : DataModel -> Policies.
Variable getModelResourceMeta : DataModel -> option ResourceMeta.
Variable lowerCaseFirst : string -> string.

Variables (prefix modelName : string) (model : DMMFModel) (zmodel : DataModel).
Variables (policies : Policies) (resourceMeta : option ResourceMeta).

Local Abbreviation round :=
  (pathsOfField this_model analyzePolicies lowerCaseFirst prefix modelName model zmodel
     policies resourceMeta).
Local Abbreviation related f :=
  (relatedDataPath prefix (lowerCaseFirst modelName) (f_name f)).
Local Abbreviation relationship f :=
  (relationshipPath prefix (lowerCaseFirst modelName) (f_name f)).

Local Abbreviation item :=
  (relationshipItem lowerCaseFirst model zmodel policies resourceMeta).

(** The round of a relationship field, with its two paths named. *)
Lemma round_relation (result : Obj) (g : DataModelField) (rd : DataModel) :
  ref_decl this_model (f_type g) = Some (DeclDataModel rd) ->
  round result g =
    (get <- makeRelatedFetch this_model analyzePolicies lowerCaseFirst zmodel g rd
              resourceMeta ;;
     let result1 :=
       obj_set (related g) (JObj (obj_set "get" get (container_at (related g) result)))
               result in
     fetch <- makeRelationshipFetch this_model lowerCaseFirst zmodel g policies
                resourceMeta ;;
     Ok (obj_set (relationship g)
           (JObj (let container :=
                    obj_set "patch"
                      (makeRelationshipUpdate lowerCaseFirst zmodel g policies
                         ("update-" +++ dm_name model +++ "-relationship-" +++ f_name g
                            +++ "-patch") resourceMeta)
                      (obj_set "put"
                         (makeRelationshipUpdate lowerCaseFirst zmodel g policies
                            ("update-" +++ dm_name model +++ "-relationship-" +++ f_name g
                               +++ "-put") resourceMeta)
                         (obj_set "get" fetch (container_at (relationship g) result1))) in
                  if t_array (f_type g)
                  then obj_set "post"
                         (makeRelationshipCreate lowerCaseFirst zmodel g policies resourceMeta)
                         container
                  else container))
           result1)).
Proof.
  intros Hrd. unfold pathsOfField. rewrite Hrd. reflexivity.
Qed.

Lemma round_skip (result : Obj) (g : DataModelField) :
  isRelationshipField this_model g = false -> round result g = Ok result.
Proof.
  unfold isRelationshipField, pathsOfField.
  destruct (ref_decl this_model (f_type g)) as [[rd|e|t|n]|]; simpl;
    intros H; try discriminate; reflexivity.
Qed.

Lemma round_other (result result' : Obj) (g : DataModelField) (k : string) :
  round result g = Ok result' ->
  k <> related g -> k <> relationship g ->
  obj_get k result' = obj_get k result.
Proof.
  intros H Hk1 Hk2.
  destruct (isRelationshipField this_model g) eqn:Hrel.
  - unfold isRelationshipField in Hrel.
    destruct (ref_decl this_model (f_type g)) as [[rd|e|t|n]|] eqn:Hrd;
      try discriminate.
    rewrite (round_relation result g rd Hrd) in H.
    ok_inv H. cbv zeta in H. ok_inv H. injection H as <-.
    rewrite obj_get_set_other by (intros E; apply Hk2; symmetry; exact E).
    rewrite obj_get_set_other by (intros E; apply Hk1; symmetry; exact E).
    reflexivity.
  - rewrite round_skip in H by assumption. injection H as <-. reflexivity.
Qed.

Lemma round_self (result result' : Obj) (g : DataModelField) (rd : DataModel) :
  ref_decl this_model (f_type g) = Some (DeclDataModel rd) ->
  round result g = Ok result' ->
  without "/" (f_name g) = true ->
  obj_get (related g) result = None ->
  obj_get (relationship g) result = None ->
  exists get fetch,
    makeRelatedFetch this_model analyzePolicies lowerCaseFirst zmodel g rd resourceMeta
      = Ok get /\
    makeRelationshipFetch this_model lowerCaseFirst zmodel g policies resourceMeta
      = Ok fetch /\
    obj_get (related g) result' = Some (JObj [("get", get)]) /\
    obj_get (relationship g) result' = Some (JObj (item g fetch)).
Proof.
  intros Hrd H Hslash Hfresh1 Hfresh2.
  rewrite (round_relation result g rd Hrd) in H.
  ok_inv H. cbv zeta in H. ok_inv H. injection H as <-.
  exists a, a0. split; [assumption|]. split; [assumption|].
  assert (Hne : related g <> relationship g)
    by (apply related_not_relationship; assumption).
  unfold container_at.
  rewrite (obj_get_set_other (related g) (relationship g)) by assumption.
  rewrite Hfresh1, Hfresh2. split.
  - rewrite obj_get_set_other by (intros E; apply Hne; symmetry; exact E).
    rewrite obj_get_set_same. reflexivity.
  - rewrite obj_get_set_same. unfold relationshipItem.
    destruct (t_array (f_type g)); reflexivity.
Qed.

Lemma rounds_other (fields : list DataModelField) (result paths : Obj) (k : string) :
  foldM round fields result = Ok paths ->
  (forall h, In h fields -> k <> related h /\ k <> relationship h) ->
  obj_get k paths = obj_get k result.
Proof.
  revert result. induction fields as [|g rest IH]; simpl; intros result H Hk.
  - injection H as <-. reflexivity.
  - ok_inv H. rewrite (IH a) by auto.
    destruct (Hk g) as [H1 H2]; [auto|].
    eapply round_other; eassumption.
Qed.

(** With distinct, slash-free field names every relationship field ends up
    with exactly the two path items its own round wrote. *)
Lemma rounds_spec (fields : list DataModelField) (result paths : Obj) :
  foldM round fields result = Ok paths ->
  NoDup (map f_name fields) ->
  (forall h, In h fields -> without "/" (f_name h) = true) ->
  (forall h, In h fields ->
             obj_get (related h) result = None /\ obj_get (relationship h) result = None) ->
  forall f rd,
    In f fields ->
    ref_decl this_model (f_type f) = Some (DeclDataModel rd) ->
    exists get fetch,
      makeRelatedFetch this_model analyzePolicies lowerCaseFirst zmodel f rd resourceMeta
        = Ok get /\
      makeRelationshipFetch this_model lowerCaseFirst zmodel f policies resourceMeta
        = Ok fetch /\
      obj_get (related f) paths = Some (JObj [("get", get)]) /\
      obj_get (relationship f) paths = Some (JObj (item f fetch)).
Proof.
  revert result. induction fields as [|g rest IH]; simpl; intros result H Hnodup Hslash Hfresh f rd Hin Hrd.
  - contradiction.
  - ok_inv H. inversion Hnodup as [|x l Hnotin Hnodup']; subst.
    assert (Hdiff : forall h, In h rest ->
              (related h <> related g /\ related h <> relationship g) /\
              (relationship h <> related g /\ relationship h <> relationship g)).
    { intros h Hh.
      assert (Hne : f_name h <> f_name g).
      { intros E. apply Hnotin. rewrite <- E. apply in_map. assumption. }
      repeat split; intros E.
      - apply relatedDataPath_inj in E. contradiction.
      - apply related_not_relationship in E; auto.
      - symmetry in E. apply related_not_relationship in E; auto.
      - apply relationshipPath_inj in E. contradiction. }
    destruct Hin as [<-|Hin].
    + destruct (Hfresh g (or_introl eq_refl)) as [F1 F2].
      destruct (round_self result a g rd Hrd Ha (Hslash g (or_introl eq_refl)) F1 F2)
        as (get & fetch & G1 & G2 & G3 & G4).
      exists get, fetch. split; [assumption|]. split; [assumption|].
      rewrite <- G3, <- G4. split.
      * apply (rounds_other rest a paths); [assumption|].
        intros h Hh. destruct (Hdiff h Hh) as [[D1 D2] [D3 D4]].
        split; intros E; [apply D1 | apply D3]; symmetry; exact E.
      * apply (rounds_other rest a paths); [assumption|].
        intros h Hh. destruct (Hdiff h Hh) as [[D1 D2] [D3 D4]].
        split; intros E; [apply D2 | apply D4]; symmetry; exact E.
    + apply (IH a); auto.
      intros h Hh. destruct (Hfresh h (or_intror Hh)) as [F1 F2].
      destruct (Hdiff h Hh) as [[D1 D2] [D3 D4]].
      split.
      * rewrite (round_other result a g (related h)); auto.
      * rewrite (round_other result a g (relationship h)); auto.
Qed.

End PathsOfModel.

Section RelationshipPaths.

Variable this_model : Model.
Variable options : PluginOptions.
Variable analyzePolicies : DataModel -> Policies.
Variable getModelResourceMeta : DataModel -> option ResourceMeta.
Variable lowerCaseFirst : string -> string.

(** The two path items of a relationship field in the paths of its
    entity, for distinct and slash-free field names. *)
Lemma generatePathsForModel_relation (model : DMMFModel) (zmodel : DataModel)
    (paths : Obj) :
  generatePathsForModel this_model options analyzePolicies getModelResourceMeta
    lowerCaseFirst model zmodel = Ok paths ->
  NoDup (map f_name (m_fields zmodel)) ->
  (forall f, In f (m_fields zmodel) -> without "/" (f_name f) = true) ->
  forall field relationDecl,
    In field (m_fields zmodel) ->
    ref_decl this_model (f_type field) = Some (DeclDataModel relationDecl) ->
    let resource := lowerCaseFirst (mapModelName options (dm_name model)) in
    exists get fetch,
      makeRelatedFetch this_model analyzePolicies lowerCaseFirst zmodel field relationDecl
        (getModelResourceMeta zmodel) = Ok get /\
      makeRelationshipFetch this_model lowerCaseFirst zmodel field (analyzePolicies zmodel)
        (getModelResourceMeta zmodel) = Ok fetch /\
      obj_get (relatedDataPath (url_prefix options) resource (f_name field)) paths
        = Some (JObj [("get", get)]) /\
      obj_get (relationshipPath (url_prefix options) resource (f_name field)) paths
        = Some (JObj (relationshipItem lowerCaseFirst model zmodel (analyzePolicies zmodel)
                        (getModelResourceMeta zmodel) field fetch)).
Proof.
  intros H Hnodup Hslash field relationDecl Hin Hrd resource.
  unfold generatePathsForModel in H. ok_inv H.
  eapply (rounds_spec this_model analyzePolicies lowerCaseFirst (url_prefix options)
            (mapModelName options (dm_name model)) model zmodel (analyzePolicies zmodel)
            (getModelResourceMeta zmodel) (m_fields zmodel) _ paths);
    [exact H | assumption | assumption | | assumption | assumption].
  intros h Hh. fold resource.
  destruct (resource_not_related (url_prefix options) resource (f_name h)) as [N1 N2].
  destruct (resource_not_relationship (url_prefix options) resource (f_name h)) as [N3 N4].
  split; rewrite !obj_get_set_other by assumption; reflexivity.
Qed.



End RelationshipPaths.



(* ================================================================= *)
(** ** Parameters of the related-resource fetch *)

(** For an array-valued relationship field the related fetch lists [id],
    [include], the collection parameters, and the filter parameters of the
    entity it was called with as [model]: the owning entity. *)
Lemma makeRelatedFetch_parameters (this_model : Model)
    (analyzePolicies : DataModel -> Policies) (lowerCaseFirst : string -> string)
    (model : DataModel) (field : DataModelField) (relationDecl : DataModel)
    (resourceMeta : option ResourceMeta) (op : JSON) :
  t_array (f_type field) = true ->
  makeRelatedFetch this_model analyzePolicies lowerCaseFirst model field relationDecl
    resourceMeta = Ok op ->
  exists filters,
    generateFilterParameters this_model model = Ok filters /\
    operation_parameters op
      = [parameter "id"; parameter "include"] ++ collection_parameters ++ filters.
Proof.
  unfold makeRelatedFetch. intros Harray H. rewrite Harray in H.
  ok_inv H. ok_inv Ha. injection Ha as <-. injection H as <-.
  exists a0. split; [assumption | reflexivity].
Qed.

(** C1.  The code at [GET /user/{id}/posts] of the sample model: the
    operation lists sort and pagination parameters, and its filter
    parameters are those of [User], the owning entity; the filters of
    [Post], the related entity whose resources the operation returns, are
    not generated. *)
Theorem C1_related_fetch_filters_of_owner :
  exists op ownerFilters relatedFilters,
    makeRelatedFetch blog no_policies sample_lowerCaseFirst User
      (plain_field "posts" (relation "Post" true)) Post None = Ok op /\
    generateFilterParameters blog User = Ok ownerFilters /\
    generateFilterParameters blog Post = Ok relatedFilters /\
    operation_parameters op
      = [parameter "id"; parameter "include"] ++ collection_parameters ++ ownerFilters /\
    map param_name ownerFilters
      = ["filter[id]"; "filter[email]"; "filter[email$contains]";
         "filter[email$icontains]"; "filter[email$search]"; "filter[email$startsWith]";
         "filter[email$endsWith]"; "filter[posts]"] /\
    map param_name relatedFilters
      = ["filter[id]"; "filter[title]"; "filter[title$contains]";
         "filter[title$icontains]"; "filter[title$search]"; "filter[title$startsWith]";
         "filter[title$endsWith]"; "filter[author]"] /\
    prop "responses" op
      = JObj [("200", success (Some "PostListResponse")); ("403", forbidden);
              ("404", notFound)].
Proof.
  do 3 eexists. repeat split; reflexivity.
Qed.

(* ================================================================= *)
(** ** The top-level [id] of an entity schema *)

(** C2, as stated, fails for create mode: [Post] has a single identifier
    with a default, and its create-mode schema has no top-level [id]
    property at all. *)
Lemma C2_counterexample :
  exists schema,
    generateModelEntity blog sample_wrapNullable Post ModeCreate = Ok schema /\
    has_id schema = false.
Proof.
  eexists. split; reflexivity.
Qed.

(** C2 (amended).  In create mode the entity schema has a top-level [id]
    property exactly when [id] is listed in the top-level [required], and
    that is exactly when the entity has a single identifier field without a
    default; in read and update modes [id] is always present and always
    required. *)
Theorem C2_id_of_entity_schema :
  forall (this_model : Model) (wrapNullable : JSON -> bool -> JSON)
         (model : DataModel) (mode : Mode) (schema : JSON),
    generateModelEntity this_model wrapNullable model mode = Ok schema ->
    match mode with
    | ModeCreate =>
        has_id schema = single_id_without_default model /\
        id_required schema = single_id_without_default model
    | ModeRead | ModeUpdate =>
        has_id schema = true /\ id_required schema = true
    end.
Proof.
  intros this_model wrapNullable model mode schema H.
  unfold generateModelEntity in H. ok_inv H. ok_inv H.
  unfold single_id_without_default.
  destruct mode; simpl in H.
  - injection H as <-.
    destruct (Nat.ltb 0 (List.length (obj_keys (relationships a)))); split; reflexivity.
  - destruct (filter isIdField (m_fields model)) as [|idField [|other rest]];
      [ | destruct (hasAttribute idField "@default") | ];
      simpl in H; injection H as <-;
      destruct (Nat.ltb 0 (List.length (obj_keys (relationships a)))); split; reflexivity.
  - injection H as <-.
    destruct (Nat.ltb 0 (List.length (obj_keys (relationships a)))); split; reflexivity.
Qed.

(** C2 at work on [User] (identifier without default) in create mode. *)
Lemma C2_id_of_entity_schema_witness :
  exists schema,
    generateModelEntity blog sample_wrapNullable User ModeCreate = Ok schema /\
    has_id schema = true /\ id_required schema = true.
Proof.
  eexists. split; [reflexivity|].
  exact (C2_id_of_entity_schema blog sample_wrapNullable User ModeCreate _ eq_refl).
Defined.

(* ================================================================= *)
(** ** Names of the filter parameters *)

Lemma length_append (a b : string) :
  String.length (a +++ b) = String.length a + String.length b.
Proof. induction a; simpl; congruence. Qed.

Lemma append_inj_r (a b c : string) : a +++ c = b +++ c -> a = b.
Proof.
  revert b. induction a as [|x a IH]; intros [|y b] H; simpl in H.
  - reflexivity.
  - apply (f_equal String.length) in H. simpl in H. rewrite length_append in H. lia.
  - apply (f_equal String.length) in H. simpl in H. rewrite length_append in H. lia.
  - injection H as -> H. f_equal. auto.
Qed.

Lemma equality_filter_is_id (n : string) :
  (filterName n EmptyString =? "filter[id]")%string = (n =? "id")%string.
Proof.
  unfold filterName. simpl.
  destruct (n =? "id")%string eqn:E.
  - apply String.eqb_eq in E. subst n. reflexivity.
  - apply String.eqb_neq. apply String.eqb_neq in E. intros H. apply E.
    apply (append_inj_r n "id" "]"). exact H.
Qed.

Lemma operator_filter_not_id (n op : string) :
  3 <= String.length op ->
  (filterName n op =? "filter[id]")%string = false.
Proof.
  intros Hlen. apply String.eqb_neq. unfold filterName. intros H.
  apply (f_equal String.length) in H. simpl in H.
  rewrite !length_append in H. simpl in H. lia.
Qed.

Section FilterParameters.

Variable this_model : Model.

Lemma makeFilterParameter_name field name description array schemaOverride p :
  makeFilterParameter this_model field name description array schemaOverride = Ok p ->
  param_name p = (if (name =? "id")%string then "filter[id]"
                  else filterName (f_name field) name) /\
  prop "description" p
    = JStr (if (name =? "id")%string then description
            else description +++ " for " +++ quoted (f_name field)).
Proof.
  unfold makeFilterParameter. intros H. ok_inv H. injection H as <-.
  split; reflexivity.
Qed.

(** Each round appends to the array, and the names it appends are those
    of [filterNamesOfField]. *)
Lemma filterParametersOfField_names multiple result field result' :
  filterParametersOfField this_model multiple result field = Ok result' ->
  exists pushed,
    result' = result ++ pushed /\
    map param_name pushed = filterNamesOfField this_model multiple field.
Proof.
  unfold filterParametersOfField, filterNamesOfField. intros H.
  destruct (isForeignKeyField field).
  { injection H as <-. exists []. rewrite app_nil_r. auto. }
  destruct (isIdField field && negb multiple).
  { ok_inv H. injection H as <-. exists [a]. split; [reflexivity|].
    apply makeFilterParameter_name in Ha. destruct Ha as [Ha _].
    cbn [map]. rewrite Ha. reflexivity. }
  ok_inv H. apply makeFilterParameter_name in Ha. destruct Ha as [Ha _].
  simpl in Ha.
  destruct (isRelationshipField this_model field).
  { injection H as <-. exists [a]. split; [reflexivity|]. cbn [map]. rewrite Ha. reflexivity. }
  destruct (t_array (f_type field)).
  { repeat ok_inv H. injection H as <-.
    repeat match goal with
           | E : makeFilterParameter _ _ _ _ _ _ = Ok _ |- _ =>
               apply makeFilterParameter_name in E; destruct E as [E _]; simpl in E
           end.
    match goal with
    | |- exists pushed, _ ++ ?l = _ /\ _ => exists (a :: l)
    end.
    split.
    - rewrite <- app_assoc. reflexivity.
    - cbn [map]. congruence. }
  ok_inv H.
  assert (Hcmp : exists pushed,
             a0 = (result ++ [a]) ++ pushed /\
             map param_name pushed
             = (if comparable (f_type field)
                then map (filterName (f_name field)) ["$lt"; "$lte"; "$gt"; "$gte"]
                else [])).
  { destruct (comparable (f_type field)).
    - repeat ok_inv Ha0. injection Ha0 as <-.
      repeat match goal with
             | E : makeFilterParameter _ _ _ _ _ _ = Ok _ |- _ =>
                 apply makeFilterParameter_name in E; destruct E as [E _]; simpl in E
             end.
      eexists. split; [reflexivity|]. cbn [map]. congruence.
    - injection Ha0 as <-. exists []. rewrite app_nil_r. auto. }
  destruct Hcmp as (cmp & -> & Hcmp).
  destruct (type_is (f_type field) "String").
  - repeat ok_inv H. injection H as <-.
    repeat match goal with
           | E : makeFilterParameter _ _ _ _ _ _ = Ok _ |- _ =>
               apply makeFilterParameter_name in E; destruct E as [E _]; simpl in E
           end.
    match goal with
    | |- exists pushed, _ ++ ?l = _ /\ _ => exists (a :: cmp ++ l)
    end.
    split.
    + rewrite <- !app_assoc. reflexivity.
    + cbn [map]. rewrite map_app, Hcmp, Ha. cbn [map]. congruence.
  - injection H as <-. exists (a :: cmp). split.
    + rewrite <- !app_assoc. reflexivity.
    + cbn [map]. rewrite Hcmp, Ha, app_nil_r. reflexivity.
Qed.

Lemma foldM_filter_names multiple fields result params :
  foldM (filterParametersOfField this_model multiple) fields result = Ok params ->
  exists pushed,
    params = result ++ pushed /\
    map param_name pushed = flat_map (filterNamesOfField this_model multiple) fields.
Proof.
  revert result. induction fields as [|f rest IH]; simpl; intros result H.
  - injection H as <-. exists []. rewrite app_nil_r. auto.
  - ok_inv H. apply filterParametersOfField_names in Ha.
    destruct Ha as (p1 & -> & H1). apply IH in H. destruct H as (p2 & -> & H2).
    exists (p1 ++ p2). split; [rewrite app_assoc; reflexivity|].
    rewrite map_app. congruence.
Qed.

(** The names of the generated filter parameters. *)
Lemma generateFilterParameters_names model params :
  generateFilterParameters this_model model = Ok params ->
  map param_name params
    = flat_map (filterNamesOfField this_model (hasMultipleIds model)) (m_fields model).
Proof.
  unfold generateFilterParameters. intros H.
  apply foldM_filter_names in H. destruct H as (pushed & -> & H). exact H.
Qed.

End FilterParameters.

Section FilterId.

Variable this_model : Model.

Lemma count_named_names (name : string) (params : list JSON) :
  count_named name params
    = List.length (filter (fun s => (s =? name)%string) (map param_name params)).
Proof.
  unfold count_named. induction params as [|p rest IH]; simpl; [reflexivity|].
  destruct (param_name p =? name)%string; simpl; congruence.
Qed.

Lemma operators_never_id (n : string) (ops : list string) :
  Forall (fun op => 3 <= String.length op) ops ->
  filter is_filter_id (map (filterName n) ops) = [].
Proof.
  induction 1 as [|op ops Hop _ IH]; simpl; [reflexivity|].
  unfold is_filter_id at 1. rewrite operator_filter_not_id by assumption. exact IH.
Qed.

Lemma filter_id_of_field (multiple : bool) (f : DataModelField) :
  List.length (filter is_filter_id (filterNamesOfField this_model multiple f))
    = if yields_filter_id multiple f then 1 else 0.
Proof.
  unfold filterNamesOfField, yields_filter_id.
  destruct (isForeignKeyField f); [reflexivity|].
  destruct (isIdField f && negb multiple); [reflexivity|].
  cbn [filter negb andb orb]. unfold is_filter_id at 1.
  rewrite equality_filter_is_id.
  assert (Hrest :
    filter is_filter_id
      (if isRelationshipField this_model f then []
       else if t_array (f_type f)
       then map (filterName (f_name f)) ["$has"; "$hasEvery"; "$hasSome"; "$isEmpty"]
       else
         (if comparable (f_type f)
          then map (filterName (f_name f)) ["$lt"; "$lte"; "$gt"; "$gte"]
          else [])
         ++
         (if type_is (f_type f) "String"
          then map (filterName (f_name f))
                   ["$contains"; "$icontains"; "$search"; "$startsWith"; "$endsWith"]
          else [])) = []).
  { destruct (isRelationshipField this_model f); [reflexivity|].
    destruct (t_array (f_type f)).
    - apply operators_never_id. repeat constructor; simpl; lia.
    - rewrite filter_app.
      destruct (comparable (f_type f)), (type_is (f_type f) "String");
        rewrite ?operators_never_id by (repeat constructor; simpl; lia); reflexivity. }
  rewrite Hrest. destruct (f_name f =? "id")%string; reflexivity.
Qed.

Lemma filter_id_of_fields (multiple : bool) (fields : list DataModelField) :
  List.length (filter is_filter_id (flat_map (filterNamesOfField this_model multiple) fields))
    = List.length (filter (yields_filter_id multiple) fields).
Proof.
  induction fields as [|f rest IH]; simpl; [reflexivity|].
  rewrite filter_app, length_app, IH, filter_id_of_field.
  destruct (yields_filter_id multiple f); reflexivity.
Qed.

(** The number of parameters named [filter[id]]. *)
Lemma count_filter_id (model : DataModel) (params : list JSON) :
  generateFilterParameters this_model model = Ok params ->
  count_named "filter[id]" params
    = List.length (filter (yields_filter_id (hasMultipleIds model)) (m_fields model)).
Proof.
  intros H. rewrite count_named_names, (generateFilterParameters_names _ _ _ H).
  apply filter_id_of_fields.
Qed.

(** The equality filter is pushed for every field that is neither a
    foreign key nor the single identifier. *)
Lemma equality_filter_pushed multiple result field result' :
  filterParametersOfField this_model multiple result field = Ok result' ->
  isForeignKeyField field = false ->
  isIdField field && negb multiple = false ->
  exists p,
    In p result' /\
    param_name p = filterName (f_name field) EmptyString /\
    prop "description" p = JStr ("Equality filter for " +++ quoted (f_name field)).
Proof.
  intros H Hfk Hid.
  destruct (filterParametersOfField_names _ _ _ _ _ H) as (pushed & Hpushed & _).
  unfold filterParametersOfField in H. rewrite Hfk, Hid in H.
  ok_inv H. exists a. split.
  - assert (Hgrow : exists more, result' = (result ++ [a]) ++ more).
    { destruct (isRelationshipField this_model field);
        [injection H as <-; exists []; rewrite app_nil_r; reflexivity|].
      destruct (t_array (f_type field)).
      - repeat ok_inv H. injection H as <-. eexists. reflexivity.
      - ok_inv H.
        assert (exists more, a0 = (result ++ [a]) ++ more) as (m1 & ->).
        { destruct (comparable (f_type field)).
          - repeat ok_inv Ha0. injection Ha0 as <-. eexists. reflexivity.
          - injection Ha0 as <-. exists []. rewrite app_nil_r. reflexivity. }
        destruct (type_is (f_type field) "String").
        + repeat ok_inv H. injection H as <-. eexists. rewrite <- (app_assoc _ m1).
          reflexivity.
        + injection H as <-. eexists. reflexivity. }
    destruct Hgrow as (more & ->). apply in_or_app. left. apply in_or_app. right.
    simpl. auto.
  - apply makeFilterParameter_name in Ha. exact Ha.
Qed.

Lemma equality_filters_generated multiple fields result params :
  foldM (filterParametersOfField this_model multiple) fields result = Ok params ->
  forall f,
    In f fields ->
    isForeignKeyField f = false ->
    isIdField f && negb multiple = false ->
    exists p,
      In p params /\
      param_name p = filterName (f_name f) EmptyString /\
      prop "description" p = JStr ("Equality filter for " +++ quoted (f_name f)).
Proof.
  revert result. induction fields as [|g rest IH]; simpl; intros result H f Hin Hfk Hid.
  - contradiction.
  - ok_inv H. destruct Hin as [<-|Hin].
    + destruct (equality_filter_pushed _ _ _ _ Ha Hfk Hid) as (p & Hp & Hn & Hd).
      apply foldM_filter_names in H. destruct H as (more & -> & _).
      exists p. split; [apply in_or_app; auto | auto].
    + eapply IH; eassumption.
Qed.

End FilterId.

Lemma filter_none {A : Type} (P : A -> bool) (l : list A) :
  (forall x, In x l -> P x = false) -> filter P l = [].
Proof.
  induction l as [|x l IH]; simpl; intros H; [reflexivity|].
  rewrite (H x) by auto. apply IH. auto.
Qed.

Lemma filter_both {A : Type} (P Q : A -> bool) (l : list A) :
  filter (fun x => P x && Q x) l = filter P (filter Q l).
Proof.
  induction l as [|x l IH]; simpl; [reflexivity|].
  destruct (Q x); simpl; [|rewrite andb_false_r; exact IH].
  rewrite andb_true_r. destruct (P x); rewrite IH; reflexivity.
Qed.

(** C5, as stated, fails: [Profile] has exactly one identifier field, which
    is also a foreign key, and no parameter named [filter[id]] is generated. *)
Lemma C5_counterexample :
  exists params,
    generateFilterParameters blog Profile = Ok params /\
    List.length (filter isIdField (m_fields Profile)) = 1 /\
    count_named "filter[id]" params = 0.
Proof.
  eexists. repeat split; reflexivity.
Qed.

(** C5 (amended).  For an entity with exactly one identifier field that is
    not a foreign key, and whose other non-foreign-key fields are not named
    [id], exactly one parameter is named [filter[id]].  For an entity with a
    compound identifier, every component field that is not a foreign key has
    its own equality filter [filter[<field>]], and no parameter is named
    [filter[id]] unless a non-foreign-key field is itself named [id]. *)
Theorem C5_filter_id :
  forall (this_model : Model) (model : DataModel) (params : list JSON),
    generateFilterParameters this_model model = Ok params ->
    (forall idField,
        filter isIdField (m_fields model) = [idField] ->
        isForeignKeyField idField = false ->
        (forall f, In f (m_fields model) -> isForeignKeyField f = false ->
                   f_name f = "id" -> isIdField f = true) ->
        count_named "filter[id]" params = 1) /\
    (1 < List.length (filter isIdField (m_fields model)) ->
     (forall f, In f (m_fields model) -> isIdField f = true ->
                isForeignKeyField f = false ->
                exists p,
                  In p params /\
                  param_name p = "filter[" +++ f_name f +++ "]" /\
                  prop "description" p
                    = JStr ("Equality filter for " +++ quoted (f_name f))) /\
     ((forall f, In f (m_fields model) -> isForeignKeyField f = false ->
                 f_name f <> "id") ->
      count_named "filter[id]" params = 0)).
Proof.
  intros this_model model params H. split.
  - intros idField Hid Hfk Hnamed.
    rewrite (count_filter_id _ _ _ H).
    assert (Hmultiple : hasMultipleIds model = false)
      by (unfold hasMultipleIds; rewrite Hid; reflexivity).
    rewrite Hmultiple.
    rewrite (filter_ext_in (yields_filter_id false)
               (fun f => negb (isForeignKeyField f) && isIdField f)).
    + rewrite filter_both, Hid. simpl. rewrite Hfk. reflexivity.
    + intros f Hf. unfold yields_filter_id.
      destruct (isForeignKeyField f) eqn:Ef; [reflexivity|]. simpl.
      rewrite andb_true_r.
      destruct (f_name f =? "id")%string eqn:En; [|apply orb_false_r].
      apply String.eqb_eq in En. rewrite (Hnamed f Hf Ef En). reflexivity.
  - intros Hcompound.
    assert (Hmultiple : hasMultipleIds model = true)
      by (unfold hasMultipleIds; apply Nat.ltb_lt; assumption).
    split.
    + intros f Hf Hid Hfk.
      unfold generateFilterParameters in H. fold (hasMultipleIds model) in H.
      rewrite Hmultiple in H.
      apply (equality_filters_generated _ _ _ _ _ H f Hf Hfk).
      rewrite Hid. reflexivity.
    + intros Hnamed. rewrite (count_filter_id _ _ _ H), Hmultiple.
      rewrite filter_none; [reflexivity|].
      intros f Hf. unfold yields_filter_id.
      destruct (isForeignKeyField f) eqn:Ef; [reflexivity|]. simpl.
      rewrite andb_false_r. simpl. apply String.eqb_neq. auto.
Qed.

(** C5 at work on [User], whose single identifier is named [id]. *)
Lemma C5_filter_id_witness :
  exists params,
    generateFilterParameters blog User = Ok params /\
    count_named "filter[id]" params = 1.
Proof.
  eexists. split; [reflexivity|].
  refine (proj1 (C5_filter_id blog User _ eq_refl) (id_field "id" []) eq_refl eq_refl _).
  simpl. intros f [<-|[<-|[<-|[]]]] _ Hname; try reflexivity; discriminate Hname.
Defined.

(* ================================================================= *)
(** ** Warnings and determinism *)

Section Runs.

Variable this_model : Model.
Variable options : PluginOptions.
Variable analyzePolicies : DataModel -> Policies.
Variable getModelResourceMeta : DataModel -> option ResourceMeta.
Variable lowerCaseFirst : string -> string.
Variable getDataModels : list DataModel.
Variable includedModels : list DataModel.
Variable wrapNullable : JSON -> bool -> JSON.
Variable generateSecuritySchemes : Outcome JSON.
Variable DEFAULT_SPEC_VERSION : string.

Local Abbreviation loop :=
  (generatePaths_loop this_model options analyzePolicies getModelResourceMeta
     lowerCaseFirst includedModels).
Local Abbreviation paths_of dmmf_models :=
  (generatePaths this_model options dmmf_models analyzePolicies getModelResourceMeta
     lowerCaseFirst includedModels).
Local Abbreviation generate_with dmmf_models :=
  (generate this_model options dmmf_models analyzePolicies getModelResourceMeta
     lowerCaseFirst getDataModels includedModels wrapNullable generateSecuritySchemes
     DEFAULT_SPEC_VERSION).

Lemma loop_cons (m : DMMFModel) (rest : list DMMFModel) (result : Obj)
    (warnings : list string) :
  loop (m :: rest) result warnings
    = if mem (dm_name m) (map m_name includedModels) then
        match findZModel this_model (dm_name m) with
        | Some zmodel =>
            match generatePathsForModel this_model options analyzePolicies
                    getModelResourceMeta lowerCaseFirst m zmodel with
            | Ok paths => loop rest (spread result paths) warnings
            | Throw e => (Throw e, warnings)
            end
        | None => loop rest result (warnings ++ [missing_warning (dm_name m)])
        end
      else loop rest result warnings.
Proof. reflexivity. Qed.

(** The paths do not depend on the warnings collected so far, and the
    warnings only grow. *)
Lemma loop_warnings (models : list DMMFModel) (result : Obj) (warnings : list string) :
  fst (loop models result warnings) = fst (loop models result []) /\
  snd (loop models result warnings) = warnings ++ snd (loop models result []).
Proof.
  revert result warnings. induction models as [|m rest IH]; intros result warnings.
  - simpl. rewrite app_nil_r. auto.
  - rewrite !loop_cons.
    destruct (mem (dm_name m) (map m_name includedModels)); [|apply IH].
    destruct (findZModel this_model (dm_name m)) as [zmodel|].
    + destruct (generatePathsForModel _ _ _ _ _ m zmodel) as [paths|e].
      * apply IH.
      * simpl. rewrite app_nil_r. auto.
    + destruct (IH result (warnings ++ [missing_warning (dm_name m)])) as [F S].
      destruct (IH result ([] ++ [missing_warning (dm_name m)])) as [F' S'].
      rewrite F, F', S, S'. split; [reflexivity|].
      rewrite <- !app_assoc. reflexivity.
Qed.

Lemma loop_app (before after : list DMMFModel) (result : Obj) (warnings : list string) :
  loop (before ++ after) result warnings
    = match loop before result warnings with
      | (Ok reached, w) => loop after reached w
      | (Throw e, w) => (Throw e, w)
      end.
Proof.
  revert result warnings. induction before as [|m rest IH]; intros result warnings.
  - reflexivity.
  - rewrite <- app_comm_cons, !loop_cons.
    destruct (mem (dm_name m) (map m_name includedModels)); [|apply IH].
    destruct (findZModel this_model (dm_name m)) as [zmodel|]; [|apply IH].
    destruct (generatePathsForModel _ _ _ _ _ m zmodel) as [paths|e];
      [apply IH | reflexivity].
Qed.

(** The document of a run does not depend on the generator's state. *)
Lemma generate_document (dmmf_models : list DMMFModel) (this this' : Generator) :
  fst (generate_with dmmf_models this) = fst (generate_with dmmf_models this').
Proof.
  unfold generate, generatePaths.
  destruct (o_output options); [|reflexivity].
  destruct (generateComponents _ _ _) as [[schemas parameters]|e]; [|reflexivity].
  assert (F : fst (loop dmmf_models [] (warnings this))
              = fst (loop dmmf_models [] (warnings this'))).
  { destruct (loop_warnings dmmf_models [] (warnings this)) as [F _].
    destruct (loop_warnings dmmf_models [] (warnings this')) as [F' _].
    congruence. }
  destruct (loop dmmf_models [] (warnings this)) as [r w].
  destruct (loop dmmf_models [] (warnings this')) as [r' w'].
  simpl in F. subst r'.
  destruct r as [paths|e]; [|reflexivity].
  destruct generateSecuritySchemes; reflexivity.
Qed.


(** C9.  A DMMF model that is in the included set but matches no data
    model declaration does not abort generation: the paths (or the
    exception raised by another model) are exactly those of the run
    without it, so is the document, and when the loop reaches the model
    its warning is appended to the warnings collected so far. *)
Theorem C9_missing_model_warns :
  forall (before after : list DMMFModel) (m : DMMFModel) (collected : list string)
         (this : Generator),
    mem (dm_name m) (map m_name includedModels) = true ->
    findZModel this_model (dm_name m) = None ->
    fst (paths_of (before ++ m :: after) collected)
      = fst (paths_of (before ++ after) collected) /\
    fst (generate_with (before ++ m :: after) this)
      = fst (generate_with (before ++ after) this) /\
    (forall reached w,
        paths_of before collected = (Ok reached, w) ->
        exists later,
          snd (paths_of (before ++ m :: after) collected)
            = w ++ [missing_warning (dm_name m)] ++ later /\
          snd (paths_of (before ++ after) collected) = w ++ later).
Proof.
  intros before after m collected this Hincluded Hmissing.
  assert (Hstep : forall result w,
             loop (m :: after) result w
             = loop after result (w ++ [missing_warning (dm_name m)])).
  { intros result w. rewrite loop_cons, Hincluded, Hmissing. reflexivity. }
  assert (Hpaths : forall w0,
             fst (paths_of (before ++ m :: after) w0) = fst (paths_of (before ++ after) w0)).
  { intros w0. unfold generatePaths. rewrite !loop_app.
    destruct (loop before [] w0) as [[reached|e] w]; [|reflexivity].
    rewrite Hstep.
    destruct (loop_warnings after reached (w ++ [missing_warning (dm_name m)]))
      as [F _].
    destruct (loop_warnings after reached w) as [F' _]. congruence. }
  split; [apply Hpaths|]. split.
  - unfold generate.
    destruct (o_output options); [|reflexivity].
    destruct (generateComponents _ _ _) as [[schemas parameters]|e]; [|reflexivity].
    specialize (Hpaths (warnings this)).
    destruct (generatePaths _ _ (before ++ m :: after) _ _ _ _ _) as [r w].
    destruct (generatePaths _ _ (before ++ after) _ _ _ _ _) as [r' w'].
    simpl in Hpaths. subst r'.
    destruct r as [paths|e]; [|reflexivity].
    destruct generateSecuritySchemes; reflexivity.
  - intros reached w Hbefore.
    unfold generatePaths in Hbefore |- *.
    rewrite !loop_app, Hbefore, Hstep.
    exists (snd (loop after reached [])). split.
    + destruct (loop_warnings after reached (w ++ [missing_warning (dm_name m)]))
        as [_ S].
      rewrite S, <- app_assoc. reflexivity.
    + destruct (loop_warnings after reached w) as [_ S]. exact S.
Qed.

End Runs.

(** C9 at work: [Ghost] is in the DMMF and in the included set, but the
    ZModel declares no such data model. *)
Lemma C9_missing_model_warns_witness :
  let ghost := {| dm_name := "Ghost" |} in
  let user := {| dm_name := "User" |} in
  let included := [User; {| m_name := "Ghost"; m_fields := [] |}] in
  mem (dm_name ghost) (map m_name included) = true /\
  findZModel blog (dm_name ghost) = None /\
  fst (generatePaths blog no_options [user; ghost] no_policies no_meta
         sample_lowerCaseFirst included [])
    = fst (generatePaths blog no_options [user] no_policies no_meta
             sample_lowerCaseFirst included []) /\
  snd (generatePaths blog no_options [user; ghost] no_policies no_meta
         sample_lowerCaseFirst included [])
    = ["Unable to load ZModel definition for: Ghost}"].
Proof.
  intros ghost user included.
  split; [reflexivity|]. split; [reflexivity|]. split.
  - exact (proj1 (C9_missing_model_warns blog no_options no_policies no_meta
                    sample_lowerCaseFirst [] included sample_wrapNullable (Ok JUndefined)
                    "3.0.0" [user] [] ghost [] {| warnings := [] |} eq_refl eq_refl)).
  - vm_compute. reflexivity.
Defined.

(* ================================================================= *)
(** ** Operation ids *)

Lemma distinct_NoDup (l : list string) : NoDup l -> distinct l = true.
Proof.
  induction 1 as [|x l Hnotin _ IH]; simpl; [reflexivity|].
  rewrite IH, andb_true_r. apply negb_true_iff.
  destruct (mem x l) eqn:E; [|reflexivity].
  unfold mem in E. apply existsb_exists in E. destruct E as (y & Hy & E).
  apply String.eqb_eq in E. subst y. contradiction.
Qed.

Lemma segments_plain (a : string) : without "-" a = true -> segments a = [a].
Proof.
  induction a as [|c a IH]; simpl; [reflexivity|].
  destruct (c =? "-")%char; simpl; [discriminate|].
  intros H. rewrite (IH H). reflexivity.
Qed.

Lemma segments_hyphen (a b : string) :
  without "-" a = true -> segments (a +++ String "-" b) = a :: segments b.
Proof.
  induction a as [|c a IH]; simpl; [reflexivity|].
  destruct (c =? "-")%char; simpl; [discriminate|].
  intros H. rewrite (IH H). reflexivity.
Qed.

(** With hyphen-free names the segments of an operation id spell out its
    kind and its names. *)
Lemma segments_operation_name (kind : OperationKind) (M mapped f : string) :
  without "-" M = true -> without "-" mapped = true -> without "-" f = true ->
  segments (operation_name kind M mapped f) = operation_segments kind M mapped f.
Proof.
  intros HM Hmapped Hf.
  destruct kind; unfold operation_name, operation_segments.
  - change ("list-" +++ M) with ("list" +++ String "-" M).
    rewrite segments_hyphen, segments_plain; auto.
  - change ("create-" +++ M) with ("create" +++ String "-" M).
    rewrite segments_hyphen, segments_plain; auto.
  - change ("fetch-" +++ M) with ("fetch" +++ String "-" M).
    rewrite segments_hyphen, segments_plain; auto.
  - change ("update-" +++ mapped +++ "-put")
      with ("update" +++ String "-" (mapped +++ String "-" "put")).
    rewrite !segments_hyphen; auto.
  - change ("update-" +++ mapped +++ "-patch")
      with ("update" +++ String "-" (mapped +++ String "-" "patch")).
    rewrite !segments_hyphen; auto.
  - change ("delete-" +++ M) with ("delete" +++ String "-" M).
    rewrite segments_hyphen, segments_plain; auto.
  - change ("fetch-" +++ M +++ "-related-" +++ f)
      with ("fetch" +++ String "-" (M +++ String "-" ("related" +++ String "-" f))).
    rewrite !segments_hyphen, segments_plain; auto.
  - change ("fetch-" +++ M +++ "-relationship-" +++ f)
      with ("fetch" +++ String "-" (M +++ String "-" ("relationship" +++ String "-" f))).
    rewrite !segments_hyphen, segments_plain; auto.
  - change ("update-" +++ M +++ "-relationship-" +++ f +++ "-put")
      with ("update" +++ String "-" (M +++ String "-"
              ("relationship" +++ String "-" (f +++ String "-" "put")))).
    rewrite !segments_hyphen; auto.
  - change ("update-" +++ M +++ "-relationship-" +++ f +++ "-patch")
      with ("update" +++ String "-" (M +++ String "-"
              ("relationship" +++ String "-" (f +++ String "-" "patch")))).
    rewrite !segments_hyphen; auto.
  - change ("create-" +++ M +++ "-relationship-" +++ f)
      with ("create" +++ String "-" (M +++ String "-" ("relationship" +++ String "-" f))).
    rewrite !segments_hyphen, segments_plain; auto.
Qed.

(** Two operations of the eleven kinds with the same id go to the same path
    and method. *)
Lemma placed_slot (options : PluginOptions) (lowerCaseFirst : string -> string)
    (path1 method1 path2 method2 : string) (op1 op2 : JSON) :
  placed options lowerCaseFirst path1 method1 op1 ->
  placed options lowerCaseFirst path2 method2 op2 ->
  operation_id op1 = operation_id op2 ->
  path1 = path2 /\ method1 = method2.
Proof.
  intros (k1 & M1 & f1 & HM1 & Hm1 & Hf1 & Hid1 & -> & ->)
         (k2 & M2 & f2 & HM2 & Hm2 & Hf2 & Hid2 & -> & ->) Hsame.
  rewrite Hid1, Hid2 in Hsame.
  apply (f_equal segments) in Hsame.
  rewrite !segments_operation_name in Hsame by assumption.
  destruct k1, k2; simpl in Hsame; try discriminate Hsame;
    injection Hsame as E; subst; simpl; try rewrite E; auto.
Qed.

Lemma In_keys_obj_set (k x : string) (v : JSON) (o : Obj) :
  In x (obj_keys (obj_set k v o)) -> x = k \/ In x (obj_keys o).
Proof.
  induction o as [|[k' v'] o IH]; simpl.
  - intros [<-|[]]. auto.
  - destruct (k' =? k)%string eqn:E; simpl.
    + apply String.eqb_eq in E. subst k'. intros [<-|H]; auto.
    + intros [<-|H]; auto. destruct (IH H); auto.
Qed.

Lemma NoDup_obj_set (k : string) (v : JSON) (o : Obj) :
  NoDup (obj_keys o) -> NoDup (obj_keys (obj_set k v o)).
Proof.
  induction o as [|[k' v'] o IH]; simpl; intros H.
  - constructor; [intros []|constructor].
  - inversion H as [|x l Hnotin Hrest]; subst.
    destruct (k' =? k)%string eqn:E; simpl.
    + apply String.eqb_eq in E. subst k'. constructor; assumption.
    + constructor; [|auto]. intros Hin. apply In_keys_obj_set in Hin.
      destruct Hin as [->|Hin]; [|contradiction].
      rewrite String.eqb_refl in E. discriminate.
Qed.

Lemma In_obj_set (k k' : string) (v v' : JSON) (o : Obj) :
  In (k', v') (obj_set k v o) -> (k' = k /\ v' = v) \/ In (k', v') o.
Proof.
  induction o as [|[k0 v0] o IH]; simpl.
  - intros [E|[]]. injection E as <- <-. auto.
  - destruct (k0 =? k)%string; simpl.
    + intros [E|H]; [injection E as <- <-|]; auto.
    + intros [E|H]; auto. destruct (IH H); auto.
Qed.

Lemma obj_get_In (k : string) (v : JSON) (o : Obj) :
  obj_get k o = Some v -> In (k, v) o.
Proof.
  induction o as [|[k0 v0] o IH]; simpl; [discriminate|].
  destruct (k0 =? k)%string eqn:E.
  - apply String.eqb_eq in E. subst k0. intros H. injection H as <-. auto.
  - auto.
Qed.

Section Placement.

Variable options : PluginOptions.
Variable lowerCaseFirst : string -> string.

Local Abbreviation placed := (placed options lowerCaseFirst).
Local Abbreviation item_placed := (item_placed options lowerCaseFirst).
Local Abbreviation paths_placed := (paths_placed options lowerCaseFirst).

Lemma item_placed_empty (path : string) : item_placed path [].
Proof. split; [constructor | intros method op []]. Qed.

Lemma item_placed_set (path method : string) (op : JSON) (item : Obj) :
  item_placed path item -> placed path method op ->
  item_placed path (obj_set method op item).
Proof.
  intros [Hkeys Hops] Hop. split; [apply NoDup_obj_set; assumption|].
  intros method' op' Hin. apply In_obj_set in Hin.
  destruct Hin as [[-> ->]|Hin]; auto.
Qed.

Lemma paths_placed_empty : paths_placed [].
Proof. split; [constructor | intros path item []]. Qed.

Lemma paths_placed_set (path : string) (item result : Obj) :
  paths_placed result -> item_placed path item ->
  paths_placed (obj_set path (JObj item) result).
Proof.
  intros [Hkeys Hitems] Hitem. split; [apply NoDup_obj_set; assumption|].
  intros path' item' Hin. apply In_obj_set in Hin.
  destruct Hin as [[-> ->]|Hin]; [exists item; auto | auto].
Qed.

Lemma container_at_placed (path : string) (result : Obj) :
  paths_placed result -> item_placed path (container_at path result).
Proof.
  intros [_ Hitems]. unfold container_at.
  destruct (obj_get path result) as [v|] eqn:E; [|apply item_placed_empty].
  apply obj_get_In in E. destruct (Hitems _ _ E) as (c & -> & Hc). exact Hc.
Qed.

Lemma paths_placed_spread (result paths : Obj) :
  paths_placed result -> paths_placed paths -> paths_placed (spread result paths).
Proof.
  intros Hresult [_ Hitems]. unfold spread.
  revert result Hresult. induction paths as [|[path item] rest IH]; simpl; intros result Hresult.
  - exact Hresult.
  - destruct (Hitems path item (or_introl eq_refl)) as (c & -> & Hc).
    apply IH; [intros p i Hin; apply Hitems; right; exact Hin|].
    apply paths_placed_set; assumption.
Qed.

(** Under the placement invariant no two operations share an id. *)
Lemma paths_placed_distinct (paths : Obj) :
  paths_placed paths -> NoDup (operationIds paths).
Proof.
  intros [Hkeys Hitems].
  assert (Hslots : NoDup (map slot (operations paths))).
  { revert Hkeys Hitems.
    induction paths as [|[path item] rest IH]; simpl; intros Hkeys Hitems;
      [constructor|].
    inversion Hkeys as [|x l Hnotin Hrest]; subst.
    unfold operations. simpl. rewrite map_app. apply NoDup_app.
    - destruct (Hitems path item (or_introl eq_refl)) as (c & -> & [Hc _]). simpl.
      rewrite map_map. unfold slot. simpl.
      clear - Hc. induction c as [|[m o] c IHc]; simpl; [constructor|].
      inversion Hc as [|x l Hn Hr]; subst. constructor; [|auto].
      intros Hin. apply in_map_iff in Hin. destruct Hin as ([m' o'] & E & Hin).
      simpl in E. injection E as <-. apply Hn. apply in_map_iff.
      exists (m', o'). auto.
    - apply IH; [assumption | intros p i Hin; apply Hitems; right; exact Hin].
    - intros [p m] Hin1 Hin2.
      apply in_map_iff in Hin1. destruct Hin1 as (o1 & E1 & Hin1).
      apply in_map_iff in Hin1. destruct Hin1 as ([m1 op1] & <- & _).
      unfold slot in E1. simpl in E1. injection E1 as <- <-.
      apply in_map_iff in Hin2. destruct Hin2 as (o2 & E2 & Hin2).
      apply in_flat_map in Hin2. destruct Hin2 as ([p2 i2] & Hin2 & Hin3).
      apply in_map_iff in Hin3. destruct Hin3 as ([m2 op2] & <- & _).
      unfold slot in E2. simpl in E2. injection E2 as -> _.
      apply Hnotin. apply in_map_iff. exists (path, i2). auto. }
  unfold operationIds.
  assert (Hplaced : forall o, In o (operations paths) ->
                      placed (fst (slot o)) (snd (slot o)) (snd o)).
  { intros [[p m] op] Hin. unfold operations in Hin.
    apply in_flat_map in Hin. destruct Hin as ([p' item] & Hin & Hop).
    destruct (Hitems _ _ Hin) as (c & -> & [_ Hc]).
    apply in_map_iff in Hop. destruct Hop as ([m' op'] & E & Hop).
    simpl in E. injection E as <- <- <-. simpl. apply Hc. exact Hop. }
  revert Hslots Hplaced. generalize (operations paths) as ops.
  induction ops as [|o ops IH]; simpl; intros Hslots Hplaced; [constructor|].
  inversion Hslots as [|x l Hnotin Hrest]; subst.
  constructor; [|apply IH; auto].
  intros Hin. apply in_map_iff in Hin. destruct Hin as (o' & E & Hin).
  apply Hnotin. apply in_map_iff. exists o'. split; [|assumption].
  destruct (placed_slot options lowerCaseFirst _ _ _ _ _ _
              (Hplaced o' (or_intror Hin)) (Hplaced o (or_introl eq_refl)) E) as [E1 E2].
  destruct (slot o') as [p' m'], (slot o) as [p m]. simpl in E1, E2. congruence.
Qed.

End Placement.

Section ModelPlacement.

Variable this_model : Model.
Variable options : PluginOptions.
Variable analyzePolicies : DataModel -> Policies.
Variable getModelResourceMeta : DataModel -> option ResourceMeta.
Variable lowerCaseFirst : string -> string.

Variables (model : DMMFModel) (zmodel : DataModel).
Hypothesis same_name : m_name zmodel = dm_name model.
Hypothesis plain_name : without "-" (dm_name model) = true.
Hypothesis plain_mapped : without "-" (mapModelName options (dm_name model)) = true.

Local Abbreviation placed := (placed options lowerCaseFirst).
Local Abbreviation item_placed := (item_placed options lowerCaseFirst).
Local Abbreviation paths_placed := (paths_placed options lowerCaseFirst).
Local Abbreviation resource := (lowerCaseFirst (mapModelName options (dm_name model))).

(** An operation with the id, the path and the method of its kind. *)
Lemma placed_kind (kind : OperationKind) (f : string) (op : JSON) :
  without "-" f = true ->
  operation_id op
    = operation_name kind (m_name zmodel) (mapModelName options (dm_name model)) f ->
  placed (operation_path (url_prefix options) kind resource f) (operation_method kind) op.
Proof.
  intros Hf Hid. exists kind, (dm_name model), f.
  rewrite <- same_name at 3. auto 10.
Qed.

Lemma pathsOfField_placed (policies : Policies) (resourceMeta : option ResourceMeta)
    (result result' : Obj) (g : DataModelField) :
  without "-" (f_name g) = true ->
  paths_placed result ->
  pathsOfField this_model analyzePolicies lowerCaseFirst (url_prefix options)
    (mapModelName options (dm_name model)) model zmodel policies resourceMeta result g
    = Ok result' ->
  paths_placed result'.
Proof.
  intros Hg Hresult H.
  destruct (isRelationshipField this_model g) eqn:Hrel.
  2: { rewrite round_skip in H by assumption. injection H as <-. assumption. }
  unfold isRelationshipField in Hrel.
  destruct (ref_decl this_model (f_type g)) as [[rd|e|t|n]|] eqn:Hrd; try discriminate.
  rewrite (round_relation _ _ _ _ _ _ _ _ _ result g rd Hrd) in H.
  ok_inv H. cbv zeta in H. ok_inv H. injection H as <-.
  assert (Hrelated : placed (relatedDataPath (url_prefix options) resource (f_name g))
                       "get" a).
  { apply (placed_kind OpRelated (f_name g) a Hg).
    unfold makeRelatedFetch in Ha. ok_inv Ha. injection Ha as <-. reflexivity. }
  assert (Hfetch : placed (relationshipPath (url_prefix options) resource (f_name g))
                     "get" a0).
  { apply (placed_kind OpRelationshipFetch (f_name g) a0 Hg).
    unfold makeRelationshipFetch in Ha0. ok_inv Ha0. injection Ha0 as <-. reflexivity. }
  assert (Hresult1 :
    paths_placed
      (obj_set (relatedDataPath (url_prefix options) resource (f_name g))
         (JObj (obj_set "get" a
                  (container_at (relatedDataPath (url_prefix options) resource (f_name g))
                     result))) result)).
  { apply paths_placed_set; [assumption|].
    apply item_placed_set; [apply container_at_placed; assumption | assumption]. }
  apply paths_placed_set; [assumption|].
  assert (Hcontainer :
    item_placed (relationshipPath (url_prefix options) resource (f_name g))
      (obj_set "patch"
         (makeRelationshipUpdate lowerCaseFirst zmodel g policies
            ("update-" +++ dm_name model +++ "-relationship-" +++ f_name g +++ "-patch")
            resourceMeta)
         (obj_set "put"
            (makeRelationshipUpdate lowerCaseFirst zmodel g policies
               ("update-" +++ dm_name model +++ "-relationship-" +++ f_name g +++ "-put")
               resourceMeta)
            (obj_set "get" a0
               (container_at (relationshipPath (url_prefix options) resource (f_name g))
                  (obj_set (relatedDataPath (url_prefix options) resource (f_name g))
                     (JObj (obj_set "get" a
                              (container_at
                                 (relatedDataPath (url_prefix options) resource (f_name g))
                                 result))) result)))))).
  { apply item_placed_set; [apply item_placed_set; [apply item_placed_set|]|].
    - apply container_at_placed. assumption.
    - assumption.
    - apply (placed_kind OpRelationshipPut (f_name g) _ Hg).
      rewrite same_name. reflexivity.
    - apply (placed_kind OpRelationshipPatch (f_name g) _ Hg).
      rewrite same_name. reflexivity. }
  destruct (t_array (f_type g)); [|assumption].
  apply item_placed_set; [assumption|].
  apply (placed_kind OpRelationshipCreate (f_name g) _ Hg). reflexivity.
Qed.

Lemma generatePathsForModel_placed (paths : Obj) :
  (forall f, In f (m_fields zmodel) -> without "-" (f_name f) = true) ->
  generatePathsForModel this_model options analyzePolicies getModelResourceMeta
    lowerCaseFirst model zmodel = Ok paths ->
  paths_placed paths.
Proof.
  intros Hfields H. unfold generatePathsForModel in H. ok_inv H.
  assert (Hlist : operation_id a = "list-" +++ m_name zmodel).
  { unfold makeResourceList in Ha. ok_inv Ha. injection Ha as <-. reflexivity. }
  revert H.
  match goal with
  | |- foldM _ _ ?start = _ -> _ => assert (Hstart : paths_placed start)
  end.
  { apply paths_placed_set; [apply paths_placed_set; [apply paths_placed_empty|]|].
    - apply (item_placed_set options lowerCaseFirst _ "post" _ [("get", a)]).
      + apply (item_placed_set options lowerCaseFirst _ "get" _ []);
          [apply item_placed_empty|].
        apply (placed_kind OpList EmptyString a eq_refl Hlist).
      + apply (placed_kind OpCreate EmptyString _ eq_refl). reflexivity.
    - apply (item_placed_set options lowerCaseFirst _ "delete" _
               [("get", _); ("put", _); ("patch", _)]).
      + apply (item_placed_set options lowerCaseFirst _ "patch" _ [("get", _); ("put", _)]).
        * apply (item_placed_set options lowerCaseFirst _ "put" _ [("get", _)]).
          -- apply (item_placed_set options lowerCaseFirst _ "get" _ []);
               [apply item_placed_empty|].
             apply (placed_kind OpFetch EmptyString _ eq_refl). reflexivity.
          -- apply (placed_kind OpUpdatePut EmptyString _ eq_refl). reflexivity.
        * apply (placed_kind OpUpdatePatch EmptyString _ eq_refl). reflexivity.
      + apply (placed_kind OpDelete EmptyString _ eq_refl). reflexivity. }
  revert Hstart.
  match goal with
  | |- paths_placed ?start -> _ => generalize start
  end.
  induction (m_fields zmodel) as [|g rest IH]; simpl; intros result Hresult H.
  - injection H as <-. assumption.
  - ok_inv H. apply (IH (fun f Hf => Hfields f (or_intror Hf)) a0); [|assumption].
    eapply pathsOfField_placed; [apply Hfields; left; reflexivity | eassumption | eassumption].
Qed.

End ModelPlacement.

Lemma findZModel_found (this_model : Model) (name : string) (zmodel : DataModel) :
  findZModel this_model name = Some zmodel ->
  m_name zmodel = name /\ In (DeclDataModel zmodel) (declarations this_model).
Proof.
  unfold findZModel.
  destruct (find _ (declarations this_model)) as [[m|e|t|n]|] eqn:E; try discriminate.
  intros H. injection H as <-. apply find_some in E. destruct E as [Hin Hname].
  simpl in Hname. apply String.eqb_eq in Hname. auto.
Qed.




(* ================================================================= *)
(** ** The pruning pass *)

Lemma mem_In (x : string) (l : list string) : mem x l = true <-> In x l.
Proof.
  unfold mem. rewrite existsb_exists. split.
  - intros (y & Hy & E). apply String.eqb_eq in E. subst y. assumption.
  - intros H. exists x. split; [assumption | apply String.eqb_refl].
Qed.

Section Pruning.

Variable schemas : Obj.

Local Abbreviation referenced hit :=
  (flat_map (fun kv : string * JSON => usedComponents (snd kv)) hit).

(** The names collected by [reachable] contain the names it starts from and
    are closed under the references of the components, once every component
    outside [pending] has had its references collected. *)
Lemma reachable_closed (fuel : nat) (pending : Obj) (used : list string) :
  List.length pending <= fuel ->
  (forall kv, In kv schemas ->
              In kv pending \/
              (forall n, In n (usedComponents (snd kv)) -> In n used)) ->
  (forall n, In n used -> In n (reachable fuel pending used)) /\
  closed_under schemas (fun n => In n (reachable fuel pending used)).
Proof.
  revert pending used. induction fuel as [|fuel IH]; intros pending used Hfuel Hdone.
  - simpl. split; [auto|]. intros k v n Hin _ Hn.
    destruct (Hdone (k, v) Hin) as [Hpending|Hrefs]; [|auto].
    destruct pending; [contradiction | simpl in Hfuel; lia].
  - simpl. rewrite partition_as_filter.
    destruct (filter (fun kv => mem (fst kv) used) pending) as [|h hit] eqn:Hhit.
    + split; [auto|]. intros k v n Hin Hk Hn.
      destruct (Hdone (k, v) Hin) as [Hpending|Hrefs]; [|auto].
      assert (Hfiltered : In (k, v) (filter (fun kv => mem (fst kv) used) pending)).
      { apply filter_In. split; [assumption|]. apply mem_In. assumption. }
      rewrite Hhit in Hfiltered. contradiction.
    + rewrite <- Hhit.
      destruct (IH (filter (fun kv => negb (mem (fst kv) used)) pending)
                   (used ++ referenced (filter (fun kv => mem (fst kv) used) pending)))
        as [Hused Hclosed].
      * pose proof (filter_length (fun kv => mem (fst kv) used) pending) as Hlen.
        rewrite Hhit in Hlen. simpl in Hlen. lia.
      * intros kv Hin. destruct (Hdone kv Hin) as [Hpending|Hrefs].
        -- destruct (mem (fst kv) used) eqn:Hk.
           ++ right. intros n Hn. apply in_or_app. right.
              apply in_flat_map. exists kv. split; [|assumption].
              apply filter_In. auto.
           ++ left. apply filter_In. rewrite Hk. auto.
        -- right. intros n Hn. apply in_or_app. left. auto.
      * split; [|assumption].
        intros n Hn. apply Hused. apply in_or_app. left. assumption.
Qed.

(** They are contained in every set with these two properties. *)
Lemma reachable_least (S : string -> Prop) (fuel : nat) (pending : Obj)
    (used : list string) :
  closed_under schemas S ->
  (forall kv, In kv pending -> In kv schemas) ->
  (forall n, In n used -> S n) ->
  forall n, In n (reachable fuel pending used) -> S n.
Proof.
  intros Hclosed. revert pending used.
  induction fuel as [|fuel IH]; intros pending used Hpending Hused; simpl; [auto|].
  rewrite partition_as_filter.
  destruct (filter (fun kv => mem (fst kv) used) pending) as [|h hit] eqn:Hhit; [auto|].
  rewrite <- Hhit. apply IH.
  - intros kv Hin. apply filter_In in Hin. apply Hpending. tauto.
  - intros n Hn. apply in_app_or in Hn. destruct Hn as [Hn|Hn]; [auto|].
    apply in_flat_map in Hn. destruct Hn as ([k v] & Hin & Hn).
    apply filter_In in Hin. destruct Hin as [Hin Hk]. simpl in Hk, Hn.
    apply (Hclosed k v n); [apply Hpending; assumption | | assumption].
    apply Hused. apply mem_In. assumption.
Qed.

End Pruning.

(** [allUsed] computes the reachable component names. *)
Lemma allUsed_Reachable (paths schemas : Obj) (n : string) :
  In n (allUsed paths schemas) <-> Reachable paths schemas n.
Proof.
  unfold allUsed. split.
  - apply (reachable_least schemas (Reachable paths schemas)).
    + intros k v m Hin Hk Hm. eapply reachable_from_schema; eassumption.
    + auto.
    + intros m Hm. apply reachable_from_path. assumption.
  - destruct (reachable_closed schemas (List.length schemas) schemas
                (usedComponents (JObj paths)) (le_n _) (fun kv H => or_introl H))
      as [Hroots Hclosed].
    induction 1 as [m Hm|k m v _ IH Hin Hm]; [auto|].
    apply (Hclosed k v m); assumption.
Qed.

Lemma pruneComponents_In (paths schemas : Obj) (k : string) (v : JSON) :
  In (k, v) (pruneComponents paths schemas) <->
  In (k, v) schemas /\ Reachable paths schemas k.
Proof.
  unfold pruneComponents. rewrite filter_In. simpl.
  rewrite mem_In, allUsed_Reachable. reflexivity.
Qed.

(** What is reachable through all components is reachable through the
    retained ones, and conversely. *)
Lemma Reachable_pruned (paths schemas : Obj) (n : string) :
  Reachable paths schemas n <-> Reachable paths (pruneComponents paths schemas) n.
Proof.
  split.
  - induction 1 as [m Hm|k m v Hk IH Hin Hm]; [apply reachable_from_path; assumption|].
    apply (reachable_from_schema _ _ k m v); [assumption | | assumption].
    apply pruneComponents_In. auto.
  - induction 1 as [m Hm|k m v Hk IH Hin Hm]; [apply reachable_from_path; assumption|].
    apply (reachable_from_schema _ _ k m v); [assumption | | assumption].
    apply pruneComponents_In in Hin. tauto.
Qed.

Lemma filter_all {A : Type} (P : A -> bool) (l : list A) :
  (forall x, In x l -> P x = true) -> filter P l = l.
Proof.
  induction l as [|x l IH]; simpl; intros H; [reflexivity|].
  rewrite (H x) by auto. f_equal. apply IH. auto.
Qed.

Lemma pruneComponents_idempotent (paths schemas : Obj) :
  pruneComponents paths (pruneComponents paths schemas) = pruneComponents paths schemas.
Proof.
  unfold pruneComponents at 1. apply filter_all.
  intros [k v] Hin. simpl. apply mem_In. apply allUsed_Reachable.
  apply (proj1 (Reachable_pruned paths schemas k)).
  apply pruneComponents_In in Hin. tauto.
Qed.

(** The pruning pass on its own: no orphan survives, nothing that the
    paths reach is lost, and a second pass changes nothing. *)
Lemma pruneComponents_spec (paths schemas : Obj) :
  let pruned := pruneComponents paths schemas in
  (forall n, In n (obj_keys pruned) -> Reachable paths pruned n) /\
  (forall n, Reachable paths pruned n -> In n (obj_keys schemas) ->
             In n (obj_keys pruned)) /\
  pruneComponents paths pruned = pruned.
Proof.
  intros pruned. split; [|split].
  - intros n Hn. apply in_map_iff in Hn. destruct Hn as ([k v] & <- & Hin).
    apply (proj1 (Reachable_pruned paths schemas k)).
    apply pruneComponents_In in Hin. tauto.
  - intros n Hn Hkey. apply in_map_iff in Hkey. destruct Hkey as ([k v] & <- & Hin).
    apply in_map_iff. exists (k, v). split; [reflexivity|].
    apply pruneComponents_In. split; [assumption|].
    apply (proj2 (Reachable_pruned paths schemas k)). assumption.
  - apply pruneComponents_idempotent.
Qed.

(* ================================================================= *)
(** ** References of the generated values *)

Lemma used_obj_nil : usedComponents (JObj []) = [].
Proof. reflexivity. Qed.

Lemma used_obj_cons (k : string) (v : JSON) (o : Obj) :
  usedComponents (JObj ((k, v) :: o))
    = usedComponents (JObj [(k, v)]) ++ usedComponents (JObj o).
Proof.
  unfold usedComponents. simpl. rewrite app_nil_r. apply flat_map_app.
Qed.

Lemma used_arr_nil : usedComponents (JArr []) = [].
Proof. reflexivity. Qed.

Lemma used_arr_cons (x : JSON) (l : list JSON) :
  usedComponents (JArr (x :: l)) = usedComponents x ++ usedComponents (JArr l).
Proof. unfold usedComponents. simpl. apply flat_map_app. Qed.

Lemma used_prop_string (k s : string) :
  usedComponents (JObj [(k, JStr s)])
    = if (k =? "$ref")%string
      then match schemaName s with Some n => [n] | None => [] end
      else [].
Proof.
  unfold usedComponents. simpl. destruct (k =? "$ref")%string; simpl;
    rewrite ?app_nil_r; reflexivity.
Qed.

(** Under any key but [$ref] a property references what its value does. *)
Lemma used_prop_plain (k : string) (v : JSON) :
  (k =? "$ref")%string = false ->
  usedComponents (JObj [(k, v)]) = usedComponents v.
Proof.
  intros Hk. destruct v; try reflexivity.
  - rewrite used_prop_string, Hk. reflexivity.
  - unfold usedComponents. simpl. rewrite app_nil_r. reflexivity.
  - unfold usedComponents. simpl. rewrite app_nil_r. reflexivity.
Qed.

(** Under any key a property references no more than its value, unless
    the value is a string. *)
Lemma used_prop_object (k : string) (o : Obj) :
  usedComponents (JObj [(k, JObj o)]) = usedComponents (JObj o).
Proof. unfold usedComponents. simpl. rewrite app_nil_r. reflexivity. Qed.

Lemma used_ref (name : string) : usedComponents (ref name) = [name].
Proof. reflexivity. Qed.

Lemma used_parameter (name : string) : usedComponents (parameter name) = [].
Proof. reflexivity. Qed.

Lemma used_value_of_prop (k : string) (v : JSON) :
  incl (usedComponents v) (usedComponents (JObj [(k, v)])).
Proof.
  destruct v; try apply incl_nil_l.
  - unfold usedComponents. simpl. rewrite app_nil_r. apply incl_refl.
  - unfold usedComponents. simpl. rewrite app_nil_r. apply incl_refl.
Qed.

Lemma used_obj_In (o : Obj) (n : string) :
  In n (usedComponents (JObj o)) <->
  exists k v, In (k, v) o /\ In n (usedComponents (JObj [(k, v)])).
Proof.
  induction o as [|[k v] o IH].
  - simpl. split; [intros [] | intros (k & v & [] & _)].
  - rewrite used_obj_cons, in_app_iff, IH. split.
    + intros [H|(k' & v' & Hin & H)].
      * exists k, v. simpl. auto.
      * exists k', v'. simpl. auto.
    + intros (k' & v' & [E|Hin] & H).
      * injection E as <- <-. auto.
      * right. exists k', v'. auto.
Qed.

Lemma used_arr_In (l : list JSON) (n : string) :
  In n (usedComponents (JArr l)) <-> exists x, In x l /\ In n (usedComponents x).
Proof.
  induction l as [|x l IH].
  - simpl. split; [intros [] | intros (x & [] & _)].
  - rewrite used_arr_cons, in_app_iff, IH. split.
    + intros [H|(y & Hin & H)]; [exists x | exists y]; simpl; auto.
    + intros (y & [<-|Hin] & H); [auto | right; exists y; auto].
Qed.

Section Within.

Variable names : list string.

Lemma within_obj (o : Obj) :
  within names (JObj o) <-> forall k v, In (k, v) o -> within names (JObj [(k, v)]).
Proof.
  unfold within, incl. split.
  - intros H k v Hin n Hn. apply H. apply used_obj_In. exists k, v. auto.
  - intros H n Hn. apply used_obj_In in Hn. destruct Hn as (k & v & Hin & Hn).
    apply (H k v Hin). assumption.
Qed.

Lemma within_arr (l : list JSON) :
  within names (JArr l) <-> forall x, In x l -> within names x.
Proof.
  unfold within, incl. split.
  - intros H x Hin n Hn. apply H. apply used_arr_In. exists x. auto.
  - intros H n Hn. apply used_arr_In in Hn. destruct Hn as (x & Hin & Hn).
    apply (H x Hin). assumption.
Qed.

Lemma within_set (k : string) (v : JSON) (o : Obj) :
  within names (JObj o) -> within names (JObj [(k, v)]) ->
  within names (JObj (obj_set k v o)).
Proof.
  rewrite !within_obj. intros Ho Hv k' v' Hin. apply In_obj_set in Hin.
  destruct Hin as [[-> ->]|Hin]; [apply Hv; simpl; auto | auto].
Qed.

Lemma within_spread (a b : Obj) :
  within names (JObj a) -> within names (JObj b) -> within names (JObj (spread a b)).
Proof.
  unfold spread. revert a. induction b as [|[k v] b IH]; simpl; intros a Ha Hb; [assumption|].
  apply IH.
  - apply within_set; [assumption|]. rewrite within_obj in Hb. apply Hb. simpl. auto.
  - rewrite within_obj in Hb |- *. intros k' v' Hin. apply Hb. simpl. auto.
Qed.

Lemma within_container (path : string) (result : Obj) :
  within names (JObj result) -> within names (JObj (container_at path result)).
Proof.
  intros H. unfold container_at.
  destruct (obj_get path result) as [[| | | | |c]|] eqn:E;
    try (unfold within; rewrite used_obj_nil; apply incl_nil_l).
  apply obj_get_In in E. rewrite within_obj in H. specialize (H _ _ E).
  unfold within in *. rewrite used_prop_object in H. assumption.
Qed.

Lemma within_value (k : string) (v : JSON) (o : Obj) :
  within names (JObj o) -> In (k, v) o -> within names v.
Proof.
  intros H Hin. rewrite within_obj in H. specialize (H k v Hin).
  unfold within in *. intros n Hn. apply H. apply (used_value_of_prop k). assumption.
Qed.

End Within.

Section Closure.

Variable this_model : Model.
Variable getDataModels : list DataModel.

Local Abbreviation names := (component_names this_model getDataModels).
Local Abbreviation generated := (within (component_names this_model getDataModels)).

Lemma shared_name (n : string) : In n shared_names -> In n names.
Proof. intros H. unfold component_names. apply in_or_app. auto. Qed.

Lemma model_name (m : DataModel) (n : string) :
  In m getDataModels -> In n (model_components (m_name m)) -> In n names.
Proof.
  intros Hm Hn. unfold component_names.
  apply in_or_app. right. apply in_or_app. right. apply in_or_app. left.
  apply in_flat_map. exists m. auto.
Qed.

Lemma resolve_declared (r : option string) (d : Declaration) :
  resolve this_model r = Some d ->
  In d (declarations this_model) /\ is_type_decl d = true.
Proof.
  unfold resolve. destruct r as [n|]; [|discriminate].
  intros H. apply find_some in H. destruct H as [Hin H].
  apply andb_true_iff in H. tauto.
Qed.

(** The name of the declaration a type refers to is the name of a
    component. *)
Lemma decl_name_generated (r : option string) (d : Declaration) :
  resolve this_model r = Some d ->
  (forall m, d = DeclDataModel m -> In m getDataModels) ->
  In (decl_name d) names.
Proof.
  intros Hd Hgenerated. pose proof (resolve_declared _ _ Hd) as [Hin Htype].
  destruct d as [m|e|td|n]; cbn [decl_name]; [| | |discriminate Htype].
  - apply (model_name m); [auto | simpl; auto].
  - unfold component_names. apply in_or_app. right. apply in_or_app. left.
    apply in_map. unfold declared_enums. apply in_flat_map.
    exists (DeclEnum e). simpl. auto.
  - unfold component_names. do 3 (apply in_or_app; right).
    apply in_map. unfold declared_typeDefs. apply in_flat_map.
    exists (DeclTypeDef td). simpl. auto.
Qed.

Lemma generated_plain (v : JSON) : usedComponents v = [] -> generated v.
Proof. unfold within. intros ->. apply incl_nil_l. Qed.

Lemma generated_strings (l : list string) : generated (strings l).
Proof.
  apply within_arr. intros x Hx. apply in_map_iff in Hx. destruct Hx as (s & <- & _).
  apply generated_plain. reflexivity.
Qed.

Lemma generated_ref (c : string) : In c names -> generated (ref c).
Proof. intros H n [<-|[]]. assumption. Qed.

Lemma generated_prop (k : string) (v : JSON) :
  (k =? "$ref")%string = false -> generated v -> generated (JObj [(k, v)]).
Proof. intros Hk Hv. unfold within. rewrite used_prop_plain; assumption. Qed.

Lemma generated_nil : generated (JObj []).
Proof. apply generated_plain. reflexivity. Qed.

Lemma generated_cons (k : string) (v : JSON) (o : Obj) :
  generated (JObj [(k, v)]) -> generated (JObj o) -> generated (JObj ((k, v) :: o)).
Proof.
  unfold within. intros Hv Ho. rewrite used_obj_cons. apply incl_app; assumption.
Qed.

Lemma generated_elements_nil : generated (JArr []).
Proof. apply generated_plain. reflexivity. Qed.

Lemma generated_elements_cons (x : JSON) (l : list JSON) :
  generated x -> generated (JArr l) -> generated (JArr (x :: l)).
Proof.
  unfold within. intros Hx Hl. rewrite used_arr_cons. apply incl_app; assumption.
Qed.

(** Splits [generated (JObj [...])] for a literal object into one goal per
    property value, and [generated (JArr [...])] into one per element. *)
Ltac properties :=
  lazymatch goal with
  | |- within _ (JObj (_ :: _)) =>
      apply generated_cons; [apply generated_prop; [reflexivity|] | properties]
  | |- within _ (JObj []) => apply generated_nil
  end.

Ltac elements :=
  lazymatch goal with
  | |- within _ (JArr (_ :: _)) => apply generated_elements_cons; [ | elements]
  | |- within _ (JArr []) => apply generated_elements_nil
  end.

Lemma generated_success (c : string) : In c names -> generated (success (Some c)).
Proof.
  intros H. unfold success. properties.
  - apply generated_plain. reflexivity.
  - match goal with
    | |- context [if ?b then _ else _] => destruct b
    end; [|apply generated_plain; reflexivity].
    properties. properties. apply generated_ref. assumption.
Qed.

Lemma generated_success_empty : generated (success None).
Proof. apply generated_plain. reflexivity. Qed.

Lemma generated_error_content : generated error_content.
Proof.
  unfold error_content. properties. properties. apply generated_ref.
  apply shared_name. simpl. auto 10.
Qed.

Lemma generated_forbidden : generated forbidden.
Proof.
  unfold forbidden. properties;
    [apply generated_plain; reflexivity | apply generated_error_content].
Qed.

Lemma generated_notFound : generated notFound.
Proof.
  unfold notFound. properties;
    [apply generated_plain; reflexivity | apply generated_error_content].
Qed.

Lemma generated_validationError : generated validationError.
Proof.
  unfold validationError. properties;
    [apply generated_plain; reflexivity | apply generated_error_content].
Qed.

Lemma generated_request_body (c : string) : In c names -> generated (request_body c).
Proof.
  intros H. unfold request_body. properties. properties. properties.
  apply generated_ref. assumption.
Qed.

Lemma generated_security (resourceMeta : option ResourceMeta) (policy : option bool) :
  generated (security_expr resourceMeta policy).
Proof.
  rewrite security_expr_open. unfold security_open.
  destruct (has_override resourceMeta || analyzer_true policy);
    apply generated_plain; reflexivity.
Qed.

Lemma generated_parameter (p : string) : generated (parameter p).
Proof. apply generated_plain. reflexivity. Qed.

(** The schema of a field type references at most the declaration the
    type refers to. *)
Lemma generated_fieldType (t : FieldType) (schema : JSON) :
  fieldTypeToOpenAPISchema this_model t = Ok schema ->
  refers_to_generated this_model getDataModels t ->
  generated schema /\ exists o, schema = JObj o.
Proof.
  unfold fieldTypeToOpenAPISchema. intros H Hgenerated.
  repeat match type of H with
         | (if ?c then _ else _) = _ =>
             destruct c;
             [injection H as <-; split;
              [apply generated_plain; reflexivity | eexists; reflexivity] | ]
         end.
  destruct (ref_decl this_model t) as [d|] eqn:Hd; [|discriminate].
  injection H as <-. split; [|eexists; reflexivity].
  apply generated_ref. apply (decl_name_generated _ _ Hd).
  intros m ->. apply Hgenerated. assumption.
Qed.

Lemma generated_array (schema : JSON) (isArray : bool) :
  generated schema -> generated (wrapArray schema isArray).
Proof.
  intros H. destruct isArray; [|assumption].
  unfold wrapArray, array. properties; [apply generated_plain; reflexivity | assumption].
Qed.

Lemma generated_filter field name description isArray schemaOverride p :
  makeFilterParameter this_model field name description isArray schemaOverride = Ok p ->
  (forall s, schemaOverride = Some s -> generated s) ->
  generated p.
Proof.
  unfold makeFilterParameter. intros H Hoverride. ok_inv H. injection H as <-.
  assert (Hschema : generated a).
  { destruct schemaOverride as [s|]; [injection Ha as <-; auto|].
    destruct (ref_decl this_model (f_type field)) as [[m|e|td|n]|] eqn:Hd.
    - injection Ha as <-. apply generated_plain. reflexivity.
    - injection Ha as <-. apply generated_ref.
      apply (decl_name_generated _ (DeclEnum e) Hd). discriminate.
    - simpl in Ha. injection Ha as <-. apply generated_plain. reflexivity.
    - destruct (isTypeDef (Some (DeclOther n)) || type_is (f_type field) "Json");
        [injection Ha as <-; apply generated_plain; reflexivity|].
      ok_inv Ha. apply generated_fieldType in Ha; [tauto|].
      intros m Hm. unfold ref_decl in Hm at 1. fold (ref_decl this_model (f_type field)) in Hm.
      congruence.
    - destruct (isTypeDef None || type_is (f_type field) "Json");
        [injection Ha as <-; apply generated_plain; reflexivity|].
      ok_inv Ha. apply generated_fieldType in Ha; [tauto|].
      intros m Hm. unfold ref_decl in Hm at 1. fold (ref_decl this_model (f_type field)) in Hm.
      congruence. }
  properties; try (apply generated_plain; reflexivity).
  apply generated_array. assumption.
Qed.

Lemma filterParametersOfField_generated multiple result field result' :
  filterParametersOfField this_model multiple result field = Ok result' ->
  Forall generated result -> Forall generated result'.
Proof.
  unfold filterParametersOfField. intros H Hresult.
  assert (Hpushed : forall name description isArray schemaOverride p,
             makeFilterParameter this_model field name description isArray schemaOverride
               = Ok p ->
             schemaOverride = None \/
             schemaOverride = Some (JObj [("type", JStr "boolean")]) ->
             generated p).
  { intros name description isArray schemaOverride p Hp Hoverride.
    apply (generated_filter _ _ _ _ _ _ Hp).
    intros s Hs. destruct Hoverride as [->| ->]; [discriminate|].
    injection Hs as <-. apply generated_plain. reflexivity. }
  destruct (isForeignKeyField field); [injection H as <-; assumption|].
  destruct (isIdField field && negb multiple).
  { ok_inv H. injection H as <-. rewrite Forall_app. split; [assumption|].
    repeat (apply Forall_cons; [eapply Hpushed; eauto|]); apply Forall_nil. }
  ok_inv H.
  assert (Hequality : Forall generated (result ++ [a])).
  { rewrite Forall_app. split; [assumption|]. repeat (apply Forall_cons; [eapply Hpushed; eauto|]); apply Forall_nil. }
  destruct (isRelationshipField this_model field); [injection H as <-; assumption|].
  destruct (t_array (f_type field)).
  { repeat ok_inv H. injection H as <-. rewrite Forall_app. split; [assumption|].
    repeat (apply Forall_cons; [eapply Hpushed; eauto|]); apply Forall_nil. }
  ok_inv H.
  assert (Hcompared : Forall generated a0).
  { destruct (comparable (f_type field)); [|injection Ha0 as <-; assumption].
    repeat ok_inv Ha0. injection Ha0 as <-. rewrite Forall_app. split; [assumption|].
    repeat (apply Forall_cons; [eapply Hpushed; eauto|]); apply Forall_nil. }
  destruct (type_is (f_type field) "String"); [|injection H as <-; assumption].
  repeat ok_inv H. injection H as <-. rewrite Forall_app. split; [assumption|].
  repeat (apply Forall_cons; [eapply Hpushed; eauto|]); apply Forall_nil.
Qed.

Lemma generateFilterParameters_generated model params :
  generateFilterParameters this_model model = Ok params -> Forall generated params.
Proof.
  unfold generateFilterParameters.
  generalize (Nat.ltb 1 (List.length (filter isIdField (m_fields model)))) as multiple.
  intros multiple. generalize (Forall_nil generated). generalize (@nil JSON) as result.
  induction (m_fields model) as [|f rest IH]; simpl; intros result Hresult H.
  - injection H as <-. assumption.
  - ok_inv H. apply (IH a); [|assumption].
    eapply filterParametersOfField_generated; eassumption.
Qed.

(** *** Paths *)

Variable options : PluginOptions.
Variable analyzePolicies : DataModel -> Policies.
Variable getModelResourceMeta : DataModel -> option ResourceMeta.
Variable lowerCaseFirst : string -> string.
Variable includedModels : list DataModel.

Ltac component :=
  first [ apply shared_name; simpl; tauto
        | eapply model_name; [eassumption | simpl; tauto] ].

Lemma generated_parameters (fixed filters : list JSON) :
  Forall generated fixed -> Forall generated filters -> generated (JArr (fixed ++ filters)).
Proof.
  intros Hfixed Hfilters. apply within_arr. intros x Hx.
  apply in_app_or in Hx. destruct Hx as [Hx|Hx];
    [revert x Hx; apply Forall_forall; assumption
    | revert x Hx; apply Forall_forall; assumption].
Qed.

Lemma generated_entry (k : string) (item : Obj) :
  generated (JObj item) -> generated (JObj [(k, JObj item)]).
Proof. unfold within. rewrite used_prop_object. auto. Qed.

Section Operations.

Variable model : DataModel.
Hypothesis model_generated : In model getDataModels.
Variables (policies : Policies) (resourceMeta : option ResourceMeta).

Ltac close :=
  lazymatch goal with
  | |- within _ (security_expr _ _) => apply generated_security
  | |- within _ (strings _) => apply generated_strings
  | |- within _ forbidden => apply generated_forbidden
  | |- within _ notFound => apply generated_notFound
  | |- within _ validationError => apply generated_validationError
  | |- within _ (success None) => apply generated_success_empty
  | |- within _ (success (Some _)) => apply generated_success; component
  | |- within _ (request_body _) => apply generated_request_body; component
  | |- within _ (ref _) => apply generated_ref; component
  | |- within _ (parameter _) => apply generated_parameter
  | |- within _ (JObj _) => properties; close
  | |- _ => apply generated_plain; reflexivity
  end.

Lemma makeResourceList_generated (op : JSON) :
  makeResourceList this_model lowerCaseFirst model policies resourceMeta = Ok op ->
  generated op.
Proof.
  unfold makeResourceList. intros H. ok_inv H. injection H as <-.
  apply generateFilterParameters_generated in Ha.
  properties; try close.
  apply within_arr. apply Forall_forall.
  repeat (apply Forall_cons; [apply generated_parameter|]). assumption.
Qed.

Lemma makeResourceCreate_generated :
  generated (makeResourceCreate lowerCaseFirst model policies resourceMeta).
Proof. unfold makeResourceCreate. close. Qed.

Lemma makeResourceFetch_generated :
  generated (makeResourceFetch lowerCaseFirst model policies resourceMeta).
Proof. unfold makeResourceFetch. close. Qed.

Lemma makeResourceUpdate_generated (operationId : string) :
  generated (makeResourceUpdate lowerCaseFirst model policies operationId resourceMeta).
Proof. unfold makeResourceUpdate. close. Qed.

Lemma makeResourceDelete_generated :
  generated (makeResourceDelete lowerCaseFirst model policies resourceMeta).
Proof. unfold makeResourceDelete. close. Qed.

Lemma fetch_parameters_generated (field : DataModelField) (fixed parameters : list JSON) :
  Forall generated fixed ->
  (if t_array (f_type field)
   then filters <- generateFilterParameters this_model model ;;
        Ok (fixed ++
            [parameter "sort"; parameter "page-offset"; parameter "page-limit"] ++ filters)
   else Ok fixed) = Ok parameters ->
  Forall generated parameters.
Proof.
  intros Hfixed H. destruct (t_array (f_type field)); [|injection H as <-; assumption].
  ok_inv H. injection H as <-. apply generateFilterParameters_generated in Ha.
  rewrite Forall_app. split; [assumption|].
  repeat (apply Forall_cons; [apply generated_parameter|]). assumption.
Qed.

Lemma makeRelatedFetch_generated (field : DataModelField) (relationDecl : DataModel)
    (op : JSON) :
  In relationDecl getDataModels ->
  makeRelatedFetch this_model analyzePolicies lowerCaseFirst model field relationDecl
    resourceMeta = Ok op ->
  generated op.
Proof.
  unfold makeRelatedFetch. intros Hrelated H. ok_inv H. injection H as <-.
  apply fetch_parameters_generated in Ha;
    [|repeat (apply Forall_cons; [apply generated_parameter|]); apply Forall_nil].
  properties; try close.
  - apply within_arr. apply Forall_forall. assumption.
  - properties; try close. apply generated_success.
    destruct (t_array (f_type field));
      (eapply (model_name relationDecl); [assumption | simpl; tauto]).
Qed.

Lemma makeRelationshipFetch_generated (field : DataModelField) (op : JSON) :
  makeRelationshipFetch this_model lowerCaseFirst model field policies resourceMeta = Ok op ->
  generated op.
Proof.
  unfold makeRelationshipFetch. intros H. ok_inv H. injection H as <-.
  apply fetch_parameters_generated in Ha;
    [|repeat (apply Forall_cons; [apply generated_parameter|]); apply Forall_nil].
  properties; try close.
  - apply within_arr. apply Forall_forall. assumption.
  - properties; try close. destruct (t_array (f_type field)); close.
Qed.

Lemma makeRelationshipCreate_generated (field : DataModelField) :
  generated (makeRelationshipCreate lowerCaseFirst model field policies resourceMeta).
Proof. unfold makeRelationshipCreate. close. Qed.

Lemma makeRelationshipUpdate_generated (field : DataModelField) (operationId : string) :
  generated (makeRelationshipUpdate lowerCaseFirst model field policies operationId
               resourceMeta).
Proof.
  unfold makeRelationshipUpdate. properties; try close.
  - properties. properties. properties. destruct (t_array (f_type field)); close.
  - properties; try close. destruct (t_array (f_type field)); close.
Qed.

End Operations.

Lemma pathsOfField_generated (prefix modelName : string) (model : DMMFModel)
    (zmodel : DataModel) (policies : Policies) (resourceMeta : option ResourceMeta)
    (result result' : Obj) (g : DataModelField) :
  In zmodel getDataModels ->
  refers_to_generated this_model getDataModels (f_type g) ->
  generated (JObj result) ->
  pathsOfField this_model analyzePolicies lowerCaseFirst prefix modelName model zmodel
    policies resourceMeta result g = Ok result' ->
  generated (JObj result').
Proof.
  intros Hzmodel Hg Hresult H.
  destruct (isRelationshipField this_model g) eqn:Hrel.
  2: { rewrite round_skip in H by assumption. injection H as <-. assumption. }
  unfold isRelationshipField in Hrel.
  destruct (ref_decl this_model (f_type g)) as [[rd|e|t|n]|] eqn:Hrd; try discriminate.
  rewrite (round_relation _ _ _ _ _ _ _ _ _ result g rd Hrd) in H.
  ok_inv H. cbv zeta in H. ok_inv H. injection H as <-.
  assert (Hrelated : generated a)
    by (eapply makeRelatedFetch_generated; [apply Hg; exact Hrd | exact Ha]).
  assert (Hfetch : generated a0)
    by (eapply makeRelationshipFetch_generated; exact Ha0).
  assert (Hresult1 :
    generated
      (JObj (obj_set (relatedDataPath prefix (lowerCaseFirst modelName) (f_name g))
               (JObj (obj_set "get" a
                        (container_at
                           (relatedDataPath prefix (lowerCaseFirst modelName) (f_name g))
                           result))) result))).
  { apply within_set; [assumption|]. apply generated_entry.
    apply within_set; [apply within_container; assumption|].
    apply generated_prop; [reflexivity | assumption]. }
  apply within_set; [assumption|]. apply generated_entry.
  assert (Hcontainer :
    generated
      (JObj (obj_set "patch"
         (makeRelationshipUpdate lowerCaseFirst zmodel g policies
            ("update-" +++ dm_name model +++ "-relationship-" +++ f_name g +++ "-patch")
            resourceMeta)
         (obj_set "put"
            (makeRelationshipUpdate lowerCaseFirst zmodel g policies
               ("update-" +++ dm_name model +++ "-relationship-" +++ f_name g +++ "-put")
               resourceMeta)
            (obj_set "get" a0
               (container_at
                  (relationshipPath prefix (lowerCaseFirst modelName) (f_name g))
                  (obj_set (relatedDataPath prefix (lowerCaseFirst modelName) (f_name g))
                     (JObj (obj_set "get" a
                              (container_at
                                 (relatedDataPath prefix (lowerCaseFirst modelName)
                                    (f_name g))
                                 result))) result))))))).
  { repeat (apply within_set;
            [|apply generated_prop;
              [reflexivity
              |lazymatch goal with
               | |- within _ (makeRelationshipUpdate _ _ _ _ _ _) =>
                   apply makeRelationshipUpdate_generated
               | |- _ => assumption
               end]]).
    apply within_container. assumption. }
  destruct (t_array (f_type g)); [|assumption].
  apply within_set; [assumption|].
  apply generated_prop; [reflexivity|].
  apply makeRelationshipCreate_generated.
Qed.

Lemma generatePathsForModel_generated (model : DMMFModel) (zmodel : DataModel)
    (paths : Obj) :
  In zmodel getDataModels ->
  (forall f, In f (m_fields zmodel) ->
             refers_to_generated this_model getDataModels (f_type f)) ->
  generatePathsForModel this_model options analyzePolicies getModelResourceMeta
    lowerCaseFirst model zmodel = Ok paths ->
  generated (JObj paths).
Proof.
  intros Hzmodel Hfields H. unfold generatePathsForModel in H. ok_inv H.
  assert (Hlist : generated a)
    by (eapply makeResourceList_generated; [exact Hzmodel | exact Ha]).
  revert H.
  match goal with
  | |- foldM _ _ ?start = _ -> _ => assert (Hstart : generated (JObj start))
  end.
  { apply within_set; [apply within_set; [apply generated_plain; reflexivity|]|];
      apply generated_entry; properties;
      lazymatch goal with
      | |- within _ (makeResourceCreate _ _ _ _) =>
          apply makeResourceCreate_generated; assumption
      | |- within _ (makeResourceFetch _ _ _ _) =>
          apply makeResourceFetch_generated; assumption
      | |- within _ (makeResourceUpdate _ _ _ _ _) =>
          apply makeResourceUpdate_generated; assumption
      | |- within _ (makeResourceDelete _ _ _ _) =>
          apply makeResourceDelete_generated; assumption
      | |- _ => assumption
      end. }
  revert Hstart.
  match goal with
  | |- generated (JObj ?start) -> _ => generalize start
  end.
  induction (m_fields zmodel) as [|g rest IH]; simpl; intros result Hresult H.
  - injection H as <-. assumption.
  - ok_inv H. apply (IH (fun f Hf => Hfields f (or_intror Hf)) a0); [|assumption].
    eapply pathsOfField_generated; [eassumption | apply Hfields; left; reflexivity
                                   | eassumption | eassumption].
Qed.

(** Every component the generated paths reference is a component
    [generateComponents] builds, provided the data models the paths are
    built from, and those their fields refer to, are among
    [getDataModels]. *)
Lemma generatePaths_generated (dmmf_models : list DMMFModel) (collected w : list string)
    (paths : Obj) :
  (forall m zmodel,
      In m dmmf_models ->
      mem (dm_name m) (map m_name includedModels) = true ->
      findZModel this_model (dm_name m) = Some zmodel ->
      In zmodel getDataModels) ->
  (forall zmodel f,
      In zmodel getDataModels -> In f (m_fields zmodel) ->
      refers_to_generated this_model getDataModels (f_type f)) ->
  generatePaths this_model options dmmf_models analyzePolicies getModelResourceMeta
    lowerCaseFirst includedModels collected = (Ok paths, w) ->
  generated (JObj paths).
Proof.
  intros Hfound Hfields. unfold generatePaths.
  assert (Hempty : generated (JObj [])) by (apply generated_plain; reflexivity).
  revert Hempty. generalize (@nil (string * JSON)) as result. revert collected.
  induction dmmf_models as [|m rest IH]; intros collected result Hresult H.
  - simpl in H. injection H as <- _. assumption.
  - rewrite loop_cons in H.
    assert (Hrest : forall m' zmodel,
               In m' rest ->
               mem (dm_name m') (map m_name includedModels) = true ->
               findZModel this_model (dm_name m') = Some zmodel ->
               In zmodel getDataModels)
      by (intros m' zmodel Hm'; apply Hfound; right; assumption).
    destruct (mem (dm_name m) (map m_name includedModels)) eqn:Hincluded;
      [|eapply IH; eassumption].
    destruct (findZModel this_model (dm_name m)) as [zmodel|] eqn:Hfind;
      [|eapply IH; eassumption].
    destruct (generatePathsForModel _ _ _ _ _ m zmodel) as [built|e] eqn:Hgen;
      [|discriminate].
    eapply IH; [assumption | | eassumption].
    apply within_spread; [assumption|].
    assert (Hzmodel : In zmodel getDataModels)
      by (apply (Hfound m zmodel); [left; reflexivity | assumption | assumption]).
    eapply generatePathsForModel_generated; [exact Hzmodel | | eassumption].
    intros f Hf. apply (Hfields zmodel f); assumption.
Qed.

(** *** Components *)

Variable wrapNullable : JSON -> bool -> JSON.

(** The nullable wrapper adds no reference to the property it wraps. *)
Hypothesis wrapNullable_adds_no_reference :
  forall (k : string) (schema : JSON) (isNullable : bool),
    incl (usedComponents (JObj [(k, wrapNullable schema isNullable)]))
         (usedComponents (JObj [(k, schema)])).

Lemma generated_nullable_prop (k : string) (schema : JSON) (isNullable : bool) :
  generated (JObj [(k, schema)]) ->
  generated (JObj [(k, wrapNullable schema isNullable)]).
Proof.
  unfold within. intros H n Hn. apply H.
  apply (wrapNullable_adds_no_reference k schema isNullable). assumption.
Qed.

Lemma generated_nullable (schema : JSON) (isNullable : bool) :
  generated schema -> generated (wrapNullable schema isNullable).
Proof.
  intros H.
  assert (Hprop : generated (JObj [("nullable", wrapNullable schema isNullable)]))
    by (apply generated_nullable_prop; apply generated_prop; [reflexivity | assumption]).
  unfold within in *. rewrite used_prop_plain in Hprop by reflexivity. assumption.
Qed.

Lemma generated_spread_obj (v : JSON) : generated v -> generated (JObj (spread_obj v)).
Proof.
  intros H. destruct v; try (apply generated_plain; reflexivity). exact H.
Qed.

Ltac shared :=
  lazymatch goal with
  | |- within _ (ref _) => apply generated_ref; apply shared_name; simpl; tauto
  | |- within _ (wrapNullable _ _) => apply generated_nullable; shared
  | |- within _ (JObj (spread _ _)) => apply within_spread; shared
  | |- within _ (JObj (spread_obj _)) => apply generated_spread_obj; shared
  | |- within _ (allOf _) => unfold allOf; shared
  | |- within _ (array _) => unfold array; shared
  | |- within _ (JArr (_ :: _)) => elements; shared
  | |- within _ (JObj (_ :: _)) => properties; shared
  | |- _ => apply generated_plain; reflexivity
  end.

Lemma generateSharedComponents_generated :
  generated (JObj (generateSharedComponents wrapNullable)).
Proof. unfold generateSharedComponents. shared. Qed.

(** Under any key the schema of a field references at most the declaration
    its type refers to. *)
Lemma generateField_generated (t : FieldType) (schema : JSON) (k : string) :
  generateField this_model wrapNullable t = Ok schema ->
  refers_to_generated this_model getDataModels t ->
  generated (JObj [(k, schema)]).
Proof.
  unfold generateField. intros H Ht. ok_inv H. injection H as <-.
  destruct (generated_fieldType _ _ Ha Ht) as [Hschema (o & ->)].
  unfold wrapArray. destruct (t_array t).
  - unfold array. apply generated_entry.
    properties; [apply generated_plain; reflexivity|].
    apply generated_nullable. assumption.
  - apply generated_nullable_prop. apply generated_entry. assumption.
Qed.

Lemma entityPartsOfField_generated (mode : Mode) (acc acc' : EntityParts)
    (field : DataModelField) :
  entityPartsOfField this_model wrapNullable mode acc field = Ok acc' ->
  generated (JObj (attributes acc)) /\ generated (JObj (relationships acc)) ->
  generated (JObj (attributes acc')) /\ generated (JObj (relationships acc')).
Proof.
  unfold entityPartsOfField. intros H [Hattributes Hrelationships].
  destruct (isForeignKeyField field && negb (is_read mode));
    [injection H as <-; auto|].
  destruct (isRelationshipField this_model field) eqn:Hrel.
  - injection H as <-. simpl. split; [assumption|].
    apply within_set; [assumption|]. apply generated_nullable_prop.
    unfold ref. apply generated_entry.
    match goal with
    | |- within _ (JObj [("$ref", JStr ("#/components/schemas/" +++ ?c))]) =>
        change (generated (ref c))
    end.
    apply generated_ref. apply shared_name.
    destruct mode, (t_array (f_type field)); simpl; tauto.
  - ok_inv H. injection H as <-. simpl. split; [|assumption].
    apply within_set; [assumption|].
    apply (generateField_generated _ _ _ Ha).
    intros m Hm. unfold isRelationshipField in Hrel. rewrite Hm in Hrel. discriminate.
Qed.

Lemma generateModelEntity_generated (model : DataModel) (mode : Mode) (schema : JSON) :
  (forall f, In f (m_fields model) ->
             refers_to_generated this_model getDataModels (f_type f)) ->
  generateModelEntity this_model wrapNullable model mode = Ok schema ->
  generated schema.
Proof.
  intros Hfields H. unfold generateModelEntity in H. ok_inv H. ok_inv H.
  assert (Hparts : generated (JObj (attributes a)) /\ generated (JObj (relationships a))).
  { revert Ha.
    assert (Hstart : generated (JObj (attributes {| attributes := []; relationships := [];
                                                    required := [] |})) /\
                     generated (JObj (relationships {| attributes := [];
                                                       relationships := [];
                                                       required := [] |})))
      by (split; apply generated_plain; reflexivity).
    revert Hstart.
    generalize {| attributes := []; relationships := []; required := [] |} as acc.
    match goal with
    | |- forall acc, _ -> foldM _ ?fields _ = _ -> _ => generalize fields
    end.
    intros fields. induction fields as [|f rest IH]; simpl; intros acc Hacc Hfold.
    - injection Hfold as <-. assumption.
    - ok_inv Hfold. apply (IH a1); [|assumption].
      eapply entityPartsOfField_generated; eassumption. }
  destruct Hparts as [Hattributes Hrelationships].
  assert (Hid : generated a0).
  { destruct (filter isIdField (m_fields model)) as [|idField [|other rest]] eqn:Hids;
      try (injection Ha0 as <-; apply generated_plain; reflexivity).
    apply generated_fieldType in Ha0; [tauto|].
    apply Hfields.
    assert (Hin : In idField (filter isIdField (m_fields model)))
      by (rewrite Hids; left; reflexivity).
    apply filter_In in Hin. tauto. }
  assert (Hbase : generated
            (JObj [("type", JObj [("type", JStr "string")]);
                   ("attributes",
                     JObj [("type", JStr "object");
                           ("required",
                             if Nat.ltb 0 (List.length (required a))
                             then strings (required a) else JUndefined);
                           ("properties", JObj (attributes a))])])).
  { properties; [apply generated_plain; reflexivity|].
    properties; [apply generated_plain; reflexivity | | assumption].
    destruct (Nat.ltb 0 (List.length (required a)));
      [apply generated_strings | apply generated_plain; reflexivity]. }
  assert (Hwith_id : generated
            (JObj (spread [("id", a0)]
                     [("type", JObj [("type", JStr "string")]);
                      ("attributes",
                        JObj [("type", JStr "object");
                              ("required",
                                if Nat.ltb 0 (List.length (required a))
                                then strings (required a) else JUndefined);
                              ("properties", JObj (attributes a))])]))).
  { apply within_spread; [|assumption].
    apply generated_prop; [reflexivity | assumption]. }
  assert (Hrelations : forall properties,
             generated (JObj properties) ->
             generated
               (JObj (if Nat.ltb 0 (List.length (obj_keys (relationships a)))
                      then obj_set "relationships"
                             (JObj [("type", JStr "object");
                                    ("properties", JObj (relationships a))]) properties
                      else properties))).
  { intros properties Hproperties.
    destruct (Nat.ltb 0 (List.length (obj_keys (relationships a)))); [|assumption].
    apply within_set; [assumption|]. apply generated_entry.
    properties; [apply generated_plain; reflexivity | assumption]. }
  revert H.
  destruct (is_create mode);
    [destruct (filter isIdField (m_fields model)) as [|idField [|other rest]];
     [|destruct (negb (hasAttribute idField "@default"))|]|];
    intros H; cbv beta iota zeta in H; apply Ok_inj in H; subst schema;
    (properties;
     [apply generated_plain; reflexivity | apply generated_plain; reflexivity
     | apply generated_strings | apply Hrelations; assumption]).
Qed.

Lemma generateModelEntity_object (model : DataModel) (mode : Mode) (schema : JSON) :
  generateModelEntity this_model wrapNullable model mode = Ok schema ->
  exists o, schema = JObj o.
Proof.
  intros H. unfold generateModelEntity in H. ok_inv H. ok_inv H.
  match type of H with
  | (let '(_, _) := ?chosen in _) = _ => destruct chosen as [properties toplevelRequired]
  end.
  apply Ok_inj in H. subst schema. eexists. reflexivity.
Qed.

Lemma responseRelationships_generated (model : DataModel) :
  generated (JObj (responseRelationships this_model model)).
Proof.
  unfold responseRelationships.
  generalize generated_nil. generalize (@nil (string * JSON)) as acc.
  induction (m_fields model) as [|f rest IH]; simpl; intros acc Hacc; [assumption|].
  apply IH.
  destruct (isRelationshipField this_model f); [|assumption].
  destruct (t_array (f_type f)); apply within_set; try assumption;
    apply generated_entry;
    match goal with
    | |- within _ (JObj [("$ref", JStr ("#/components/schemas/" +++ ?c))]) =>
        change (generated (ref c))
    end;
    apply generated_ref; apply shared_name; simpl; tauto.
Qed.

Ltac schema :=
  lazymatch goal with
  | |- within _ (ref _) => apply generated_ref; component
  | |- within _ (wrapNullable _ _) => apply generated_nullable; schema
  | |- within _ (JObj (responseRelationships _ _)) => apply responseRelationships_generated
  | |- within _ (allOf _) => unfold allOf; schema
  | |- within _ (array _) => unfold array; schema
  | |- within _ (strings _) => apply generated_strings
  | |- within _ (JArr (_ :: _)) => elements; schema
  | |- within _ (JObj (_ :: _)) => properties; schema
  | |- _ => first [assumption | apply generated_plain; reflexivity]
  end.

Lemma generateDataModelComponents_generated (model : DataModel) (components : Obj) :
  In model getDataModels ->
  (forall f, In f (m_fields model) ->
             refers_to_generated this_model getDataModels (f_type f)) ->
  generateDataModelComponents this_model wrapNullable model = Ok components ->
  generated (JObj components).
Proof.
  intros Hmodel Hfields H. unfold generateDataModelComponents in H.
  ok_inv H. ok_inv H. ok_inv H. cbv zeta in H. apply Ok_inj in H. subst components.
  destruct (generateModelEntity_object _ _ _ Ha) as (read & ->).
  apply (generateModelEntity_generated _ _ _ Hfields) in Ha.
  apply (generateModelEntity_generated _ _ _ Hfields) in Ha0.
  apply (generateModelEntity_generated _ _ _ Hfields) in Ha1.
  repeat (apply within_set; [|apply generated_entry; schema]).
  apply generated_nil.
Qed.

Lemma generateTypeDefComponent_generated (typeDef : TypeDef) (component : JSON) :
  (forall f, In f (td_fields typeDef) ->
             refers_to_generated this_model getDataModels (tf_type f)) ->
  generateTypeDefComponent this_model wrapNullable typeDef = Ok component ->
  generated component.
Proof.
  intros Hfields H. unfold generateTypeDefComponent in H. ok_inv H.
  apply Ok_inj in H. subst component.
  assert (Hproperties : generated (JObj a)).
  { revert Ha. generalize generated_nil. generalize (@nil (string * JSON)) as acc.
    induction (td_fields typeDef) as [|f rest IH]; simpl; intros acc Hacc H.
    - apply Ok_inj in H. subst a. assumption.
    - ok_inv H. ok_inv Ha. apply Ok_inj in Ha. subst a0.
      apply (IH (fun g Hg => Hfields g (or_intror Hg)) (obj_set (tf_name f) a1 acc));
        [|assumption].
      apply within_set; [assumption|].
      apply (generateField_generated _ _ _ Ha0). apply Hfields. left. reflexivity. }
  schema.
Qed.

Hypothesis model_fields_generated :
  forall zmodel f,
    In zmodel getDataModels -> In f (m_fields zmodel) ->
    refers_to_generated this_model getDataModels (f_type f).

Hypothesis typeDef_fields_generated :
  forall typeDef f,
    In typeDef (declared_typeDefs this_model) -> In f (td_fields typeDef) ->
    refers_to_generated this_model getDataModels (tf_type f).

Lemma enums_generated (enums : list Enum) (acc : Obj) :
  generated (JObj acc) ->
  generated
    (JObj (fold_left
             (fun schemas _enum =>
                obj_set (e_name _enum) (generateEnumComponent _enum) schemas)
             enums acc)).
Proof.
  revert acc. induction enums as [|e rest IH]; simpl; intros acc Hacc; [assumption|].
  apply IH. apply within_set; [assumption|].
  unfold generateEnumComponent. apply generated_entry. schema.
Qed.

Lemma models_generated (models : list DataModel) (acc out : Obj) :
  (forall m, In m models -> In m getDataModels) ->
  foldM (fun schemas model =>
           components <- generateDataModelComponents this_model wrapNullable model ;;
           Ok (spread schemas components))
        models acc = Ok out ->
  generated (JObj acc) -> generated (JObj out).
Proof.
  revert acc. induction models as [|m rest IH]; simpl; intros acc Hall Hfold Hacc.
  - apply Ok_inj in Hfold. subst out. assumption.
  - ok_inv Hfold. ok_inv Ha. apply Ok_inj in Ha. subst a.
    apply (IH (spread acc a0)); [auto | assumption|].
    apply within_spread; [assumption|].
    apply (generateDataModelComponents_generated m); [auto | | assumption].
    intros f Hf. apply (model_fields_generated m); auto.
Qed.

Lemma typeDefs_generated (typeDefs : list TypeDef) (acc out : Obj) :
  (forall t, In t typeDefs -> In t (declared_typeDefs this_model)) ->
  foldM (fun schemas typeDef =>
           component <- generateTypeDefComponent this_model wrapNullable typeDef ;;
           Ok (obj_set (td_name typeDef) component schemas))
        typeDefs acc = Ok out ->
  generated (JObj acc) -> generated (JObj out).
Proof.
  revert acc. induction typeDefs as [|t rest IH]; simpl; intros acc Hall Hfold Hacc.
  - apply Ok_inj in Hfold. subst out. assumption.
  - ok_inv Hfold. ok_inv Ha. apply Ok_inj in Ha. subst a.
    apply (IH (obj_set (td_name t) a0 acc)); [auto | assumption|].
    apply within_set; [assumption|].
    assert (Hcomponent : generated a0).
    { apply (generateTypeDefComponent_generated t); [|assumption].
      intros f Hf. apply (typeDef_fields_generated t); auto. }
    unfold generateTypeDefComponent in Ha0. ok_inv Ha0. apply Ok_inj in Ha0. subst a0.
    apply generated_entry. assumption.
Qed.

(** Every component references components only. *)
Lemma generateSchemas_generated (schemas : Obj) :
  generateSchemas this_model getDataModels wrapNullable = Ok schemas ->
  generated (JObj schemas).
Proof.
  intros H. unfold generateSchemas in H. ok_inv H.
  apply (typeDefs_generated _ _ _ (fun t Ht => Ht) H).
  apply (models_generated _ _ _ (fun m Hm => Hm) Ha).
  apply enums_generated.
  apply within_spread; [apply generated_nil | apply generateSharedComponents_generated].
Qed.

(** *** The names of the components *)

Lemma keys_set (k n : string) (v : JSON) (o : Obj) :
  n = k \/ In n (obj_keys o) -> In n (obj_keys (obj_set k v o)).
Proof.
  induction o as [|[k' v'] o IH]; simpl.
  - intros [->|[]]. auto.
  - destruct (k' =? k)%string eqn:E; simpl.
    + apply String.eqb_eq in E. subst k'. intros [->|[->|H]]; auto.
    + intros [->|[->|H]]; auto.
Qed.

Lemma keys_spread (a b : Obj) (n : string) :
  In n (obj_keys a) \/ In n (obj_keys b) -> In n (obj_keys (spread a b)).
Proof.
  unfold spread. revert a. induction b as [|[k v] b IH]; simpl; intros a.
  - intros [H|[]]. assumption.
  - intros [H|[->|H]]; apply IH; auto; left; apply keys_set; auto.
Qed.

Lemma keys_enums (enums : list Enum) (acc : Obj) (n : string) :
  In n (obj_keys acc) \/ In n (map e_name enums) ->
  In n (obj_keys (fold_left
                    (fun schemas _enum =>
                       obj_set (e_name _enum) (generateEnumComponent _enum) schemas)
                    enums acc)).
Proof.
  revert acc. induction enums as [|e rest IH]; simpl; intros acc.
  - intros [H|[]]. assumption.
  - intros [H|[<-|H]]; apply IH; auto; left; apply keys_set; auto.
Qed.

Lemma keys_model (model : DataModel) (components : Obj) (n : string) :
  generateDataModelComponents this_model wrapNullable model = Ok components ->
  In n (model_components (m_name model)) -> In n (obj_keys components).
Proof.
  intros H Hn. unfold generateDataModelComponents in H.
  ok_inv H. ok_inv H. ok_inv H. cbv zeta in H. apply Ok_inj in H. subst components.
  unfold model_components in Hn. cbn [In] in Hn.
  destruct Hn as [<-|[<-|[<-|[<-|[<-|[]]]]]];
    repeat first [ apply keys_set; left; reflexivity | apply keys_set; right ].
Qed.

Lemma keys_models (models : list DataModel) (acc out : Obj) (n : string) :
  foldM (fun schemas model =>
           components <- generateDataModelComponents this_model wrapNullable model ;;
           Ok (spread schemas components))
        models acc = Ok out ->
  In n (obj_keys acc) \/
  In n (flat_map (fun m => model_components (m_name m)) models) ->
  In n (obj_keys out).
Proof.
  revert acc. induction models as [|m rest IH]; intros acc Hfold Hn;
    cbn [foldM] in Hfold; cbn [flat_map] in Hn.
  - apply Ok_inj in Hfold. subst out. destruct Hn as [H|[]]. assumption.
  - ok_inv Hfold. ok_inv Ha. apply Ok_inj in Ha. subst a.
    apply (IH _ Hfold). destruct Hn as [H|H].
    + left. apply keys_spread. auto.
    + apply in_app_or in H. destruct H as [H|H]; [|auto].
      left. apply keys_spread. right. eapply keys_model; eassumption.
Qed.

Lemma keys_typeDefs (typeDefs : list TypeDef) (acc out : Obj) (n : string) :
  foldM (fun schemas typeDef =>
           component <- generateTypeDefComponent this_model wrapNullable typeDef ;;
           Ok (obj_set (td_name typeDef) component schemas))
        typeDefs acc = Ok out ->
  In n (obj_keys acc) \/ In n (map td_name typeDefs) ->
  In n (obj_keys out).
Proof.
  revert acc. induction typeDefs as [|t rest IH]; simpl; intros acc Hfold Hn.
  - apply Ok_inj in Hfold. subst out. destruct Hn as [H|[]]. assumption.
  - ok_inv Hfold. ok_inv Ha. apply Ok_inj in Ha. subst a.
    apply (IH _ Hfold). destruct Hn as [H|[<-|H]]; auto; left; apply keys_set; auto.
Qed.

(** Every name of [component_names] is the name of a generated component. *)
Lemma generateSchemas_names (schemas : Obj) (n : string) :
  generateSchemas this_model getDataModels wrapNullable = Ok schemas ->
  In n names -> In n (obj_keys schemas).
Proof.
  intros H Hn. unfold generateSchemas in H. ok_inv H.
  apply (keys_typeDefs _ _ _ _ H).
  unfold component_names in Hn. apply in_app_or in Hn.
  destruct Hn as [Hn|Hn].
  - left. apply (keys_models _ _ _ _ Ha). left. apply keys_enums. left.
    apply keys_spread. right. exact Hn.
  - apply in_app_or in Hn. destruct Hn as [Hn|Hn].
    + left. apply (keys_models _ _ _ _ Ha). left. apply keys_enums. auto.
    + apply in_app_or in Hn. destruct Hn as [Hn|Hn]; [|auto].
      left. apply (keys_models _ _ _ _ Ha). auto.
Qed.

(** Before pruning, everything reachable from the paths is a component. *)
Lemma generated_reachable (dmmf_models : list DMMFModel) (collected w : list string)
    (paths schemas : Obj) :
  (forall m zmodel,
      In m dmmf_models ->
      mem (dm_name m) (map m_name includedModels) = true ->
      findZModel this_model (dm_name m) = Some zmodel ->
      In zmodel getDataModels) ->
  generateSchemas this_model getDataModels wrapNullable = Ok schemas ->
  generatePaths this_model options dmmf_models analyzePolicies getModelResourceMeta
    lowerCaseFirst includedModels collected = (Ok paths, w) ->
  forall n, Reachable paths schemas n -> In n (obj_keys schemas).
Proof.
  intros Hfound Hschemas Hpaths n Hn.
  apply (generateSchemas_names _ _ Hschemas).
  induction Hn as [n Hn|k n v _ _ Hin Hn].
  - apply (generatePaths_generated _ _ _ _ Hfound model_fields_generated Hpaths).
    assumption.
  - apply (within_value _ k v schemas (generateSchemas_generated _ Hschemas) Hin).
    assumption.
Qed.

End Closure.

(* ================================================================= *)
(** ** The assembled document *)

(** The paths and the component schemas of a generated document. *)
Lemma generate_parts
    (this_model : Model) (options : PluginOptions) (dmmf_models : list DMMFModel)
    (analyzePolicies : DataModel -> Policies)
    (getModelResourceMeta : DataModel -> option ResourceMeta)
    (lowerCaseFirst : string -> string) (getDataModels includedModels : list DataModel)
    (wrapNullable : JSON -> bool -> JSON) (generateSecuritySchemes : Outcome JSON)
    (DEFAULT_SPEC_VERSION : string) (this : Generator) (doc : JSON) :
  fst (generate this_model options dmmf_models analyzePolicies getModelResourceMeta
         lowerCaseFirst getDataModels includedModels wrapNullable generateSecuritySchemes
         DEFAULT_SPEC_VERSION this) = Ok doc ->
  exists generated paths w,
    generateSchemas this_model getDataModels wrapNullable = Ok generated /\
    generatePaths this_model options dmmf_models analyzePolicies getModelResourceMeta
      lowerCaseFirst includedModels (warnings this) = (Ok paths, w) /\
    prop "paths" doc = JObj paths /\
    prop "schemas" (prop "components" doc) = JObj (pruneComponents paths generated).
Proof.
  unfold generate, generateComponents. intros H.
  destruct (o_output options); [|discriminate].
  destruct (generateSchemas this_model getDataModels wrapNullable) as [generated|e];
    [|discriminate].
  cbn [bind] in H.
  destruct (generatePaths _ _ _ _ _ _ _ _) as [[paths|e] w]; [|discriminate].
  destruct generateSecuritySchemes as [securitySchemes|e]; [|discriminate].
  cbn [fst] in H. apply Ok_inj in H. subst doc.
  exists generated, paths, w. repeat split; reflexivity.
Qed.

(** The sample nullable wrapper references what the wrapped schema does. *)
Lemma sample_wrapNullable_adds_no_reference (k : string) (schema : JSON)
    (isNullable : bool) :
  incl (usedComponents (JObj [(k, sample_wrapNullable schema isNullable)]))
       (usedComponents (JObj [(k, schema)])).
Proof.
  destruct isNullable; [|apply incl_refl].
  unfold sample_wrapNullable, oneOf.
  rewrite used_prop_object, used_prop_plain by reflexivity.
  rewrite !used_arr_cons, used_arr_nil, used_prop_string.
  cbn [String.eqb Ascii.eqb Bool.eqb]. rewrite !app_nil_r.
  apply used_value_of_prop.
Qed.

Lemma Some_decl_inj (a b : DataModel) :
  Some (DeclDataModel a) = Some (DeclDataModel b) -> a = b.
Proof. intros H. injection H as H. exact H. Qed.



(* ================================================================= *)
(** ** More facts about objects *)

Lemma obj_get_keys (k : string) (o : Obj) :
  obj_get k o = None <-> ~ In k (obj_keys o).
Proof.
  induction o as [|[k' v'] o IH]; simpl.
  - split; [intros _ [] | reflexivity].
  - destruct (String.eqb_spec k' k) as [->|Hne].
    + split; [discriminate | intros H; exfalso; apply H; left; reflexivity].
    + rewrite IH. split; [intros H [E|Hin]; [contradiction | auto] | auto].
Qed.

Lemma keys_set_fresh (k : string) (v : JSON) (o : Obj) :
  obj_get k o = None -> obj_keys (obj_set k v o) = obj_keys o ++ [k].
Proof.
  induction o as [|[k' v'] o IH]; simpl; [reflexivity|].
  destruct (k' =? k)%string; [discriminate|].
  intros H. simpl. rewrite (IH H). reflexivity.
Qed.

Lemma In_keys (k : string) (o : Obj) : In k (obj_keys o) <-> exists v, In (k, v) o.
Proof.
  unfold obj_keys. rewrite in_map_iff. split.
  - intros ([k' v] & E & H). cbn in E. subst k'. exists v. exact H.
  - intros (v & H). exists (k, v). split; [reflexivity | exact H].
Qed.

Lemma keys_obj_set (k x : string) (v : JSON) (o : Obj) :
  In x (obj_keys (obj_set k v o)) <-> x = k \/ In x (obj_keys o).
Proof. split; [apply In_keys_obj_set | apply keys_set]. Qed.

Lemma In_spread (a b : Obj) (k : string) (v : JSON) :
  In (k, v) (spread a b) -> In (k, v) a \/ In (k, v) b.
Proof.
  unfold spread. revert a.
  induction b as [|[k' v'] rest IH]; cbn [fold_left fst snd]; intros a H; [left; exact H|].
  apply IH in H. destruct H as [H|H]; [|right; right; exact H].
  apply In_obj_set in H. destruct H as [[-> ->]|H]; [right; left; reflexivity | left; exact H].
Qed.

Lemma keys_spread_iff (a b : Obj) (n : string) :
  In n (obj_keys (spread a b)) <-> In n (obj_keys a) \/ In n (obj_keys b).
Proof.
  split; [|apply keys_spread].
  rewrite !In_keys. intros [v H]. apply In_spread in H.
  destruct H as [H|H]; [left | right]; exists v; exact H.
Qed.

(* ================================================================= *)
(** ** Runs of the path generator *)

Section ModelLoop.

Variable this_model : Model.
Variable options : PluginOptions.
Variable analyzePolicies : DataModel -> Policies.
Variable getModelResourceMeta : DataModel -> option ResourceMeta.
Variable lowerCaseFirst : string -> string.
Variable includedModels : list DataModel.

Local Abbreviation loop :=
  (generatePaths_loop this_model options analyzePolicies getModelResourceMeta
     lowerCaseFirst includedModels).

Lemma loop_included (models : list DMMFModel) (result : Obj) (warnings : list string) :
  loop models result warnings
    = loop (filter (isIncluded includedModels) models) result warnings.
Proof.
  revert result warnings.
  induction models as [|m rest IH]; intros result warnings; [reflexivity|].
  cbn [filter]. unfold isIncluded at 1.
  rewrite loop_cons.
  destruct (mem (dm_name m) (map m_name includedModels)) eqn:E; [|apply IH].
  rewrite loop_cons, E.
  destruct (findZModel this_model (dm_name m)) as [zmodel|]; [|apply IH].
  destruct (generatePathsForModel _ _ _ _ _ m zmodel); [apply IH | reflexivity].
Qed.

Lemma loop_missing (models : list DMMFModel) (result paths : Obj)
    (warnings w : list string) :
  loop models result warnings = (Ok paths, w) ->
  w = warnings ++ map (fun m => missing_warning (dm_name m))
                      (filter (lacksZModel this_model includedModels) models).
Proof.
  revert result warnings.
  induction models as [|m rest IH]; intros result warnings H.
  - cbn in H. injection H as _ <-. cbn. rewrite app_nil_r. reflexivity.
  - rewrite loop_cons in H. cbn [filter]. unfold lacksZModel at 1, isIncluded.
    destruct (mem (dm_name m) (map m_name includedModels)); cbn [andb].
    + destruct (findZModel this_model (dm_name m)) as [zmodel|].
      * destruct (generatePathsForModel _ _ _ _ _ m zmodel); [|discriminate].
        apply IH in H. exact H.
      * apply IH in H. rewrite H. cbn [map]. rewrite <- app_assoc. reflexivity.
    + apply IH in H. exact H.
Qed.

End ModelLoop.

(** Extra X1.  DMMF models that are not among the included models are
    skipped: the paths, the warnings and the document of a run are those of
    the run over the included DMMF models only. *)
Theorem X1_excluded_models_skipped :
  forall (this_model : Model) (options : PluginOptions) (dmmf_models : list DMMFModel)
         (analyzePolicies : DataModel -> Policies)
         (getModelResourceMeta : DataModel -> option ResourceMeta)
         (lowerCaseFirst : string -> string)
         (getDataModels includedModels : list DataModel)
         (wrapNullable : JSON -> bool -> JSON) (generateSecuritySchemes : Outcome JSON)
         (DEFAULT_SPEC_VERSION : string) (this : Generator),
    let kept := filter (isIncluded includedModels) dmmf_models in
    generatePaths this_model options dmmf_models analyzePolicies getModelResourceMeta
      lowerCaseFirst includedModels (warnings this)
      = generatePaths this_model options kept analyzePolicies getModelResourceMeta
          lowerCaseFirst includedModels (warnings this) /\
    generate this_model options dmmf_models analyzePolicies getModelResourceMeta
      lowerCaseFirst getDataModels includedModels wrapNullable generateSecuritySchemes
      DEFAULT_SPEC_VERSION this
      = generate this_model options kept analyzePolicies getModelResourceMeta
          lowerCaseFirst getDataModels includedModels wrapNullable generateSecuritySchemes
          DEFAULT_SPEC_VERSION this.
Proof.
  intros. subst kept.
  assert (Hpaths :
    generatePaths this_model options dmmf_models analyzePolicies getModelResourceMeta
      lowerCaseFirst includedModels (warnings this)
    = generatePaths this_model options (filter (isIncluded includedModels) dmmf_models)
        analyzePolicies getModelResourceMeta lowerCaseFirst includedModels (warnings this))
    by (unfold generatePaths; apply loop_included).
  split; [exact Hpaths|].
  unfold generate. rewrite Hpaths. reflexivity.
Qed.

(* ================================================================= *)
(** ** The URL prefix *)

Lemma endsWith_slash_append (p : string) : endsWith_slash (p +++ "/") = true.
Proof.
  induction p as [|c p IH]; [reflexivity|].
  cbn [String.append endsWith_slash].
  destruct (p +++ "/") eqn:E; [destruct p; discriminate | exact IH].
Qed.

Lemma drop_last_append (p : string) : drop_last (p +++ "/") = p.
Proof.
  induction p as [|c p IH]; [reflexivity|].
  cbn [String.append drop_last].
  destruct (p +++ "/") eqn:E; [destruct p; discriminate|].
  rewrite IH. reflexivity.
Qed.

Lemma url_prefix_trailing_slash (options : PluginOptions) (p : string) :
  endsWith_slash p = false ->
  url_prefix (with_prefix options (p +++ "/")) = url_prefix (with_prefix options p).
Proof.
  intros Hp. unfold url_prefix. cbn [with_prefix o_prefix getOption].
  rewrite endsWith_slash_append, drop_last_append, Hp. reflexivity.
Qed.

Section Prefix.

Variable this_model : Model.
Variable options : PluginOptions.
Variable analyzePolicies : DataModel -> Policies.
Variable getModelResourceMeta : DataModel -> option ResourceMeta.
Variable lowerCaseFirst : string -> string.
Variable includedModels : list DataModel.

Lemma generatePathsForModel_prefix (o1 o2 : PluginOptions) (model : DMMFModel)
    (zmodel : DataModel) :
  url_prefix o1 = url_prefix o2 ->
  o_modelNameMapping o1 = o_modelNameMapping o2 ->
  generatePathsForModel this_model o1 analyzePolicies getModelResourceMeta lowerCaseFirst
    model zmodel
  = generatePathsForModel this_model o2 analyzePolicies getModelResourceMeta lowerCaseFirst
      model zmodel.
Proof.
  intros Hprefix Hmapping.
  unfold generatePathsForModel, mapModelName, modelNameMapping.
  unfold url_prefix in Hprefix. rewrite Hprefix, Hmapping. reflexivity.
Qed.

Lemma loop_prefix (o1 o2 : PluginOptions) (models : list DMMFModel) (result : Obj)
    (warnings : list string) :
  url_prefix o1 = url_prefix o2 ->
  o_modelNameMapping o1 = o_modelNameMapping o2 ->
  generatePaths_loop this_model o1 analyzePolicies getModelResourceMeta lowerCaseFirst
    includedModels models result warnings
  = generatePaths_loop this_model o2 analyzePolicies getModelResourceMeta lowerCaseFirst
      includedModels models result warnings.
Proof.
  intros Hprefix Hmapping. revert result warnings.
  induction models as [|m rest IH]; intros result warnings; [reflexivity|].
  rewrite !loop_cons.
  destruct (mem (dm_name m) (map m_name includedModels)); [|apply IH].
  destruct (findZModel this_model (dm_name m)) as [zmodel|]; [|apply IH].
  rewrite (generatePathsForModel_prefix o1 o2) by assumption.
  destruct (generatePathsForModel _ o2 _ _ _ m zmodel); [apply IH | reflexivity].
Qed.

End Prefix.

(** Extra X2.  One trailing slash of the [prefix] option is dropped: for a
    prefix [p] that does not end in a slash, the runs with prefix [p/] and
    with prefix [p] give the same paths, warnings and document. *)
Theorem X2_prefix_trailing_slash :
  forall (this_model : Model) (options : PluginOptions) (dmmf_models : list DMMFModel)
         (analyzePolicies : DataModel -> Policies)
         (getModelResourceMeta : DataModel -> option ResourceMeta)
         (lowerCaseFirst : string -> string)
         (getDataModels includedModels : list DataModel)
         (wrapNullable : JSON -> bool -> JSON) (generateSecuritySchemes : Outcome JSON)
         (DEFAULT_SPEC_VERSION : string) (this : Generator) (p : string),
    endsWith_slash p = false ->
    generatePaths this_model (with_prefix options (p +++ "/")) dmmf_models analyzePolicies
      getModelResourceMeta lowerCaseFirst includedModels (warnings this)
      = generatePaths this_model (with_prefix options p) dmmf_models analyzePolicies
          getModelResourceMeta lowerCaseFirst includedModels (warnings this) /\
    generate this_model (with_prefix options (p +++ "/")) dmmf_models analyzePolicies
      getModelResourceMeta lowerCaseFirst getDataModels includedModels wrapNullable
      generateSecuritySchemes DEFAULT_SPEC_VERSION this
      = generate this_model (with_prefix options p) dmmf_models analyzePolicies
          getModelResourceMeta lowerCaseFirst getDataModels includedModels wrapNullable
          generateSecuritySchemes DEFAULT_SPEC_VERSION this.
Proof.
  intros until p. intros Hp.
  assert (Hpaths :
    generatePaths this_model (with_prefix options (p +++ "/")) dmmf_models analyzePolicies
      getModelResourceMeta lowerCaseFirst includedModels (warnings this)
    = generatePaths this_model (with_prefix options p) dmmf_models analyzePolicies
        getModelResourceMeta lowerCaseFirst includedModels (warnings this)).
  { unfold generatePaths. apply loop_prefix; [|reflexivity].
    apply url_prefix_trailing_slash. exact Hp. }
  split; [exact Hpaths|].
  unfold generate. rewrite Hpaths. reflexivity.
Qed.

Lemma X2_prefix_trailing_slash_witness :
  let models := [{| dm_name := "User" |}; {| dm_name := "Post" |}] in
  generate blog (with_prefix no_options "/api/") models no_policies no_meta
    sample_lowerCaseFirst [User; Post] [User; Post] sample_wrapNullable (Ok JUndefined)
    "3.1.0" {| warnings := [] |}
  = generate blog (with_prefix no_options "/api") models no_policies no_meta
      sample_lowerCaseFirst [User; Post] [User; Post] sample_wrapNullable (Ok JUndefined)
      "3.1.0" {| warnings := [] |}.
Proof.
  intros models.
  exact (proj2 (X2_prefix_trailing_slash blog no_options models no_policies no_meta
                  sample_lowerCaseFirst [User; Post] [User; Post] sample_wrapNullable
                  (Ok JUndefined) "3.1.0" {| warnings := [] |} "/api" eq_refl)).
Defined.

(* ================================================================= *)
(** ** The paths of an entity *)

Lemma item_not_resource (base : string) : base +++ "/{id}" <> base.
Proof.
  intros E. apply (f_equal String.length) in E.
  rewrite length_append in E. simpl in E. lia.
Qed.

Section EntityPaths.

Variable this_model : Model.
Variable options : PluginOptions.
Variable analyzePolicies : DataModel -> Policies.
Variable getModelResourceMeta : DataModel -> option ResourceMeta.
Variable lowerCaseFirst : string -> string.

Variables (prefix modelName : string) (model : DMMFModel) (zmodel : DataModel).
Variables (policies : Policies) (resourceMeta : option ResourceMeta).

Local Abbreviation round :=
  (pathsOfField this_model analyzePolicies lowerCaseFirst prefix modelName model zmodel
     policies resourceMeta).
Local Abbreviation related f :=
  (relatedDataPath prefix (lowerCaseFirst modelName) (f_name f)).
Local Abbreviation relationship f :=
  (relationshipPath prefix (lowerCaseFirst modelName) (f_name f)).

Lemma round_keys (result result' : Obj) (g : DataModelField) :
  round result g = Ok result' ->
  isRelationshipField this_model g = true ->
  without "/" (f_name g) = true ->
  obj_get (related g) result = None ->
  obj_get (relationship g) result = None ->
  obj_keys result' = obj_keys result ++ [related g; relationship g].
Proof.
  intros H Hrel Hslash F1 F2.
  unfold isRelationshipField in Hrel.
  destruct (ref_decl this_model (f_type g)) as [[rd|e|t|n]|] eqn:Hrd; try discriminate.
  rewrite (round_relation _ _ _ _ _ _ _ _ _ _ _ rd Hrd) in H.
  ok_inv H. cbv zeta in H. ok_inv H. apply Ok_inj in H. subst result'.
  assert (Hne : related g <> relationship g)
    by (apply related_not_relationship; assumption).
  rewrite keys_set_fresh
    by (rewrite obj_get_set_other by exact Hne; exact F2).
  rewrite keys_set_fresh by exact F1.
  rewrite <- app_assoc. reflexivity.
Qed.

Lemma rounds_keys (fields : list DataModelField) (result paths : Obj) :
  foldM round fields result = Ok paths ->
  NoDup (map f_name fields) ->
  (forall h, In h fields -> without "/" (f_name h) = true) ->
  (forall h, In h fields ->
             obj_get (related h) result = None /\ obj_get (relationship h) result = None) ->
  obj_keys paths
    = obj_keys result
      ++ flat_map (fun f => [related f; relationship f])
                  (filter (isRelationshipField this_model) fields).
Proof.
  revert result.
  induction fields as [|g rest IH]; intros result H Hnodup Hslash Hfresh.
  - cbn in H. apply Ok_inj in H. subst paths. cbn. rewrite app_nil_r. reflexivity.
  - cbn [foldM] in H. ok_inv H.
    inversion Hnodup as [|x l Hnotin Hnodup']; subst.
    assert (Hrest : forall h, In h rest ->
              obj_get (related h) a = None /\ obj_get (relationship h) a = None).
    { intros h Hh.
      assert (Hne : f_name h <> f_name g).
      { intros E. apply Hnotin. rewrite <- E. apply in_map. assumption. }
      destruct (Hfresh h (or_intror Hh)) as [F1 F2].
      split.
      - rewrite (round_other _ _ _ _ _ _ _ _ _ result a g (related h) Ha); auto.
        + intros E. apply relatedDataPath_inj in E. contradiction.
        + apply related_not_relationship. apply Hslash. right. assumption.
      - rewrite (round_other _ _ _ _ _ _ _ _ _ result a g (relationship h) Ha); auto.
        + intros E. symmetry in E. apply related_not_relationship in E; auto.
          apply Hslash. left. reflexivity.
        + intros E. apply relationshipPath_inj in E. contradiction. }
    rewrite (IH a H Hnodup' (fun h Hh => Hslash h (or_intror Hh)) Hrest).
    cbn [filter].
    destruct (isRelationshipField this_model g) eqn:Hrel.
    + destruct (Hfresh g (or_introl eq_refl)) as [F1 F2].
      rewrite (round_keys result a g Ha Hrel (Hslash g (or_introl eq_refl)) F1 F2).
      cbn [flat_map]. rewrite <- app_assoc. reflexivity.
    + rewrite (round_skip _ _ _ _ _ _ _ _ _ result g Hrel) in Ha.
      apply Ok_inj in Ha. subst a. reflexivity.
Qed.

End EntityPaths.

Section EntityPathItems.

Variable this_model : Model.
Variable options : PluginOptions.
Variable analyzePolicies : DataModel -> Policies.
Variable getModelResourceMeta : DataModel -> option ResourceMeta.
Variable lowerCaseFirst : string -> string.

(** Extra X3.  The field loop of [generatePathsForModel] never touches the
    two resource paths: whatever the fields are, the collection path holds
    exactly GET (list) and POST (create), and the item path exactly GET,
    PUT, PATCH and DELETE, with the operations built for the entity; the
    list operation takes the [include], [sort] and pagination parameters
    followed by the filter parameters of the entity. *)
Theorem X3_resource_path_items :
  forall (model : DMMFModel) (zmodel : DataModel) (paths : Obj),
    generatePathsForModel this_model options analyzePolicies getModelResourceMeta
      lowerCaseFirst model zmodel = Ok paths ->
    let policies := analyzePolicies zmodel in
    let resourceMeta := getModelResourceMeta zmodel in
    let modelName := mapModelName options (dm_name model) in
    exists list filters,
      generateFilterParameters this_model zmodel = Ok filters /\
      makeResourceList this_model lowerCaseFirst zmodel policies resourceMeta = Ok list /\
      operation_parameters list
        = [parameter "include"; parameter "sort"; parameter "page-offset";
           parameter "page-limit"] ++ filters /\
      obj_get (url_prefix options +++ "/" +++ lowerCaseFirst modelName) paths
        = Some (JObj [("get", list);
                      ("post", makeResourceCreate lowerCaseFirst zmodel policies
                                 resourceMeta)]) /\
      obj_get (url_prefix options +++ "/" +++ lowerCaseFirst modelName +++ "/{id}") paths
        = Some (JObj [("get", makeResourceFetch lowerCaseFirst zmodel policies resourceMeta);
                      ("put", makeResourceUpdate lowerCaseFirst zmodel policies
                                ("update-" +++ modelName +++ "-put") resourceMeta);
                      ("patch", makeResourceUpdate lowerCaseFirst zmodel policies
                                  ("update-" +++ modelName +++ "-patch") resourceMeta);
                      ("delete", makeResourceDelete lowerCaseFirst zmodel policies
                                   resourceMeta)]).
Proof.
  intros model zmodel paths H policies resourceMeta modelName.
  unfold generatePathsForModel in H. ok_inv H.
  fold (url_prefix options) in H. fold modelName policies resourceMeta in H, Ha.
  assert (Hfilters : exists filters,
            generateFilterParameters this_model zmodel = Ok filters /\
            operation_parameters a
              = [parameter "include"; parameter "sort"; parameter "page-offset";
                 parameter "page-limit"] ++ filters).
  { pose proof Ha as Hlist. unfold makeResourceList in Hlist. ok_inv Hlist.
    apply Ok_inj in Hlist. exists a0. split; [exact Ha0|]. subst a. reflexivity. }
  destruct Hfilters as (filters & Hfilters & Hparameters).
  exists a, filters. split; [exact Hfilters|]. split; [exact Ha|].
  split; [exact Hparameters|].
  set (resource := lowerCaseFirst modelName) in *.
  assert (Hother : forall k,
            k = url_prefix options +++ "/" +++ resource \/
            k = url_prefix options +++ "/" +++ resource +++ "/{id}" ->
            forall h : DataModelField,
              In h (m_fields zmodel) ->
              k <> relatedDataPath (url_prefix options) resource (f_name h) /\
              k <> relationshipPath (url_prefix options) resource (f_name h)).
  { intros k Hk h _.
    destruct (resource_not_related (url_prefix options) resource (f_name h)) as [N1 N2].
    destruct (resource_not_relationship (url_prefix options) resource (f_name h))
      as [N3 N4].
    destruct Hk as [->| ->]; split; assumption. }
  assert (Hne : url_prefix options +++ "/" +++ resource +++ "/{id}"
                <> url_prefix options +++ "/" +++ resource).
  { rewrite <- !append_assoc. apply item_not_resource. }
  split.
  - rewrite (rounds_other _ _ _ _ _ _ _ _ _ _ _ _ _ H (Hother _ (or_introl eq_refl))).
    rewrite obj_get_set_other by exact Hne.
    apply obj_get_set_same.
  - rewrite (rounds_other _ _ _ _ _ _ _ _ _ _ _ _ _ H (Hother _ (or_intror eq_refl))).
    apply obj_get_set_same.
Qed.

(** Extra X4.  For an entity whose field names are distinct and free of
    slashes, the paths object holds, in this order, the collection path,
    the item path and, for each relationship field in declaration order,
    its related-resource path and its relationships path; nothing else. *)
Theorem X4_paths_of_entity :
  forall (model : DMMFModel) (zmodel : DataModel) (paths : Obj),
    generatePathsForModel this_model options analyzePolicies getModelResourceMeta
      lowerCaseFirst model zmodel = Ok paths ->
    NoDup (map f_name (m_fields zmodel)) ->
    (forall f, In f (m_fields zmodel) -> without "/" (f_name f) = true) ->
    let resource := lowerCaseFirst (mapModelName options (dm_name model)) in
    let relations := filter (isRelationshipField this_model) (m_fields zmodel) in
    obj_keys paths
      = [url_prefix options +++ "/" +++ resource;
         url_prefix options +++ "/" +++ resource +++ "/{id}"]
        ++ flat_map (fun f => [relatedDataPath (url_prefix options) resource (f_name f);
                               relationshipPath (url_prefix options) resource (f_name f)])
                    relations /\
    List.length paths = 2 + 2 * List.length relations.
Proof.
  intros model zmodel paths H Hnodup Hslash resource relations.
  unfold generatePathsForModel in H. ok_inv H.
  fold (url_prefix options) in H. fold resource in H.
  assert (Hne : url_prefix options +++ "/" +++ resource +++ "/{id}"
                <> url_prefix options +++ "/" +++ resource).
  { rewrite <- !append_assoc. apply item_not_resource. }
  assert (Hkeys :
    obj_keys paths
      = [url_prefix options +++ "/" +++ resource;
         url_prefix options +++ "/" +++ resource +++ "/{id}"]
        ++ flat_map (fun f => [relatedDataPath (url_prefix options) resource (f_name f);
                               relationshipPath (url_prefix options) resource (f_name f)])
                    relations).
  { rewrite (rounds_keys _ _ _ _ _ _ _ _ _ _ _ _ H Hnodup Hslash).
    - rewrite keys_set_fresh; [reflexivity|].
      cbn [obj_set obj_get].
      destruct (String.eqb_spec (url_prefix options +++ "/" +++ resource)
                  (url_prefix options +++ "/" +++ resource +++ "/{id}")) as [E|_];
        [exfalso; apply Hne; symmetry; exact E | reflexivity].
    - intros h Hh.
      destruct (resource_not_related (url_prefix options) resource (f_name h)) as [N1 N2].
      destruct (resource_not_relationship (url_prefix options) resource (f_name h))
        as [N3 N4].
      split; rewrite !obj_get_set_other by assumption; reflexivity. }
  split; [exact Hkeys|].
  apply (f_equal (@List.length string)) in Hkeys.
  unfold obj_keys in Hkeys. rewrite length_map in Hkeys. rewrite Hkeys.
  rewrite length_app. cbn [List.length]. f_equal. f_equal.
  clear. induction relations as [|f rest IH]; [reflexivity|].
  cbn [flat_map List.length app]. rewrite IH. lia.
Qed.

End EntityPathItems.

Section RelationPathItems.

Variable this_model : Model.
Variable options : PluginOptions.
Variable analyzePolicies : DataModel -> Policies.
Variable getModelResourceMeta : DataModel -> option ResourceMeta.
Variable lowerCaseFirst : string -> string.

(** Extra X5.  In the paths of an entity (field names distinct and free of
    slashes), the related-resource path of a relationship field carries GET
    only; its success response is the list response of the related entity
    for an array-valued field and the single response otherwise; and for a
    field that is not array-valued the operation takes the [id] and
    [include] parameters only. *)
Theorem X5_related_resource_path :
  forall (model : DMMFModel) (zmodel : DataModel) (paths : Obj),
    generatePathsForModel this_model options analyzePolicies getModelResourceMeta
      lowerCaseFirst model zmodel = Ok paths ->
    NoDup (map f_name (m_fields zmodel)) ->
    (forall f, In f (m_fields zmodel) -> without "/" (f_name f) = true) ->
    forall field relationDecl,
      In field (m_fields zmodel) ->
      ref_decl this_model (f_type field) = Some (DeclDataModel relationDecl) ->
      let path := relatedDataPath (url_prefix options)
                    (lowerCaseFirst (mapModelName options (dm_name model)))
                    (f_name field) in
      let op := prop "get" (prop path (JObj paths)) in
      methods paths path = ["get"] /\
      prop "200" (prop "responses" op)
        = success (Some (if t_array (f_type field)
                         then m_name relationDecl +++ "ListResponse"
                         else m_name relationDecl +++ "Response")) /\
      (t_array (f_type field) = false ->
       operation_parameters op = [parameter "id"; parameter "include"]).
Proof.
  intros model zmodel paths H Hnodup Hslash field rd Hin Hrd path op.
  destruct (generatePathsForModel_relation _ _ _ _ _ model zmodel paths H Hnodup Hslash
              field rd Hin Hrd) as (get & fetch & Hget & _ & Hitem & _).
  assert (Hop : op = get).
  { unfold op, path, prop at 2. rewrite Hitem. reflexivity. }
  rewrite Hop. split.
  - unfold methods, container_at, path. rewrite Hitem. reflexivity.
  - unfold makeRelatedFetch in Hget. ok_inv Hget. apply Ok_inj in Hget. subst get.
    split; [reflexivity|].
    intros Harray. rewrite Harray in Ha. apply Ok_inj in Ha. subst a. reflexivity.
Qed.

(** Extra X6.  In the paths of an entity (field names distinct and free of
    slashes), the operations at the relationships path of a relationship
    field use the to-many request and response schemas for an array-valued
    field and the to-one schemas otherwise; PUT and PATCH are named after
    the DMMF model and the field; and the fetch takes the [id] parameter
    only for a field that is not array-valued, and otherwise the [id],
    [sort] and pagination parameters followed by the filter parameters of
    the owning entity. *)
Theorem X6_relationship_operations :
  forall (model : DMMFModel) (zmodel : DataModel) (paths : Obj),
    generatePathsForModel this_model options analyzePolicies getModelResourceMeta
      lowerCaseFirst model zmodel = Ok paths ->
    NoDup (map f_name (m_fields zmodel)) ->
    (forall f, In f (m_fields zmodel) -> without "/" (f_name f) = true) ->
    forall field,
      In field (m_fields zmodel) ->
      isRelationshipField this_model field = true ->
      let path := relationshipPath (url_prefix options)
                    (lowerCaseFirst (mapModelName options (dm_name model)))
                    (f_name field) in
      let operation method := prop method (prop path (JObj paths)) in
      let body op :=
        prop "schema" (prop "application/vnd.api+json" (prop "content"
                                                          (prop "requestBody" op))) in
      let answer op := prop "200" (prop "responses" op) in
      let request :=
        ref (if t_array (f_type field)
             then "_toManyRelationshipRequest" else "_toOneRelationshipRequest") in
      let response :=
        success (Some (if t_array (f_type field)
                       then "_toManyRelationshipResponse"
                       else "_toOneRelationshipResponse")) in
      answer (operation "get") = response /\
      (body (operation "put") = request /\ answer (operation "put") = response) /\
      (body (operation "patch") = request /\ answer (operation "patch") = response) /\
      (t_array (f_type field) = true ->
       body (operation "post") = request /\ answer (operation "post") = response) /\
      operation_id (operation "put")
        = "update-" +++ dm_name model +++ "-relationship-" +++ f_name field +++ "-put" /\
      operation_id (operation "patch")
        = "update-" +++ dm_name model +++ "-relationship-" +++ f_name field +++ "-patch" /\
      (t_array (f_type field) = false ->
       operation_parameters (operation "get") = [parameter "id"]) /\
      (t_array (f_type field) = true ->
       exists filters,
         generateFilterParameters this_model zmodel = Ok filters /\
         operation_parameters (operation "get")
           = [parameter "id"] ++ collection_parameters ++ filters).
Proof.
  intros model zmodel paths H Hnodup Hslash field Hin Hrel path operation body answer
         request response.
  unfold isRelationshipField in Hrel.
  destruct (ref_decl this_model (f_type field)) as [[rd|e|t|n]|] eqn:Hrd;
    try discriminate.
  destruct (generatePathsForModel_relation _ _ _ _ _ model zmodel paths H Hnodup Hslash
              field rd Hin Hrd) as (get & fetch & _ & Hfetch & _ & Hitem).
  assert (Hat : prop path (JObj paths)
                = JObj (relationshipItem lowerCaseFirst model zmodel
                          (analyzePolicies zmodel) (getModelResourceMeta zmodel)
                          field fetch)).
  { unfold path, prop. rewrite Hitem. reflexivity. }
  unfold makeRelationshipFetch in Hfetch. ok_inv Hfetch. apply Ok_inj in Hfetch.
  subst fetch.
  unfold operation, body, answer, request, response. rewrite Hat.
  unfold relationshipItem, makeRelationshipUpdate.
  destruct (t_array (f_type field)) eqn:Harray.
  - ok_inv Ha. apply Ok_inj in Ha. subst a.
    repeat split; try reflexivity; try easy.
    exists a0. split; [exact Ha0 | reflexivity].
  - apply Ok_inj in Ha. subst a.
    repeat split; try reflexivity; easy.
Qed.

End RelationPathItems.

Lemma X3_resource_path_items_witness :
  exists paths,
    generatePathsForModel blog no_options no_policies no_meta sample_lowerCaseFirst
      {| dm_name := "User" |} User = Ok paths /\
    methods paths "/user" = ["get"; "post"] /\
    methods paths "/user/{id}" = ["get"; "put"; "patch"; "delete"].
Proof.
  destruct (generatePathsForModel blog no_options no_policies no_meta sample_lowerCaseFirst
              {| dm_name := "User" |} User) as [paths|msg] eqn:Hgen;
    [|vm_compute in Hgen; discriminate].
  exists paths. split; [reflexivity|].
  destruct (X3_resource_path_items blog no_options no_policies no_meta
              sample_lowerCaseFirst {| dm_name := "User" |} User paths Hgen)
    as (list & filters & _ & _ & _ & Hcollection & Hitem).
  change (obj_get "/user" paths = Some (JObj [("get", list);
            ("post", makeResourceCreate sample_lowerCaseFirst User (no_policies User)
                       (no_meta User))])) in Hcollection.
  unfold methods, container_at. rewrite Hcollection.
  split; [reflexivity|].
  change (url_prefix no_options +++ "/" +++
          sample_lowerCaseFirst (mapModelName no_options (dm_name {| dm_name := "User" |}))
          +++ "/{id}") with "/user/{id}" in Hitem.
  rewrite Hitem. reflexivity.
Defined.

Lemma X4_paths_of_entity_witness :
  exists paths,
    generatePathsForModel blog no_options no_policies no_meta sample_lowerCaseFirst
      {| dm_name := "Post" |} Post = Ok paths /\
    obj_keys paths
      = ["/post"; "/post/{id}"; "/post/{id}/author"; "/post/{id}/relationships/author"].
Proof.
  destruct (generatePathsForModel blog no_options no_policies no_meta sample_lowerCaseFirst
              {| dm_name := "Post" |} Post) as [paths|msg] eqn:Hgen;
    [|vm_compute in Hgen; discriminate].
  assert (Hnodup : NoDup (map f_name (m_fields Post))).
  { simpl. repeat constructor; simpl; intuition discriminate. }
  assert (Hslash : forall f, In f (m_fields Post) -> without "/" (f_name f) = true).
  { simpl. intros f [<-|[<-|[<-|[<-|[]]]]]; reflexivity. }
  exists paths. split; [reflexivity|].
  exact (proj1 (X4_paths_of_entity blog no_options no_policies no_meta
                  sample_lowerCaseFirst {| dm_name := "Post" |} Post paths Hgen
                  Hnodup Hslash)).
Defined.

Lemma X5_related_resource_path_witness :
  exists paths,
    generatePathsForModel blog no_options no_policies no_meta sample_lowerCaseFirst
      {| dm_name := "User" |} User = Ok paths /\
    methods paths "/user/{id}/posts" = ["get"] /\
    prop "200" (prop "responses" (prop "get" (prop "/user/{id}/posts" (JObj paths))))
      = success (Some "PostListResponse").
Proof.
  destruct (generatePathsForModel blog no_options no_policies no_meta sample_lowerCaseFirst
              {| dm_name := "User" |} User) as [paths|msg] eqn:Hgen;
    [|vm_compute in Hgen; discriminate].
  assert (Hnodup : NoDup (map f_name (m_fields User))).
  { simpl. repeat constructor; simpl; intuition discriminate. }
  assert (Hslash : forall f, In f (m_fields User) -> without "/" (f_name f) = true).
  { simpl. intros f [<-|[<-|[<-|[]]]]; reflexivity. }
  exists paths. split; [reflexivity|].
  destruct (X5_related_resource_path blog no_options no_policies no_meta
              sample_lowerCaseFirst {| dm_name := "User" |} User paths Hgen Hnodup Hslash
              (plain_field "posts" (relation "Post" true)) Post
              (or_intror (or_intror (or_introl eq_refl))) eq_refl)
    as (Hmethods & Hresponse & _).
  split; [exact Hmethods | exact Hresponse].
Defined.

Lemma X6_relationship_operations_witness :
  exists paths,
    generatePathsForModel blog no_options no_policies no_meta sample_lowerCaseFirst
      {| dm_name := "Post" |} Post = Ok paths /\
    let put := prop "put" (prop "/post/{id}/relationships/author" (JObj paths)) in
    prop "schema" (prop "application/vnd.api+json" (prop "content" (prop "requestBody" put)))
      = ref "_toOneRelationshipRequest" /\
    operation_id put = "update-Post-relationship-author-put".
Proof.
  destruct (generatePathsForModel blog no_options no_policies no_meta sample_lowerCaseFirst
              {| dm_name := "Post" |} Post) as [paths|msg] eqn:Hgen;
    [|vm_compute in Hgen; discriminate].
  assert (Hnodup : NoDup (map f_name (m_fields Post))).
  { simpl. repeat constructor; simpl; intuition discriminate. }
  assert (Hslash : forall f, In f (m_fields Post) -> without "/" (f_name f) = true).
  { simpl. intros f [<-|[<-|[<-|[<-|[]]]]]; reflexivity. }
  exists paths. split; [reflexivity|].
  destruct (X6_relationship_operations blog no_options no_policies no_meta
              sample_lowerCaseFirst {| dm_name := "Post" |} Post paths Hgen Hnodup Hslash
              (plain_field "author" (relation "User" false))
              (or_intror (or_intror (or_introl eq_refl))) eq_refl)
    as (_ & (Hbody & _) & _ & _ & Hid & _).
  split; [exact Hbody | exact Hid].
Defined.

(* ================================================================= *)
(** ** The filter parameters, one by one *)

Section FilterShape.

Variable this_model : Model.

(** [p] was built by [makeFilterParameter] for [field]. *)
Local Abbreviation made field p :=
  (exists name description isArray schemaOverride,
      makeFilterParameter this_model field name description isArray schemaOverride = Ok p).

Lemma filterParametersOfField_pushed multiple result field result' :
  filterParametersOfField this_model multiple result field = Ok result' ->
  exists pushed, result' = result ++ pushed /\ Forall (fun p => made field p) pushed.
Proof.
  unfold filterParametersOfField. intros H.
  destruct (isForeignKeyField field).
  { apply Ok_inj in H. subst result'. exists []. rewrite app_nil_r. auto. }
  destruct (isIdField field && negb multiple).
  { ok_inv H. apply Ok_inj in H. subst result'. exists [a]. split; [reflexivity|].
    apply Forall_cons; [eauto 6 | apply Forall_nil]. }
  ok_inv H.
  destruct (isRelationshipField this_model field).
  { apply Ok_inj in H. subst result'. exists [a]. split; [reflexivity|].
    apply Forall_cons; [eauto 6 | apply Forall_nil]. }
  destruct (t_array (f_type field)).
  { repeat ok_inv H. apply Ok_inj in H. subst result'.
    eexists (a :: _). split; [rewrite <- app_assoc; reflexivity|].
    repeat (apply Forall_cons; [eauto 6|]). apply Forall_nil. }
  ok_inv H.
  assert (Hcmp : exists pushed,
             a0 = (result ++ [a]) ++ pushed /\ Forall (fun p => made field p) pushed).
  { destruct (comparable (f_type field)).
    - repeat ok_inv Ha0. apply Ok_inj in Ha0. subst a0.
      eexists. split; [reflexivity|].
      repeat (apply Forall_cons; [eauto 6|]). apply Forall_nil.
    - apply Ok_inj in Ha0. subst a0. exists []. rewrite app_nil_r. auto. }
  destruct Hcmp as (cmp & -> & Hcmp).
  destruct (type_is (f_type field) "String").
  - repeat ok_inv H. apply Ok_inj in H. subst result'.
    eexists (a :: cmp ++ _). split; [rewrite <- !app_assoc; reflexivity|].
    apply Forall_cons; [eauto 6|]. rewrite Forall_app. split; [exact Hcmp|].
    repeat (apply Forall_cons; [eauto 6|]). apply Forall_nil.
  - apply Ok_inj in H. subst result'. exists (a :: cmp).
    split; [rewrite <- !app_assoc; reflexivity|].
    apply Forall_cons; [eauto 6 | exact Hcmp].
Qed.

Lemma generateFilterParameters_made model params :
  generateFilterParameters this_model model = Ok params ->
  Forall (fun p => exists field, In field (m_fields model) /\ made field p) params.
Proof.
  unfold generateFilterParameters.
  generalize (Nat.ltb 1 (List.length (filter isIdField (m_fields model)))) as multiple.
  intros multiple.
  assert (Hgeneral : forall fields result,
            foldM (filterParametersOfField this_model multiple) fields result = Ok params ->
            exists pushed,
              params = result ++ pushed /\
              Forall (fun p => exists field, In field fields /\ made field p) pushed).
  { induction fields as [|f rest IH]; cbn [foldM]; intros result H.
    - apply Ok_inj in H. subst params. exists []. rewrite app_nil_r. auto.
    - ok_inv H. apply filterParametersOfField_pushed in Ha.
      destruct Ha as (p1 & -> & H1). apply IH in H. destruct H as (p2 & -> & H2).
      exists (p1 ++ p2). split; [rewrite app_assoc; reflexivity|].
      rewrite Forall_app. split.
      + eapply Forall_impl; [|exact H1]. intros p Hp. exists f. split; [left; reflexivity|].
        exact Hp.
      + eapply Forall_impl; [|exact H2]. intros p (field & Hin & Hp).
        exists field. split; [right; exact Hin | exact Hp]. }
  intros H. apply Hgeneral in H. destruct H as (pushed & -> & H). exact H.
Qed.

(** Extra X7.  Every parameter [generateFilterParameters] returns is an
    optional, form-style, non-exploded query parameter, and the parameters
    come in the order of the fields: none for a foreign key, [filter[id]]
    for the single identifier, the equality filter alone for a relationship
    field, the equality filter and the four collection filters for an
    array-valued field, and otherwise the equality filter, the four
    comparison filters of a numeric or date field and the five string
    filters of a [String] field. *)
Theorem X7_filter_parameters :
  forall (model : DataModel) (params : list JSON),
    generateFilterParameters this_model model = Ok params ->
    Forall (fun p =>
              prop "in" p = JStr "query" /\
              prop "required" p = JBool false /\
              prop "style" p = JStr "form" /\
              prop "explode" p = JBool false)
           params /\
    map param_name params
      = flat_map (filterNamesOfField this_model (hasMultipleIds model)) (m_fields model).
Proof.
  intros model params H. split; [|apply generateFilterParameters_names; exact H].
  eapply Forall_impl; [|apply generateFilterParameters_made; exact H].
  intros p (field & _ & name & description & isArray & schemaOverride & Hp).
  unfold makeFilterParameter in Hp. ok_inv Hp. apply Ok_inj in Hp. subst p.
  repeat split.
Qed.

End FilterShape.

Lemma X7_filter_parameters_witness :
  exists params,
    generateFilterParameters blog Post = Ok params /\
    map param_name params
      = ["filter[id]"; "filter[title]"; "filter[title$contains]";
         "filter[title$icontains]"; "filter[title$search]"; "filter[title$startsWith]";
         "filter[title$endsWith]"; "filter[author]"].
Proof.
  eexists. split; [vm_compute; reflexivity|].
  refine (eq_trans
            (proj2 (X7_filter_parameters blog Post _ _)) _);
    [vm_compute; reflexivity | reflexivity].
Defined.

(* ================================================================= *)
(** ** The names of the filter parameters are distinct *)

Lemma NoDup_distinct (l : list string) : distinct l = true -> NoDup l.
Proof.
  induction l as [|x rest IH]; cbn [distinct]; intros H; [apply NoDup_nil|].
  apply andb_true_iff in H. destruct H as [Hx Hrest].
  apply NoDup_cons; [|apply IH; exact Hrest].
  intros Hin. apply mem_In in Hin. rewrite Hin in Hx. discriminate Hx.
Qed.

Lemma NoDup_map_injective {A B : Type} (f : A -> B) (l : list A) :
  (forall x y, f x = f y -> x = y) -> NoDup l -> NoDup (map f l).
Proof.
  intros Hf Hl. induction Hl as [|x l Hx Hl IH]; cbn [map]; [apply NoDup_nil|].
  apply NoDup_cons; [|exact IH].
  intros Hin. apply in_map_iff in Hin. destruct Hin as (y & E & Hy).
  apply Hf in E. subst y. contradiction.
Qed.

Lemma filterName_operator (n op op' : string) :
  filterName n op = filterName n op' -> op = op'.
Proof.
  unfold filterName. intros E.
  apply append_inj_l in E. apply append_inj_l in E.
  apply append_inj_r in E. exact E.
Qed.

(** An operator suffix: nothing, or a suffix that starts with [$]. *)
Local Abbreviation suffix op := (op = EmptyString \/ exists rest, op = String "$" rest).

Lemma subject_and_suffix (n n' op op' : string) :
  without "$" n = true -> without "$" n' = true -> suffix op -> suffix op' ->
  n +++ op = n' +++ op' -> n = n'.
Proof.
  revert n'. induction n as [|c n IH]; intros n' Hn Hn' Hop Hop' E.
  - destruct n' as [|c' n']; [reflexivity|]. exfalso.
    cbn [String.append] in E. cbn [without] in Hn'.
    apply andb_true_iff in Hn'. destruct Hn' as [Hc' _].
    destruct Hop as [->|[rest ->]]; [discriminate E|].
    injection E as <- _. discriminate Hc'.
  - cbn [without] in Hn. apply andb_true_iff in Hn. destruct Hn as [Hc Hn].
    destruct n' as [|c' n'].
    + exfalso. cbn [String.append] in E.
      destruct Hop' as [->|[rest ->]]; [discriminate E|].
      injection E as -> _. discriminate Hc.
    + cbn [String.append] in E. injection E as <- E.
      cbn [without] in Hn'. apply andb_true_iff in Hn'. destruct Hn' as [_ Hn'].
      f_equal. apply (IH n'); assumption.
Qed.

Lemma filterName_subject (n n' op op' : string) :
  without "$" n = true -> without "$" n' = true -> suffix op -> suffix op' ->
  filterName n op = filterName n' op' -> n = n'.
Proof.
  unfold filterName. intros Hn Hn' Hop Hop' E.
  apply append_inj_l in E. rewrite <- !append_assoc in E. apply append_inj_r in E.
  apply (subject_and_suffix n n' op op'); assumption.
Qed.

Section DistinctFilters.

Variable this_model : Model.
Variable multiple : bool.

(** What the names of the filters of a field are built around: [id] for
    the single identifier, the name of the field otherwise. *)
Local Abbreviation subject f :=
  (if isIdField f && negb multiple then "id" else f_name f).

Lemma filterNamesOfField_subject (f : DataModelField) (x : string) :
  In x (filterNamesOfField this_model multiple f) ->
  isForeignKeyField f = false /\
  exists op, suffix op /\ x = filterName (subject f) op.
Proof.
  unfold filterNamesOfField.
  destruct (isForeignKeyField f); [intros []|].
  intros Hin. split; [reflexivity|].
  destruct (isIdField f && negb multiple).
  { destruct Hin as [<-|[]]. exists EmptyString. split; [left; reflexivity | reflexivity]. }
  assert (Hmapped : forall ops,
            Forall (fun op => suffix op) ops ->
            In x (map (filterName (f_name f)) ops) ->
            exists op, suffix op /\ x = filterName (f_name f) op).
  { intros ops Hops Hx. apply in_map_iff in Hx. destruct Hx as (op & <- & Hop).
    rewrite Forall_forall in Hops. exists op. split; [apply Hops; exact Hop | reflexivity]. }
  assert (Hdollar : forall ops,
            forallb (fun op => match op with
                               | String c _ => (c =? "$")%char
                               | EmptyString => true
                               end) ops = true ->
            Forall (fun op => suffix op) ops).
  { intros ops Hops. apply Forall_forall. intros op Hop.
    rewrite forallb_forall in Hops. specialize (Hops op Hop).
    destruct op as [|c rest]; [left; reflexivity|].
    apply Ascii.eqb_eq in Hops. subst c. right. exists rest. reflexivity. }
  destruct Hin as [<-|Hin].
  { exists EmptyString. split; [left; reflexivity | reflexivity]. }
  destruct (isRelationshipField this_model f); [destruct Hin|].
  destruct (t_array (f_type f)).
  { refine (Hmapped _ _ Hin). apply Hdollar. reflexivity. }
  apply in_app_or in Hin. destruct Hin as [Hin|Hin].
  - destruct (comparable (f_type f)); [|destruct Hin].
    refine (Hmapped _ _ Hin). apply Hdollar. reflexivity.
  - destruct (type_is (f_type f) "String"); [|destruct Hin].
    refine (Hmapped _ _ Hin). apply Hdollar. reflexivity.
Qed.

Lemma filterNamesOfField_distinct (f : DataModelField) :
  NoDup (filterNamesOfField this_model multiple f).
Proof.
  unfold filterNamesOfField.
  destruct (isForeignKeyField f); [apply NoDup_nil|].
  destruct (isIdField f && negb multiple);
    [apply NoDup_cons; [intros [] | apply NoDup_nil]|].
  assert (Hmapped : forall ops,
            distinct ops = true ->
            NoDup (map (filterName (f_name f)) ops)).
  { intros ops Hops. apply NoDup_map_injective; [|apply NoDup_distinct; exact Hops].
    intros x y. apply filterName_operator. }
  destruct (isRelationshipField this_model f); [apply (Hmapped [EmptyString] eq_refl)|].
  destruct (t_array (f_type f)).
  { apply (Hmapped [EmptyString; "$has"; "$hasEvery"; "$hasSome"; "$isEmpty"] eq_refl). }
  destruct (comparable (f_type f)); destruct (type_is (f_type f) "String"); cbn [app].
  - apply (Hmapped [EmptyString; "$lt"; "$lte"; "$gt"; "$gte"; "$contains"; "$icontains";
                    "$search"; "$startsWith"; "$endsWith"] eq_refl).
  - apply (Hmapped [EmptyString; "$lt"; "$lte"; "$gt"; "$gte"] eq_refl).
  - apply (Hmapped [EmptyString; "$contains"; "$icontains"; "$search"; "$startsWith";
                    "$endsWith"] eq_refl).
  - apply (Hmapped [EmptyString] eq_refl).
Qed.

Lemma filterNames_distinct (fields : list DataModelField) :
  NoDup (map f_name fields) ->
  (forall f, In f fields -> without "$" (f_name f) = true) ->
  (multiple = false ->
   forall f, In f fields -> isForeignKeyField f = false -> f_name f = "id" ->
             isIdField f = true) ->
  (multiple = false ->
   List.length (filter (fun f => isIdField f && negb (isForeignKeyField f)) fields) <= 1) ->
  NoDup (flat_map (filterNamesOfField this_model multiple) fields).
Proof.
  induction fields as [|g rest IH]; intros Hnodup Hdollar Hid Hsingle;
    [apply NoDup_nil|].
  cbn [flat_map]. inversion Hnodup as [|x l Hnotin Hnodup']; subst.
  assert (Hrest : multiple = false ->
                  List.length (filter (fun f => isIdField f && negb (isForeignKeyField f))
                                      rest) <= 1).
  { intros Hm. specialize (Hsingle Hm). cbn [filter] in Hsingle.
    destruct (isIdField g && negb (isForeignKeyField g)); cbn [List.length] in Hsingle; lia. }
  apply NoDup_app.
  - apply filterNamesOfField_distinct.
  - apply IH; auto.
    + intros f Hf. apply Hdollar. right. exact Hf.
    + intros Hm f Hf. apply (Hid Hm). right. exact Hf.
  - intros x Hg Hin. apply in_flat_map in Hin. destruct Hin as (h & Hh & Hx).
    apply filterNamesOfField_subject in Hg. destruct Hg as (Hgfk & op & Hop & ->).
    apply filterNamesOfField_subject in Hx. destruct Hx as (Hhfk & op' & Hop' & E).
    assert (Hne : f_name g <> f_name h).
    { intros E'. apply Hnotin. rewrite E'. apply in_map. exact Hh. }
    assert (Hsubjects : forall f, In f (g :: rest) -> without "$" (subject f) = true).
    { intros f Hf. destruct (isIdField f && negb multiple); [reflexivity|].
      apply Hdollar. exact Hf. }
    apply filterName_subject in E;
      [| apply Hsubjects; left; reflexivity | apply Hsubjects; right; exact Hh
       | exact Hop | exact Hop'].
    destruct (isIdField g && negb multiple) eqn:Hgid;
      destruct (isIdField h && negb multiple) eqn:Hhid.
    + apply andb_true_iff in Hgid. destruct Hgid as [Hgid Hm].
      apply andb_true_iff in Hhid. destruct Hhid as [Hhid _].
      apply negb_true_iff in Hm. specialize (Hsingle Hm).
      cbn [filter] in Hsingle. rewrite Hgid, Hgfk in Hsingle.
      cbn [negb andb List.length] in Hsingle.
      assert (Hin : In h (filter (fun f => isIdField f && negb (isForeignKeyField f)) rest)).
      { apply filter_In. split; [exact Hh|]. rewrite Hhid, Hhfk. reflexivity. }
      destruct (filter (fun f => isIdField f && negb (isForeignKeyField f)) rest);
        [destruct Hin | cbn [List.length] in Hsingle; lia].
    + apply andb_true_iff in Hgid. destruct Hgid as [_ Hm].
      symmetry in E.
      apply (Hid (proj1 (negb_true_iff _) Hm) h (or_intror Hh) Hhfk) in E.
      rewrite E, Hm in Hhid. discriminate Hhid.
    + apply andb_true_iff in Hhid. destruct Hhid as [_ Hm].
      apply (Hid (proj1 (negb_true_iff _) Hm) g (or_introl eq_refl) Hgfk) in E.
      rewrite E, Hm in Hgid. discriminate Hgid.
    + contradiction.
Qed.

End DistinctFilters.

(** Extra X8.  For an entity whose field names are distinct and contain
    no [$], and where, unless the identifier is compound, a field named
    [id] that is no foreign key is an identifier field, the names of the
    filter parameters are pairwise distinct. *)
Theorem X8_filter_names_distinct :
  forall (this_model : Model) (model : DataModel) (params : list JSON),
    generateFilterParameters this_model model = Ok params ->
    NoDup (map f_name (m_fields model)) ->
    (forall f, In f (m_fields model) -> without "$" (f_name f) = true) ->
    (hasMultipleIds model = false ->
     forall f, In f (m_fields model) -> isForeignKeyField f = false ->
               f_name f = "id" -> isIdField f = true) ->
    NoDup (map param_name params).
Proof.
  intros this_model model params H Hnodup Hdollar Hid.
  rewrite (generateFilterParameters_names _ _ _ H).
  apply filterNames_distinct; try assumption.
  unfold hasMultipleIds. intros Hm. apply Nat.ltb_ge in Hm.
  eapply Nat.le_trans; [|exact Hm].
  clear. induction (m_fields model) as [|f rest IH]; [apply Nat.le_refl|].
  cbn [filter]. destruct (isIdField f); cbn [andb].
  - destruct (negb (isForeignKeyField f)); cbn [List.length]; lia.
  - exact IH.
Qed.

Lemma X8_filter_names_distinct_witness :
  exists params,
    generateFilterParameters blog Post = Ok params /\
    List.length params = 8 /\
    NoDup (map param_name params).
Proof.
  eexists. split; [vm_compute; reflexivity|]. split; [reflexivity|].
  apply (X8_filter_names_distinct blog Post).
  - vm_compute. reflexivity.
  - cbn. repeat constructor; cbn; intuition discriminate.
  - cbn [m_fields Post]. intros f [<-|[<-|[<-|[<-|[]]]]]; reflexivity.
  - cbn [m_fields Post]. intros _ f [<-|[<-|[<-|[<-|[]]]]] _ E;
      first [reflexivity | discriminate E].
Defined.

(* ================================================================= *)
(** ** When the generator throws *)

Lemma returns_Ok {A : Type} (a : A) : returns (Ok a).
Proof. exists a. reflexivity. Qed.

Lemma returns_Throw {A : Type} (msg : string) : ~ returns (@Throw A msg).
Proof. intros [a H]. discriminate H. Qed.

Lemma returns_bind {A B : Type} (c : Outcome A) (k : A -> Outcome B) :
  returns (bind c k) <-> exists a, c = Ok a /\ returns (k a).
Proof.
  split.
  - intros [b H]. destruct c as [a|m]; [|discriminate H].
    exists a. split; [reflexivity | exists b; exact H].
  - intros (a & -> & H). exact H.
Qed.

Lemma returns_bind_total {A B : Type} (c : Outcome A) (k : A -> Outcome B) :
  (forall a, returns (k a)) -> returns (bind c k) <-> returns c.
Proof.
  intros Hk. rewrite returns_bind. split.
  - intros (a & -> & _). apply returns_Ok.
  - intros [a ->]. exists a. split; [reflexivity | apply Hk].
Qed.

(** A loop whose rounds return or throw independently of the accumulator
    returns exactly when every round does. *)
Lemma foldM_returns {A S : Type} (body : S -> A -> Outcome S) (good : A -> bool)
    (xs : list A) :
  (forall acc x, In x xs -> returns (body acc x) <-> good x = true) ->
  forall acc, returns (foldM body xs acc) <-> forallb good xs = true.
Proof.
  induction xs as [|x rest IH]; intros Hbody acc.
  - cbn. split; [reflexivity | intros _; apply returns_Ok].
  - cbn [foldM forallb]. rewrite returns_bind, andb_true_iff. split.
    + intros (acc' & Hx & Hrest). split.
      * apply (Hbody acc x (or_introl eq_refl)). exists acc'. exact Hx.
      * apply (IH (fun a y Hy => Hbody a y (or_intror Hy)) acc'). exact Hrest.
    + intros [Hx Hrest].
      apply (Hbody acc x (or_introl eq_refl)) in Hx. destruct Hx as [acc' Hx].
      exists acc'. split; [exact Hx|].
      apply (IH (fun a y Hy => Hbody a y (or_intror Hy)) acc'). exact Hrest.
Qed.

Section Returns.

Variable this_model : Model.

Lemma isBuiltin_named (t : FieldType) :
  isBuiltin t = true ->
  exists x, t_type t = Some x /\ truthy (JStr x) = true.
Proof.
  unfold isBuiltin, builtinTypes, type_is. cbn [existsb].
  destruct (t_type t) as [x|]; [|discriminate].
  intros H. exists x. split; [reflexivity|].
  repeat (apply orb_true_iff in H; destruct H as [H|H];
          [apply String.eqb_eq in H; subst x; reflexivity|]).
  discriminate H.
Qed.

Lemma fieldTypeToOpenAPISchema_returns (t : FieldType) :
  returns (fieldTypeToOpenAPISchema this_model t) <-> convertible this_model t = true.
Proof.
  unfold fieldTypeToOpenAPISchema, convertible, isBuiltin, builtinTypes.
  cbn [existsb].
  repeat match goal with
         | |- context [type_is t ?n] =>
             destruct (type_is t n);
             [split; [reflexivity | intros _; apply returns_Ok]|]
         end.
  cbn [orb].
  destruct (ref_decl this_model t).
  - split; [reflexivity | intros _; apply returns_Ok].
  - split; [intros H; apply returns_Throw in H; contradiction | discriminate].
Qed.

Lemma ref_decl_typed (t : FieldType) (n : string) :
  ref_decl this_model t <> Some (DeclOther n).
Proof.
  intros E. unfold ref_decl in E.
  apply (resolve_declared this_model) in E. destruct E as [_ E]. discriminate E.
Qed.

Lemma makeFilterParameter_returns field name description isArray schemaOverride :
  returns (makeFilterParameter this_model field name description isArray schemaOverride)
  <-> schemaOverride <> None \/ convertible this_model (f_type field) = true.
Proof.
  unfold makeFilterParameter.
  rewrite returns_bind_total by (intros a; apply returns_Ok).
  destruct schemaOverride as [s|].
  { split; [intros _; left; discriminate | intros _; apply returns_Ok]. }
  assert (Hright : forall Q : Prop,
            (Q <-> convertible this_model (f_type field) = true) ->
            (Q <-> @None JSON <> None \/ convertible this_model (f_type field) = true)).
  { intros Q HQ. rewrite HQ. split; [auto | intros [H|H]; [contradiction | exact H]]. }
  apply Hright.
  destruct (ref_decl this_model (f_type field)) as [[m|e|td|n]|] eqn:Hd.
  - unfold convertible. rewrite Hd, orb_true_r.
    split; [reflexivity | intros _; apply returns_Ok].
  - unfold convertible. rewrite Hd, orb_true_r.
    split; [reflexivity | intros _; apply returns_Ok].
  - unfold convertible. rewrite Hd, orb_true_r. cbn [isTypeDef orb].
    split; [reflexivity | intros _; apply returns_Ok].
  - exfalso. exact (ref_decl_typed _ _ Hd).
  - cbn [isTypeDef orb].
    destruct (type_is (f_type field) "Json") eqn:Hjson.
    + unfold convertible, isBuiltin, builtinTypes. cbn [existsb].
      rewrite Hjson, !orb_true_r.
      split; [reflexivity | intros _; apply returns_Ok].
    + rewrite returns_bind. rewrite <- fieldTypeToOpenAPISchema_returns. split.
      * intros (u & _ & H). exact H.
      * intros H. exists tt. split; [|exact H].
        apply fieldTypeToOpenAPISchema_returns in H.
        unfold convertible in H. rewrite Hd, orb_false_r in H.
        apply isBuiltin_named in H. destruct H as (x & -> & ->). reflexivity.
Qed.

Lemma filterParametersOfField_returns multiple result field :
  returns (filterParametersOfField this_model multiple result field)
  <-> isForeignKeyField field || convertible this_model (f_type field) = true.
Proof.
  unfold filterParametersOfField.
  destruct (isForeignKeyField field); cbn [orb].
  { split; [reflexivity | intros _; apply returns_Ok]. }
  destruct (convertible this_model (f_type field)) eqn:Hc.
  - split; [reflexivity | intros _].
    assert (Hmade : forall name description isArray schemaOverride,
              exists p, makeFilterParameter this_model field name description isArray
                          schemaOverride = Ok p).
    { intros. apply makeFilterParameter_returns. right. exact Hc. }
    repeat match goal with
           | |- context [makeFilterParameter this_model field ?n ?d ?a ?o] =>
               let p := fresh "p" in
               let Hp := fresh "Hp" in
               destruct (Hmade n d a o) as [p Hp]; rewrite Hp; clear Hp
           end.
    cbn [bind].
    repeat match goal with
           | |- context [if ?b then _ else _] => destruct b
           end;
      cbn [bind]; apply returns_Ok.
  - split; [|discriminate].
    intros [r H]. exfalso.
    assert (Hnone : forall name description isArray p,
              makeFilterParameter this_model field name description isArray None = Ok p ->
              False).
    { intros name description isArray p Hp.
      assert (Hr : returns (makeFilterParameter this_model field name description isArray
                              None)) by (exists p; exact Hp).
      apply makeFilterParameter_returns in Hr.
      destruct Hr as [Hr|Hr]; [apply Hr; reflexivity | congruence]. }
    destruct (isIdField field && negb multiple); ok_inv H; eapply Hnone; eassumption.
Qed.

Lemma generateFilterParameters_returns (model : DataModel) :
  returns (generateFilterParameters this_model model) <-> filterable this_model model = true.
Proof.
  unfold generateFilterParameters, filterable.
  apply foldM_returns. intros acc x _. apply filterParametersOfField_returns.
Qed.

End Returns.

Section ReturnsComponents.

Variable this_model : Model.
Variable wrapNullable : JSON -> bool -> JSON.

Lemma generateField_returns (t : FieldType) :
  returns (generateField this_model wrapNullable t) <-> convertible this_model t = true.
Proof.
  unfold generateField.
  rewrite returns_bind_total by (intros a; apply returns_Ok).
  apply fieldTypeToOpenAPISchema_returns.
Qed.

Lemma relationship_convertible (f : DataModelField) :
  isRelationshipField this_model f = true -> convertible this_model (f_type f) = true.
Proof.
  unfold isRelationshipField, convertible.
  destruct (ref_decl this_model (f_type f)); [intros _; apply orb_true_r | discriminate].
Qed.

Lemma entityPartsOfField_returns mode acc field :
  returns (entityPartsOfField this_model wrapNullable mode acc field)
  <-> negb (exposedIn mode field) || convertible this_model (f_type field) = true.
Proof.
  unfold entityPartsOfField, exposedIn. rewrite negb_involutive.
  destruct (isForeignKeyField field && negb (is_read mode)); cbn [orb].
  { split; [reflexivity | intros _; apply returns_Ok]. }
  destruct (isRelationshipField this_model field) eqn:Hrel.
  { rewrite (relationship_convertible _ Hrel).
    split; [reflexivity | intros _; apply returns_Ok]. }
  rewrite returns_bind_total by (intros a; apply returns_Ok).
  apply generateField_returns.
Qed.

(** The identifier schema of [generateModelEntity] can be built. *)
Local Abbreviation idConvertible model :=
  (match filter isIdField (m_fields model) with
   | [idField] => convertible this_model (f_type idField)
   | _ => true
   end).

Lemma generateModelEntity_returns (model : DataModel) (mode : Mode) :
  returns (generateModelEntity this_model wrapNullable model mode)
  <-> forallb (fun f => negb (exposedIn mode f) || convertible this_model (f_type f))
              (entityFields model) = true /\
      idConvertible model = true.
Proof.
  assert (Hloop : forall acc,
            returns (foldM (entityPartsOfField this_model wrapNullable mode)
                           (entityFields model) acc)
            <-> forallb (fun f => negb (exposedIn mode f)
                                  || convertible this_model (f_type f))
                        (entityFields model) = true).
  { apply foldM_returns. intros acc x _. apply entityPartsOfField_returns. }
  assert (Hid :
    returns (match filter isIdField (m_fields model) with
             | [idField] => fieldTypeToOpenAPISchema this_model (f_type idField)
             | _ => Ok (JObj [("type", JStr "string")])
             end)
    <-> idConvertible model = true).
  { destruct (filter isIdField (m_fields model)) as [|idField [|other rest]].
    - split; [reflexivity | intros _; apply returns_Ok].
    - apply fieldTypeToOpenAPISchema_returns.
    - split; [reflexivity | intros _; apply returns_Ok]. }
  rewrite <- Hid, <- (Hloop {| attributes := []; relationships := []; required := [] |}).
  unfold generateModelEntity. fold (entityFields model).
  split.
  - intros [schema H]. ok_inv H. cbv zeta in H. ok_inv H.
    split; [exists a; exact Ha | exists a0; exact Ha0].
  - intros [[parts Hparts] [schema Hschema]].
    rewrite Hparts. cbn [bind]. cbv zeta. rewrite Hschema. cbn [bind].
    match goal with
    | |- returns (let '(_, _) := ?e in _) => destruct e
    end.
    apply returns_Ok.
Qed.

Lemma entityFields_incl (model : DataModel) (f : DataModelField) :
  In f (entityFields model) -> In f (m_fields model).
Proof.
  unfold entityFields.
  destruct (Nat.ltb 1 (List.length (filter isIdField (m_fields model)))); [auto|].
  intros H. apply filter_In in H. tauto.
Qed.

Lemma describable_entity (model : DataModel) (mode : Mode) :
  describable this_model model = true ->
  returns (generateModelEntity this_model wrapNullable model mode).
Proof.
  unfold describable. rewrite forallb_forall. intros Hall.
  apply generateModelEntity_returns. split.
  - apply forallb_forall. intros f Hf. apply entityFields_incl in Hf.
    rewrite (Hall f Hf). apply orb_true_r.
  - destruct (filter isIdField (m_fields model)) as [|idField [|other rest]] eqn:E;
      try reflexivity.
    apply Hall.
    assert (Hin : In idField (filter isIdField (m_fields model)))
      by (rewrite E; left; reflexivity).
    apply filter_In in Hin. tauto.
Qed.

Lemma entity_describable (model : DataModel) :
  returns (generateModelEntity this_model wrapNullable model ModeRead) ->
  describable this_model model = true.
Proof.
  intros H. apply generateModelEntity_returns in H. destruct H as [Hloop Hid].
  rewrite forallb_forall in Hloop.
  unfold describable. apply forallb_forall. intros f Hf.
  assert (Hentity : In f (entityFields model) -> convertible this_model (f_type f) = true).
  { intros Hin. apply Hloop in Hin. unfold exposedIn in Hin. cbn [is_read negb] in Hin.
    rewrite andb_false_r in Hin. exact Hin. }
  unfold entityFields in Hentity.
  destruct (isIdField f) eqn:Hisid.
  - assert (Hin : In f (filter isIdField (m_fields model)))
      by (apply filter_In; split; assumption).
    destruct (filter isIdField (m_fields model)) as [|idField [|other rest]].
    + destruct Hin.
    + destruct Hin as [<-|[]]. exact Hid.
    + apply Hentity. exact Hf.
  - destruct (Nat.ltb 1 (List.length (filter isIdField (m_fields model))));
      apply Hentity; [exact Hf|].
    apply filter_In. split; [exact Hf | rewrite Hisid; reflexivity].
Qed.

Lemma generateDataModelComponents_returns (model : DataModel) :
  returns (generateDataModelComponents this_model wrapNullable model)
  <-> describable this_model model = true.
Proof.
  split.
  - intros [components H]. unfold generateDataModelComponents in H. ok_inv H.
    apply entity_describable. exists a. exact Ha.
  - intros H. unfold generateDataModelComponents.
    destruct (describable_entity model ModeRead H) as [read ->].
    destruct (describable_entity model ModeCreate H) as [create ->].
    destruct (describable_entity model ModeUpdate H) as [update ->].
    apply returns_Ok.
Qed.

Lemma generateTypeDefComponent_returns (typeDef : TypeDef) :
  returns (generateTypeDefComponent this_model wrapNullable typeDef)
  <-> describableTypeDef this_model typeDef = true.
Proof.
  unfold generateTypeDefComponent, describableTypeDef.
  rewrite returns_bind_total by (intros a; apply returns_Ok).
  apply foldM_returns. intros acc x _.
  rewrite returns_bind_total by (intros a; apply returns_Ok).
  apply generateField_returns.
Qed.

Lemma generateSchemas_returns (getDataModels : list DataModel) :
  returns (generateSchemas this_model getDataModels wrapNullable)
  <-> forallb (describable this_model) getDataModels = true /\
      forallb (describableTypeDef this_model) (declared_typeDefs this_model) = true.
Proof.
  unfold generateSchemas. cbv zeta.
  assert (Hmodels : forall acc,
    returns (foldM (fun schemas model =>
                      components <- generateDataModelComponents this_model wrapNullable
                                      model ;;
                      Ok (spread schemas components))
                   getDataModels acc)
    <-> forallb (describable this_model) getDataModels = true).
  { apply foldM_returns. intros acc x _.
    rewrite returns_bind_total by (intros a; apply returns_Ok).
    apply generateDataModelComponents_returns. }
  assert (HtypeDefs : forall acc,
    returns (foldM (fun schemas typeDef =>
                      component <- generateTypeDefComponent this_model wrapNullable
                                     typeDef ;;
                      Ok (obj_set (td_name typeDef) component schemas))
                   (declared_typeDefs this_model) acc)
    <-> forallb (describableTypeDef this_model) (declared_typeDefs this_model) = true).
  { apply foldM_returns. intros acc x _.
    rewrite returns_bind_total by (intros a; apply returns_Ok).
    apply generateTypeDefComponent_returns. }
  rewrite returns_bind. split.
  - intros (schemas & Hschemas & Hrest). split.
    + eapply Hmodels. exists schemas. exact Hschemas.
    + eapply HtypeDefs. exact Hrest.
  - intros [H1 H2].
    eapply Hmodels in H1. destruct H1 as [schemas H1].
    exists schemas. split; [exact H1|]. apply HtypeDefs. exact H2.
Qed.

End ReturnsComponents.

Section ReturnsPaths.

Variable this_model : Model.
Variable options : PluginOptions.
Variable analyzePolicies : DataModel -> Policies.
Variable getModelResourceMeta : DataModel -> option ResourceMeta.
Variable lowerCaseFirst : string -> string.
Variable includedModels : list DataModel.

Lemma pathsOfField_returns (prefix modelName : string) (model : DMMFModel)
    (zmodel : DataModel) (policies : Policies) (resourceMeta : option ResourceMeta)
    (result : Obj) (field : DataModelField) :
  filterable this_model zmodel = true ->
  returns (pathsOfField this_model analyzePolicies lowerCaseFirst prefix modelName model
             zmodel policies resourceMeta result field).
Proof.
  intros H. apply generateFilterParameters_returns in H. destruct H as [filters Hfilters].
  unfold pathsOfField.
  destruct (ref_decl this_model (f_type field)) as [[rd|e|t|n]|]; try apply returns_Ok.
  unfold makeRelatedFetch, makeRelationshipFetch. rewrite Hfilters.
  destruct (t_array (f_type field)); apply returns_Ok.
Qed.

Lemma generatePathsForModel_returns (model : DMMFModel) (zmodel : DataModel) :
  returns (generatePathsForModel this_model options analyzePolicies getModelResourceMeta
             lowerCaseFirst model zmodel)
  <-> filterable this_model zmodel = true.
Proof.
  split.
  - intros [paths H]. unfold generatePathsForModel in H. ok_inv H.
    unfold makeResourceList in Ha. ok_inv Ha.
    apply generateFilterParameters_returns. exists a0. exact Ha0.
  - intros H. unfold generatePathsForModel.
    assert (Hlist : returns (makeResourceList this_model lowerCaseFirst zmodel
                               (analyzePolicies zmodel) (getModelResourceMeta zmodel))).
    { unfold makeResourceList.
      rewrite returns_bind_total by (intros a; apply returns_Ok).
      apply generateFilterParameters_returns. exact H. }
    destruct Hlist as [list ->]. cbn [bind]. cbv zeta.
    match goal with
    | |- returns (foldM _ _ ?start) => generalize start
    end.
    induction (m_fields zmodel) as [|g rest IH]; intros result; [apply returns_Ok|].
    cbn [foldM]. apply returns_bind.
    destruct (pathsOfField_returns
                (if endsWith_slash (getOption (o_prefix options) EmptyString)
                 then drop_last (getOption (o_prefix options) EmptyString)
                 else getOption (o_prefix options) EmptyString)
                (mapModelName options (dm_name model)) model zmodel
                (analyzePolicies zmodel) (getModelResourceMeta zmodel) result g H)
      as [result' Hround].
    exists result'. split; [exact Hround | apply IH].
Qed.

Lemma loop_returns (models : list DMMFModel) (result : Obj) (warnings : list string) :
  returns (fst (generatePaths_loop this_model options analyzePolicies getModelResourceMeta
                  lowerCaseFirst includedModels models result warnings))
  <-> forallb (servable this_model includedModels) models = true.
Proof.
  revert result warnings.
  induction models as [|m rest IH]; intros result warnings.
  - cbn. split; [reflexivity | intros _; apply returns_Ok].
  - rewrite loop_cons. cbn [forallb]. unfold servable at 1, isIncluded.
    destruct (mem (dm_name m) (map m_name includedModels)); cbn [negb orb andb];
      [|apply IH].
    destruct (findZModel this_model (dm_name m)) as [zmodel|]; [|apply IH].
    destruct (generatePathsForModel this_model options analyzePolicies getModelResourceMeta
                lowerCaseFirst m zmodel) as [paths|e] eqn:Hgen.
    + assert (Hfilterable : filterable this_model zmodel = true).
      { apply (generatePathsForModel_returns m). exists paths. exact Hgen. }
      rewrite Hfilterable. cbn [andb]. apply IH.
    + assert (Hfilterable : filterable this_model zmodel = false).
      { destruct (filterable this_model zmodel) eqn:E; [|reflexivity].
        apply (generatePathsForModel_returns m) in E. destruct E as [paths E].
        rewrite Hgen in E. discriminate E. }
      rewrite Hfilterable. cbn [fst andb].
      split; [intros H; apply returns_Throw in H; contradiction | discriminate].
Qed.

End ReturnsPaths.

(** Extra X9.  [generateFilterParameters] returns exactly when every
    field of the entity that is not a foreign key has a built-in scalar
    type or a type reference that resolves to a declaration; otherwise it
    throws. *)
Theorem X9_filter_parameters_return :
  forall (this_model : Model) (model : DataModel),
    (exists params, generateFilterParameters this_model model = Ok params) <->
    (forall f, In f (m_fields model) -> isForeignKeyField f = false ->
               convertible this_model (f_type f) = true).
Proof.
  intros this_model model.
  fold (returns (generateFilterParameters this_model model)).
  rewrite generateFilterParameters_returns. unfold filterable.
  rewrite forallb_forall. split.
  - intros H f Hf Hfk. specialize (H f Hf). rewrite Hfk in H. exact H.
  - intros H f Hf. destruct (isForeignKeyField f) eqn:Hfk; [reflexivity|].
    apply H; assumption.
Qed.

(** Extra X10.  [generateComponents] returns exactly when every field of
    every data model [getDataModels] returns, and every field of every
    declared type definition, has a built-in scalar type or a type
    reference that resolves to a declaration; otherwise it throws. *)
Theorem X10_components_return :
  forall (this_model : Model) (getDataModels : list DataModel)
         (wrapNullable : JSON -> bool -> JSON),
    (exists components,
        generateComponents this_model getDataModels wrapNullable = Ok components) <->
    (forall zmodel f, In zmodel getDataModels -> In f (m_fields zmodel) ->
                      convertible this_model (f_type f) = true) /\
    (forall typeDef f, In typeDef (declared_typeDefs this_model) ->
                       In f (td_fields typeDef) ->
                       convertible this_model (tf_type f) = true).
Proof.
  intros this_model getDataModels wrapNullable.
  fold (returns (generateComponents this_model getDataModels wrapNullable)).
  unfold generateComponents.
  rewrite returns_bind_total by (intros a; apply returns_Ok).
  rewrite generateSchemas_returns.
  rewrite !forallb_forall. unfold describable, describableTypeDef. split.
  - intros [H1 H2]. split.
    + intros zmodel f Hz Hf. specialize (H1 zmodel Hz).
      rewrite forallb_forall in H1. apply H1. exact Hf.
    + intros typeDef f Ht Hf. specialize (H2 typeDef Ht).
      rewrite forallb_forall in H2. apply H2. exact Hf.
  - intros [H1 H2]. split.
    + intros zmodel Hz. apply forallb_forall. intros f Hf. apply (H1 zmodel f Hz Hf).
    + intros typeDef Ht. apply forallb_forall. intros f Hf. apply (H2 typeDef f Ht Hf).
Qed.

(** When [generate] returns a document. *)
Lemma generate_returns :
  forall (this_model : Model) (options : PluginOptions) (dmmf_models : list DMMFModel)
         (analyzePolicies : DataModel -> Policies)
         (getModelResourceMeta : DataModel -> option ResourceMeta)
         (lowerCaseFirst : string -> string)
         (getDataModels includedModels : list DataModel)
         (wrapNullable : JSON -> bool -> JSON) (generateSecuritySchemes : Outcome JSON)
         (DEFAULT_SPEC_VERSION : string) (this : Generator),
    (exists doc,
        fst (generate this_model options dmmf_models analyzePolicies getModelResourceMeta
               lowerCaseFirst getDataModels includedModels wrapNullable
               generateSecuritySchemes DEFAULT_SPEC_VERSION this) = Ok doc) <->
    o_output options <> None /\
    forallb (describable this_model) getDataModels = true /\
    forallb (describableTypeDef this_model) (declared_typeDefs this_model) = true /\
    (forall m zmodel,
        In m dmmf_models -> isIncluded includedModels m = true ->
        findZModel this_model (dm_name m) = Some zmodel ->
        filterable this_model zmodel = true) /\
    (exists securitySchemes, generateSecuritySchemes = Ok securitySchemes).
Proof.
  intros.
  assert (Hservable :
    forallb (servable this_model includedModels) dmmf_models = true <->
    (forall m zmodel,
        In m dmmf_models -> isIncluded includedModels m = true ->
        findZModel this_model (dm_name m) = Some zmodel ->
        filterable this_model zmodel = true)).
  { rewrite forallb_forall. unfold servable. split.
    - intros H m zmodel Hm Hincluded Hfind. specialize (H m Hm).
      rewrite Hincluded, Hfind in H. exact H.
    - intros H m Hm. destruct (isIncluded includedModels m) eqn:Hincluded; [|reflexivity].
      cbn [negb orb].
      destruct (findZModel this_model (dm_name m)) as [zmodel|] eqn:Hfind; [|reflexivity].
      apply (H m zmodel); auto. }
  rewrite <- Hservable.
  rewrite <- (loop_returns this_model options analyzePolicies getModelResourceMeta
                lowerCaseFirst includedModels dmmf_models [] (warnings this)).
  fold (generatePaths this_model options dmmf_models analyzePolicies getModelResourceMeta
          lowerCaseFirst includedModels (warnings this)).
  assert (Hschemas :
    returns (generateSchemas this_model getDataModels wrapNullable) <->
    forallb (describable this_model) getDataModels = true /\
    forallb (describableTypeDef this_model) (declared_typeDefs this_model) = true)
    by apply generateSchemas_returns.
  unfold generate, generateComponents.
  destruct (o_output options) as [output|].
  - destruct (generateSchemas this_model getDataModels wrapNullable) as [generated|e].
    + cbn [bind].
      destruct (generatePaths _ _ _ _ _ _ _ _) as [[paths|e] w].
      * destruct generateSecuritySchemes as [securitySchemes|e]; cbn [fst].
        -- split.
           ++ intros _. split; [discriminate|].
              destruct (proj1 Hschemas (returns_Ok generated)) as [H1 H2].
              repeat split; try assumption; [apply returns_Ok | eexists; reflexivity].
           ++ intros _. eexists. reflexivity.
        -- split; [intros [doc H]; discriminate H|].
           intros (_ & _ & _ & _ & [s H]). discriminate H.
      * cbn [fst]. split; [intros [doc H]; discriminate H|].
        intros (_ & _ & _ & H & _). exfalso. apply returns_Throw in H. exact H.
    + cbn [bind fst]. split; [intros [doc H]; discriminate H|].
      intros (_ & H1 & H2 & _).
      exfalso. apply (@returns_Throw Obj e). apply Hschemas. split; assumption.
  - cbn [fst]. split; [intros [doc H]; discriminate H|].
    intros (H & _). exfalso. apply H. reflexivity.
Qed.

(** Extra X11.  [generate] returns a document exactly when the [output]
    option is set, every field of the data models [getDataModels] returns
    and of the declared type definitions has a built-in scalar type or a
    type reference that resolves to a declaration, so has every field that
    is no foreign key of the ZModel declaration of every included DMMF
    model, and [generateSecuritySchemes] returns; otherwise it throws. *)
Theorem X11_generate_returns :
  forall (this_model : Model) (options : PluginOptions) (dmmf_models : list DMMFModel)
         (analyzePolicies : DataModel -> Policies)
         (getModelResourceMeta : DataModel -> option ResourceMeta)
         (lowerCaseFirst : string -> string)
         (getDataModels includedModels : list DataModel)
         (wrapNullable : JSON -> bool -> JSON) (generateSecuritySchemes : Outcome JSON)
         (DEFAULT_SPEC_VERSION : string) (this : Generator),
    (exists doc,
        fst (generate this_model options dmmf_models analyzePolicies getModelResourceMeta
               lowerCaseFirst getDataModels includedModels wrapNullable
               generateSecuritySchemes DEFAULT_SPEC_VERSION this) = Ok doc) <->
    o_output options <> None /\
    (forall zmodel f, In zmodel getDataModels -> In f (m_fields zmodel) ->
                      convertible this_model (f_type f) = true) /\
    (forall typeDef f, In typeDef (declared_typeDefs this_model) ->
                       In f (td_fields typeDef) ->
                       convertible this_model (tf_type f) = true) /\
    (forall m zmodel f,
        In m dmmf_models -> isIncluded includedModels m = true ->
        findZModel this_model (dm_name m) = Some zmodel ->
        In f (m_fields zmodel) -> isForeignKeyField f = false ->
        convertible this_model (f_type f) = true) /\
    (exists securitySchemes, generateSecuritySchemes = Ok securitySchemes).
Proof.
  intros. rewrite generate_returns.
  unfold describable, describableTypeDef, filterable.
  rewrite !forallb_forall.
  split; intros (Houtput & Hmodels & HtypeDefs & Hpaths & Hsecurity);
    (split; [exact Houtput|]); (split; [|split; [|split; [|exact Hsecurity]]]).
  - intros zmodel f Hz Hf. specialize (Hmodels zmodel Hz).
    rewrite forallb_forall in Hmodels. apply Hmodels. exact Hf.
  - intros typeDef f Ht Hf. specialize (HtypeDefs typeDef Ht).
    rewrite forallb_forall in HtypeDefs. apply HtypeDefs. exact Hf.
  - intros m zmodel f Hm Hincluded Hfind Hf Hfk.
    specialize (Hpaths m zmodel Hm Hincluded Hfind).
    rewrite forallb_forall in Hpaths. specialize (Hpaths f Hf).
    rewrite Hfk in Hpaths. exact Hpaths.
  - intros zmodel Hz. apply forallb_forall. intros f Hf. apply (Hmodels zmodel f Hz Hf).
  - intros typeDef Ht. apply forallb_forall. intros f Hf.
    apply (HtypeDefs typeDef f Ht Hf).
  - intros m zmodel Hm Hincluded Hfind. apply forallb_forall. intros f Hf.
    destruct (isForeignKeyField f) eqn:Hfk; [reflexivity|].
    apply (Hpaths m zmodel f); assumption.
Qed.

Lemma X9_filter_parameters_return_witness :
  let unsupported :=
    {| t_type := None; t_reference := None; t_array := false; t_optional := false |} in
  let place :=
    {| m_name := "Place";
       m_fields := [id_field "id" []; plain_field "location" unsupported;
                    foreign_key "ownerId" false] |} in
  (exists params, generateFilterParameters blog Profile = Ok params) /\
  exists msg, generateFilterParameters blog place = Throw msg.
Proof.
  intros unsupported place. split; [|eexists; reflexivity].
  apply (proj2 (X9_filter_parameters_return blog Profile)).
  intros f [<-|[<-|[]]] Hfk; [discriminate Hfk | reflexivity].
Defined.

Lemma X11_generate_returns_witness :
  exists doc,
    fst (generate blog no_options [{| dm_name := "User" |}; {| dm_name := "Ghost" |}]
           no_policies no_meta sample_lowerCaseFirst [User; Post] [User] sample_wrapNullable
           (Ok JUndefined) "3.1.0" {| warnings := [] |}) = Ok doc.
Proof.
  apply (proj2 (X11_generate_returns blog no_options
                  [{| dm_name := "User" |}; {| dm_name := "Ghost" |}] no_policies no_meta
                  sample_lowerCaseFirst [User; Post] [User] sample_wrapNullable
                  (Ok JUndefined) "3.1.0" {| warnings := [] |})).
  split; [discriminate|]. split; [|split; [|split]].
  - intros zmodel f [<-|[<-|[]]] Hf; cbn [m_fields User Post In] in Hf;
      repeat (destruct Hf as [<-|Hf]; [reflexivity|]); destruct Hf.
  - intros typeDef f Ht. vm_compute in Ht. destruct Ht.
  - intros m zmodel f [<-|[<-|[]]] Hincluded Hfind; vm_compute in Hfind;
      [|discriminate Hfind].
    injection Hfind as <-. intros Hf _. cbn [m_fields In] in Hf.
    repeat (destruct Hf as [<-|Hf]; [reflexivity|]). destruct Hf.
  - eexists. reflexivity.
Defined.

(* ================================================================= *)
(** ** What holds of every operation *)

Lemma In_operations (paths : Obj) (path method : string) (op : JSON) :
  In (path, method, op) (operations paths) <->
  exists item, In (path, item) paths /\ In (method, op) (spread_obj item).
Proof.
  unfold operations. rewrite in_flat_map. split.
  - intros ([p item] & Hentry & Hop). cbn [fst snd] in Hop.
    apply in_map_iff in Hop. destruct Hop as ([m o] & E & Hin).
    cbn [fst snd] in E. injection E as -> -> ->.
    exists item. split; assumption.
  - intros (item & Hentry & Hop). exists (path, item). split; [assumption|].
    cbn [fst snd]. apply in_map_iff. exists (method, op). split; [reflexivity|assumption].
Qed.

Section EveryOperation.

Variable P : string -> JSON -> Prop.

(** Every operation of the path item at [path] satisfies [P]. *)
Local Abbreviation item_ok path c := (forall method op, In (method, op) c -> P path op).

Lemma all_placed_empty : all_placed_operations P [].
Proof. intros path method op []. Qed.

Lemma all_placed_set (path : string) (item result : Obj) :
  all_placed_operations P result -> item_ok path item ->
  all_placed_operations P (obj_set path (JObj item) result).
Proof.
  intros Hresult Hitem p m op Hin.
  apply In_operations in Hin. destruct Hin as (i & Hentry & Hop).
  apply In_obj_set in Hentry. destruct Hentry as [[-> ->]|Hentry].
  - apply (Hitem m op Hop).
  - apply (Hresult p m op). apply In_operations. exists i. split; assumption.
Qed.

Lemma all_placed_container (path : string) (result : Obj) :
  all_placed_operations P result -> item_ok path (container_at path result).
Proof.
  intros Hresult m op Hin. unfold container_at in Hin.
  destruct (obj_get path result) as [[| | | | |c]|] eqn:E; try contradiction.
  apply (Hresult path m op). apply In_operations.
  exists (JObj c). split; [apply obj_get_In; exact E | exact Hin].
Qed.

Lemma item_ok_set (path method : string) (op : JSON) (item : Obj) :
  item_ok path item -> P path op -> item_ok path (obj_set method op item).
Proof.
  intros Hitem Hop m o Hin. apply In_obj_set in Hin.
  destruct Hin as [[-> ->]|Hin]; [exact Hop | apply (Hitem m o Hin)].
Qed.

Lemma all_placed_spread (result paths : Obj) :
  all_placed_operations P result -> all_placed_operations P paths ->
  all_placed_operations P (spread result paths).
Proof.
  intros Hresult Hpaths p m op Hin.
  apply In_operations in Hin. destruct Hin as (i & Hentry & Hop).
  apply In_spread in Hentry.
  destruct Hentry as [Hentry|Hentry]; [apply (Hresult p m op) | apply (Hpaths p m op)];
    apply In_operations; exists i; split; assumption.
Qed.

Variable this_model : Model.
Variable analyzePolicies : DataModel -> Policies.
Variable lowerCaseFirst : string -> string.

Variables (prefix modelName : string) (model : DMMFModel) (zmodel : DataModel).

Local Abbreviation collection := (prefix +++ "/" +++ lowerCaseFirst modelName).
Local Abbreviation single := (prefix +++ "/" +++ lowerCaseFirst modelName +++ "/{id}").
Local Abbreviation related f :=
  (prefix +++ "/" +++ lowerCaseFirst modelName +++ "/{id}/" +++ f_name f).
Local Abbreviation relationship f :=
  (prefix +++ "/" +++ lowerCaseFirst modelName +++ "/{id}/relationships/" +++ f_name f).

(** [P] holds of each of the operations built for the entity, at the path
    the operation goes to. *)
Hypothesis list_ok :
  forall policies resourceMeta op,
    makeResourceList this_model lowerCaseFirst zmodel policies resourceMeta = Ok op ->
    P collection op.
Hypothesis create_ok :
  forall policies resourceMeta,
    P collection (makeResourceCreate lowerCaseFirst zmodel policies resourceMeta).
Hypothesis fetch_ok :
  forall policies resourceMeta,
    P single (makeResourceFetch lowerCaseFirst zmodel policies resourceMeta).
Hypothesis update_ok :
  forall policies operationId resourceMeta,
    P single (makeResourceUpdate lowerCaseFirst zmodel policies operationId resourceMeta).
Hypothesis delete_ok :
  forall policies resourceMeta,
    P single (makeResourceDelete lowerCaseFirst zmodel policies resourceMeta).
Hypothesis related_ok :
  forall field relationDecl resourceMeta op,
    makeRelatedFetch this_model analyzePolicies lowerCaseFirst zmodel field relationDecl
      resourceMeta = Ok op -> P (related field) op.
Hypothesis relationship_fetch_ok :
  forall field policies resourceMeta op,
    makeRelationshipFetch this_model lowerCaseFirst zmodel field policies resourceMeta
      = Ok op -> P (relationship field) op.
Hypothesis relationship_update_ok :
  forall field policies operationId resourceMeta,
    P (relationship field)
      (makeRelationshipUpdate lowerCaseFirst zmodel field policies operationId
         resourceMeta).
Hypothesis relationship_create_ok :
  forall field policies resourceMeta,
    P (relationship field)
      (makeRelationshipCreate lowerCaseFirst zmodel field policies resourceMeta).

Lemma pathsOfField_placed_operations (policies : Policies)
    (resourceMeta : option ResourceMeta) (result result' : Obj) (g : DataModelField) :
  all_placed_operations P result ->
  pathsOfField this_model analyzePolicies lowerCaseFirst prefix modelName model zmodel
    policies resourceMeta result g = Ok result' ->
  all_placed_operations P result'.
Proof.
  intros Hresult H. unfold pathsOfField in H.
  destruct (ref_decl this_model (f_type g)) as [[rd|e|t|n]|];
    try (apply Ok_inj in H; subst result'; exact Hresult).
  ok_inv H. cbv zeta in H. ok_inv H. apply Ok_inj in H. subst result'.
  assert (Hrelated :
    all_placed_operations P
      (obj_set (related g)
         (JObj (obj_set "get" a (container_at (related g) result))) result)).
  { apply all_placed_set; [exact Hresult|].
    apply item_ok_set; [apply all_placed_container; exact Hresult|].
    eapply related_ok; eassumption. }
  apply all_placed_set; [exact Hrelated|].
  assert (Hupdated : forall c,
    item_ok (relationship g) c ->
    item_ok (relationship g)
      (obj_set "patch"
         (makeRelationshipUpdate lowerCaseFirst zmodel g policies
            ("update-" +++ dm_name model +++ "-relationship-" +++ f_name g
               +++ "-patch") resourceMeta)
         (obj_set "put"
            (makeRelationshipUpdate lowerCaseFirst zmodel g policies
               ("update-" +++ dm_name model +++ "-relationship-" +++ f_name g
                  +++ "-put") resourceMeta)
            (obj_set "get" a0 c)))).
  { intros c Hc.
    apply item_ok_set; [|apply relationship_update_ok].
    apply item_ok_set; [|apply relationship_update_ok].
    apply item_ok_set; [exact Hc|].
    eapply relationship_fetch_ok; eassumption. }
  destruct (t_array (f_type g)).
  - apply item_ok_set; [|apply relationship_create_ok].
    apply Hupdated. apply all_placed_container. exact Hrelated.
  - apply Hupdated. apply all_placed_container. exact Hrelated.
Qed.

(** The body of [generatePathsForModel], for the prefix and the resource
    name it computes. *)
Lemma entity_placed_operations (policies : Policies) (resourceMeta : option ResourceMeta)
    (paths : Obj) :
  (list <- makeResourceList this_model lowerCaseFirst zmodel policies resourceMeta ;;
   foldM (pathsOfField this_model analyzePolicies lowerCaseFirst prefix modelName model
            zmodel policies resourceMeta)
         (m_fields zmodel)
         (obj_set single
            (JObj [("get", makeResourceFetch lowerCaseFirst zmodel policies resourceMeta);
                   ("put", makeResourceUpdate lowerCaseFirst zmodel policies
                             ("update-" +++ modelName +++ "-put") resourceMeta);
                   ("patch", makeResourceUpdate lowerCaseFirst zmodel policies
                               ("update-" +++ modelName +++ "-patch") resourceMeta);
                   ("delete", makeResourceDelete lowerCaseFirst zmodel policies
                                resourceMeta)])
            (obj_set collection
               (JObj [("get", list);
                      ("post", makeResourceCreate lowerCaseFirst zmodel policies
                                 resourceMeta)]) []))) = Ok paths ->
  all_placed_operations P paths.
Proof.
  intros H. ok_inv H.
  match type of H with
  | foldM _ _ ?start = _ => assert (Hstart : all_placed_operations P start)
  end.
  { apply all_placed_set; [apply all_placed_set; [apply all_placed_empty|]|].
    - intros m op [E|[E|[]]]; injection E as _ <-;
        [eapply list_ok; eassumption | apply create_ok].
    - intros m op [E|[E|[E|[E|[]]]]]; injection E as _ <-;
        [apply fetch_ok | apply update_ok | apply update_ok | apply delete_ok]. }
  revert Hstart H.
  match goal with
  | |- all_placed_operations P ?start -> _ => generalize start
  end.
  induction (m_fields zmodel) as [|g rest IH]; intros result Hresult H.
  - cbn in H. apply Ok_inj in H. subst paths. exact Hresult.
  - cbn [foldM] in H. ok_inv H.
    apply (IH a0); [|exact H].
    eapply pathsOfField_placed_operations; eassumption.
Qed.

End EveryOperation.

Section EveryOperationOfEntity.

Variable this_model : Model.
Variable options : PluginOptions.
Variable analyzePolicies : DataModel -> Policies.
Variable getModelResourceMeta : DataModel -> option ResourceMeta.
Variable lowerCaseFirst : string -> string.

Lemma all_operations_empty (Q : JSON -> Prop) : all_operations Q [].
Proof. apply all_placed_empty. Qed.

Lemma all_operations_spread (Q : JSON -> Prop) (result paths : Obj) :
  all_operations Q result -> all_operations Q paths -> all_operations Q (spread result paths).
Proof. apply all_placed_spread. Qed.

(** A property of each of the operations built for the entity, at the
    path the operation goes to, holds of every operation of its paths. *)
Lemma generatePathsForModel_placed_operations (P : string -> JSON -> Prop)
    (model : DMMFModel) (zmodel : DataModel) (paths : Obj) :
  let resource := lowerCaseFirst (mapModelName options (dm_name model)) in
  let collection := url_prefix options +++ "/" +++ resource in
  let single := url_prefix options +++ "/" +++ resource +++ "/{id}" in
  (forall policies resourceMeta op,
      makeResourceList this_model lowerCaseFirst zmodel policies resourceMeta = Ok op ->
      P collection op) ->
  (forall policies resourceMeta,
      P collection (makeResourceCreate lowerCaseFirst zmodel policies resourceMeta)) ->
  (forall policies resourceMeta,
      P single (makeResourceFetch lowerCaseFirst zmodel policies resourceMeta)) ->
  (forall policies operationId resourceMeta,
      P single (makeResourceUpdate lowerCaseFirst zmodel policies operationId
                  resourceMeta)) ->
  (forall policies resourceMeta,
      P single (makeResourceDelete lowerCaseFirst zmodel policies resourceMeta)) ->
  (forall field relationDecl resourceMeta op,
      makeRelatedFetch this_model analyzePolicies lowerCaseFirst zmodel field relationDecl
        resourceMeta = Ok op ->
      P (relatedDataPath (url_prefix options) resource (f_name field)) op) ->
  (forall field policies resourceMeta op,
      makeRelationshipFetch this_model lowerCaseFirst zmodel field policies resourceMeta
        = Ok op ->
      P (relationshipPath (url_prefix options) resource (f_name field)) op) ->
  (forall field policies operationId resourceMeta,
      P (relationshipPath (url_prefix options) resource (f_name field))
        (makeRelationshipUpdate lowerCaseFirst zmodel field policies operationId
           resourceMeta)) ->
  (forall field policies resourceMeta,
      P (relationshipPath (url_prefix options) resource (f_name field))
        (makeRelationshipCreate lowerCaseFirst zmodel field policies resourceMeta)) ->
  generatePathsForModel this_model options analyzePolicies getModelResourceMeta
    lowerCaseFirst model zmodel = Ok paths ->
  all_placed_operations P paths.
Proof.
  intros resource collection single H1 H2 H3 H4 H5 H6 H7 H8 H9 H.
  exact (entity_placed_operations P this_model analyzePolicies lowerCaseFirst
           (url_prefix options) (mapModelName options (dm_name model)) model zmodel
           H1 H2 H3 H4 H5 H6 H7 H8 H9 (analyzePolicies zmodel)
           (getModelResourceMeta zmodel) paths H).
Qed.

(** The same for a property that does not depend on the path. *)
Lemma generatePathsForModel_operations (Q : JSON -> Prop) (model : DMMFModel)
    (zmodel : DataModel) (paths : Obj) :
  (forall policies resourceMeta op,
      makeResourceList this_model lowerCaseFirst zmodel policies resourceMeta = Ok op ->
      Q op) ->
  (forall policies resourceMeta,
      Q (makeResourceCreate lowerCaseFirst zmodel policies resourceMeta)) ->
  (forall policies resourceMeta,
      Q (makeResourceFetch lowerCaseFirst zmodel policies resourceMeta)) ->
  (forall policies operationId resourceMeta,
      Q (makeResourceUpdate lowerCaseFirst zmodel policies operationId resourceMeta)) ->
  (forall policies resourceMeta,
      Q (makeResourceDelete lowerCaseFirst zmodel policies resourceMeta)) ->
  (forall field relationDecl resourceMeta op,
      makeRelatedFetch this_model analyzePolicies lowerCaseFirst zmodel field relationDecl
        resourceMeta = Ok op -> Q op) ->
  (forall field policies resourceMeta op,
      makeRelationshipFetch this_model lowerCaseFirst zmodel field policies resourceMeta
        = Ok op -> Q op) ->
  (forall field policies operationId resourceMeta,
      Q (makeRelationshipUpdate lowerCaseFirst zmodel field policies operationId
           resourceMeta)) ->
  (forall field policies resourceMeta,
      Q (makeRelationshipCreate lowerCaseFirst zmodel field policies resourceMeta)) ->
  generatePathsForModel this_model options analyzePolicies getModelResourceMeta
    lowerCaseFirst model zmodel = Ok paths ->
  all_operations Q paths.
Proof.
  intros H1 H2 H3 H4 H5 H6 H7 H8 H9 H.
  apply (generatePathsForModel_placed_operations (fun _ => Q) model zmodel paths);
    assumption.
Qed.

End EveryOperationOfEntity.

(* ================================================================= *)
(** ** The whole paths object *)

Section AllPaths.

Variable this_model : Model.
Variable options : PluginOptions.
Variable analyzePolicies : DataModel -> Policies.
Variable getModelResourceMeta : DataModel -> option ResourceMeta.
Variable lowerCaseFirst : string -> string.
Variable includedModels : list DataModel.

(** [built] is the paths object of an included DMMF model of [models]
    that has a ZModel declaration. *)
Local Abbreviation built_for models built :=
  (exists m zmodel,
      In m models /\ isIncluded includedModels m = true /\
      findZModel this_model (dm_name m) = Some zmodel /\
      generatePathsForModel this_model options analyzePolicies getModelResourceMeta
        lowerCaseFirst m zmodel = Ok built).

Lemma loop_keys (models : list DMMFModel) (result paths : Obj) (collected w : list string) :
  generatePaths_loop this_model options analyzePolicies getModelResourceMeta lowerCaseFirst
    includedModels models result collected = (Ok paths, w) ->
  forall k, In k (obj_keys paths) <->
            In k (obj_keys result) \/
            exists built, built_for models built /\ In k (obj_keys built).
Proof.
  revert result collected.
  induction models as [|m rest IH]; intros result collected H k.
  - cbn in H. injection H as <- _. split; [auto|].
    intros [Hk|(built & (m & zmodel & [] & _) & _)]. exact Hk.
  - rewrite loop_cons in H.
    assert (Hlater : forall built, built_for rest built -> built_for (m :: rest) built).
    { intros built (m' & zmodel & Hm' & Hrest). exists m', zmodel.
      split; [right; exact Hm' | exact Hrest]. }
    assert (Hskip : forall built,
              (mem (dm_name m) (map m_name includedModels) = false \/
               findZModel this_model (dm_name m) = None) ->
              built_for (m :: rest) built -> built_for rest built).
    { intros built Hm (m' & zmodel & [<-|Hm'] & Hincluded & Hfind & Hbuilt).
      - unfold isIncluded in Hincluded. destruct Hm as [Hm|Hm]; congruence.
      - exists m', zmodel. auto. }
    destruct (mem (dm_name m) (map m_name includedModels)) eqn:Hincluded.
    + destruct (findZModel this_model (dm_name m)) as [zmodel|] eqn:Hfind.
      * destruct (generatePathsForModel _ _ _ _ _ m zmodel) as [built|e] eqn:Hgen;
          [|discriminate].
        rewrite (IH _ _ H k), keys_spread_iff. split.
        -- intros [[Hk|Hk]|(b & Hb & Hk)].
           ++ left. exact Hk.
           ++ right. exists built. split; [|exact Hk].
              exists m, zmodel. split; [left; reflexivity|]. auto.
           ++ right. exists b. split; [apply Hlater; exact Hb | exact Hk].
        -- intros [Hk|(b & (m' & z' & [<-|Hm'] & Hi & Hf & Hb) & Hk)].
           ++ left. left. exact Hk.
           ++ left. right. rewrite Hfind in Hf. injection Hf as <-.
              rewrite Hgen in Hb. injection Hb as <-. exact Hk.
           ++ right. exists b. split; [|exact Hk]. exists m', z'. auto.
      * rewrite (IH _ _ H k). split.
        -- intros [Hk|(b & Hb & Hk)]; [auto|]. right. exists b. auto.
        -- intros [Hk|(b & Hb & Hk)]; [auto|]. right. exists b. split; [|exact Hk].
           apply Hskip; auto.
    + rewrite (IH _ _ H k). split.
      * intros [Hk|(b & Hb & Hk)]; [auto|]. right. exists b. auto.
      * intros [Hk|(b & Hb & Hk)]; [auto|]. right. exists b. split; [|exact Hk].
        apply Hskip; auto.
Qed.

(** A property of every operation of every entity holds of every
    operation of the paths. *)
Lemma generatePaths_operations (Q : JSON -> Prop) (dmmf_models : list DMMFModel)
    (collected w : list string) (paths : Obj) :
  (forall m zmodel built,
      isIncluded includedModels m = true ->
      findZModel this_model (dm_name m) = Some zmodel ->
      generatePathsForModel this_model options analyzePolicies getModelResourceMeta
        lowerCaseFirst m zmodel = Ok built ->
      all_operations Q built) ->
  generatePaths this_model options dmmf_models analyzePolicies getModelResourceMeta
    lowerCaseFirst includedModels collected = (Ok paths, w) ->
  all_operations Q paths.
Proof.
  intros Hbuilt. unfold generatePaths.
  assert (Hempty : all_operations Q []) by apply all_operations_empty.
  revert Hempty. generalize (@nil (string * JSON)) as result. revert collected.
  induction dmmf_models as [|m rest IH]; intros collected result Hresult H.
  - cbn in H. injection H as <- _. exact Hresult.
  - rewrite loop_cons in H.
    destruct (mem (dm_name m) (map m_name includedModels)) eqn:Hincluded;
      [|eapply IH; eassumption].
    destruct (findZModel this_model (dm_name m)) as [zmodel|] eqn:Hfind;
      [|eapply IH; eassumption].
    destruct (generatePathsForModel _ _ _ _ _ m zmodel) as [built|e] eqn:Hgen;
      [|discriminate].
    eapply IH; [|eassumption].
    apply all_operations_spread; [exact Hresult|].
    apply (Hbuilt m zmodel built); assumption.
Qed.

End AllPaths.

Section OperationShape.

Variable this_model : Model.
Variable options : PluginOptions.
Variable analyzePolicies : DataModel -> Policies.
Variable getModelResourceMeta : DataModel -> option ResourceMeta.
Variable lowerCaseFirst : string -> string.
Variable includedModels : list DataModel.

(** The operation carries the single tag of the entity named [name] and
    declares the 403 response. *)
Local Abbreviation shaped name op :=
  (prop "tags" op = JArr [JStr (lowerCaseFirst name)] /\
   prop "403" (prop "responses" op) = forbidden).

Local Abbreviation shaped_included op :=
  (exists name, In name (map m_name includedModels) /\ shaped name op).

Lemma generatePathsForModel_shaped (model : DMMFModel) (zmodel : DataModel)
    (paths : Obj) :
  generatePathsForModel this_model options analyzePolicies getModelResourceMeta
    lowerCaseFirst model zmodel = Ok paths ->
  all_operations (fun op => shaped (m_name zmodel) op) paths.
Proof.
  apply generatePathsForModel_operations.
  - intros policies resourceMeta op H. unfold makeResourceList in H.
    ok_inv H. apply Ok_inj in H. subst op. split; reflexivity.
  - intros. split; reflexivity.
  - intros. split; reflexivity.
  - intros. split; reflexivity.
  - intros. split; reflexivity.
  - intros field rd resourceMeta op H. unfold makeRelatedFetch in H.
    ok_inv H. apply Ok_inj in H. subst op. split; reflexivity.
  - intros field policies resourceMeta op H. unfold makeRelationshipFetch in H.
    ok_inv H. apply Ok_inj in H. subst op. split; reflexivity.
  - intros. split; reflexivity.
  - intros. split; reflexivity.
Qed.

Lemma generatePaths_shaped (dmmf_models : list DMMFModel) (collected w : list string)
    (paths : Obj) :
  generatePaths this_model options dmmf_models analyzePolicies getModelResourceMeta
    lowerCaseFirst includedModels collected = (Ok paths, w) ->
  all_operations (fun op => shaped_included op) paths.
Proof.
  apply generatePaths_operations.
  intros m zmodel built Hincluded Hfind Hgen path method op Hop.
  exists (m_name zmodel). split.
  - destruct (findZModel_found _ _ _ Hfind) as [-> _].
    apply mem_In. exact Hincluded.
  - apply (generatePathsForModel_shaped m zmodel built Hgen path method op Hop).
Qed.

End OperationShape.

(** The document a run of [generate] returns, and the generator after it. *)
Lemma generate_assembled
    (this_model : Model) (options : PluginOptions) (dmmf_models : list DMMFModel)
    (analyzePolicies : DataModel -> Policies)
    (getModelResourceMeta : DataModel -> option ResourceMeta)
    (lowerCaseFirst : string -> string) (getDataModels includedModels : list DataModel)
    (wrapNullable : JSON -> bool -> JSON) (generateSecuritySchemes : Outcome JSON)
    (DEFAULT_SPEC_VERSION : string) (this : Generator) (doc : JSON) :
  fst (generate this_model options dmmf_models analyzePolicies getModelResourceMeta
         lowerCaseFirst getDataModels includedModels wrapNullable generateSecuritySchemes
         DEFAULT_SPEC_VERSION this) = Ok doc ->
  exists generated paths w securitySchemes,
    generateSchemas this_model getDataModels wrapNullable = Ok generated /\
    generatePaths this_model options dmmf_models analyzePolicies getModelResourceMeta
      lowerCaseFirst includedModels (warnings this) = (Ok paths, w) /\
    generateSecuritySchemes = Ok securitySchemes /\
    snd (generate this_model options dmmf_models analyzePolicies getModelResourceMeta
           lowerCaseFirst getDataModels includedModels wrapNullable
           generateSecuritySchemes DEFAULT_SPEC_VERSION this) = {| warnings := w |} /\
    prop "tags" doc = document_tags getModelResourceMeta lowerCaseFirst includedModels /\
    prop "paths" doc = JObj paths /\
    prop "components" doc
      = JObj [("schemas", JObj (pruneComponents paths generated));
              ("parameters", JObj (spread [] generateParameters));
              ("securitySchemes", securitySchemes)] /\
    prop "security" doc
      = (if truthy securitySchemes
            && Nat.ltb 0 (List.length (obj_keys (spread_obj securitySchemes)))
         then JArr (map (fun scheme => JObj [(scheme, JArr [])])
                        (obj_keys (spread_obj securitySchemes)))
         else JUndefined).
Proof.
  unfold generate, generateComponents. intros H.
  destruct (o_output options); [|discriminate].
  destruct (generateSchemas this_model getDataModels wrapNullable) as [generated|e];
    [|discriminate].
  cbn [bind] in H |- *.
  destruct (generatePaths _ _ _ _ _ _ _ _) as [[paths|e] w]; [|discriminate].
  destruct generateSecuritySchemes as [securitySchemes|e]; [|discriminate].
  cbn [fst] in H. apply Ok_inj in H. subst doc.
  exists generated, paths, w, securitySchemes. repeat split; reflexivity.
Qed.

Lemma tag_names_document (getModelResourceMeta : DataModel -> option ResourceMeta)
    (lowerCaseFirst : string -> string) (includedModels : list DataModel) :
  tag_names (document_tags getModelResourceMeta lowerCaseFirst includedModels)
    = map (fun model => lowerCaseFirst (m_name model)) includedModels.
Proof.
  unfold document_tags, tag_names. rewrite map_map. reflexivity.
Qed.

(** Extra X12.  When [generate] returns a document, the warnings of the
    generator afterwards are those it had before followed by one warning
    per included DMMF model without ZModel declaration, in the order of
    the DMMF models. *)
Theorem X12_warnings_of_missing_models :
  forall (this_model : Model) (options : PluginOptions) (dmmf_models : list DMMFModel)
         (analyzePolicies : DataModel -> Policies)
         (getModelResourceMeta : DataModel -> option ResourceMeta)
         (lowerCaseFirst : string -> string)
         (getDataModels includedModels : list DataModel)
         (wrapNullable : JSON -> bool -> JSON) (generateSecuritySchemes : Outcome JSON)
         (DEFAULT_SPEC_VERSION : string) (this : Generator) (doc : JSON),
    fst (generate this_model options dmmf_models analyzePolicies getModelResourceMeta
           lowerCaseFirst getDataModels includedModels wrapNullable
           generateSecuritySchemes DEFAULT_SPEC_VERSION this) = Ok doc ->
    warnings (snd (generate this_model options dmmf_models analyzePolicies
                     getModelResourceMeta lowerCaseFirst getDataModels includedModels
                     wrapNullable generateSecuritySchemes DEFAULT_SPEC_VERSION this))
      = warnings this
        ++ map (fun m => "Unable to load ZModel definition for: " +++ dm_name m +++ "}")
               (filter (lacksZModel this_model includedModels) dmmf_models).
Proof.
  intros until doc. intros H.
  destruct (generate_assembled _ _ _ _ _ _ _ _ _ _ _ _ _ H)
    as (generated & paths & w & schemes & _ & Hpaths & _ & Hafter & _).
  rewrite Hafter. cbn [warnings].
  unfold generatePaths in Hpaths. apply loop_missing in Hpaths. exact Hpaths.
Qed.

Lemma X12_warnings_of_missing_models_witness :
  let ghost := {| dm_name := "Ghost" |} in
  let user := {| dm_name := "User" |} in
  let hidden := {| dm_name := "Hidden" |} in
  let included := [User; {| m_name := "Ghost"; m_fields := [] |}] in
  warnings (snd (generate blog no_options [ghost; hidden; user; ghost] no_policies no_meta
                   sample_lowerCaseFirst [User] included sample_wrapNullable
                   (Ok JUndefined) "3.1.0" {| warnings := ["earlier"] |}))
    = ["earlier"; "Unable to load ZModel definition for: Ghost}";
       "Unable to load ZModel definition for: Ghost}"].
Proof.
  intros ghost user hidden included.
  destruct (fst (generate blog no_options [ghost; hidden; user; ghost] no_policies no_meta
                   sample_lowerCaseFirst [User] included sample_wrapNullable
                   (Ok JUndefined) "3.1.0" {| warnings := ["earlier"] |}))
    as [doc|e] eqn:Hdoc; [|vm_compute in Hdoc; discriminate Hdoc].
  rewrite (X12_warnings_of_missing_models _ _ _ _ _ _ _ _ _ _ _ _ doc Hdoc).
  reflexivity.
Defined.

(** Extra X13.  The paths object [generatePaths] returns holds exactly the
    paths of the included DMMF models that have a ZModel declaration: a
    path is a key of the result if and only if it is a key of the paths
    object [generatePathsForModel] builds for one of them. *)
Theorem X13_paths_of_all_models :
  forall (this_model : Model) (options : PluginOptions) (dmmf_models : list DMMFModel)
         (analyzePolicies : DataModel -> Policies)
         (getModelResourceMeta : DataModel -> option ResourceMeta)
         (lowerCaseFirst : string -> string) (includedModels : list DataModel)
         (collected : list string) (paths : Obj) (w : list string),
    generatePaths this_model options dmmf_models analyzePolicies getModelResourceMeta
      lowerCaseFirst includedModels collected = (Ok paths, w) ->
    forall k,
      In k (obj_keys paths) <->
      exists m zmodel built,
        In m dmmf_models /\ isIncluded includedModels m = true /\
        findZModel this_model (dm_name m) = Some zmodel /\
        generatePathsForModel this_model options analyzePolicies getModelResourceMeta
          lowerCaseFirst m zmodel = Ok built /\
        In k (obj_keys built).
Proof.
  intros until w. intros H k. unfold generatePaths in H.
  rewrite (loop_keys _ _ _ _ _ _ _ _ _ _ _ H k). cbn [obj_keys map In]. split.
  - intros [[]|(built & (m & zmodel & Hm) & Hk)]. exists m, zmodel, built. tauto.
  - intros (m & zmodel & built & Hm & Hi & Hf & Hb & Hk).
    right. exists built. split; [|exact Hk]. exists m, zmodel. auto.
Qed.

Lemma X13_paths_of_all_models_witness :
  exists paths,
    generatePaths blog no_options
      [{| dm_name := "Profile" |}; {| dm_name := "User" |}; {| dm_name := "Post" |}]
      no_policies no_meta sample_lowerCaseFirst [User; Post] [] = (Ok paths, []) /\
    In "/post/{id}/relationships/author" (obj_keys paths).
Proof.
  eexists. split; [vm_compute; reflexivity|].
  refine (proj2 (X13_paths_of_all_models blog no_options
                   [{| dm_name := "Profile" |}; {| dm_name := "User" |};
                    {| dm_name := "Post" |}] no_policies no_meta sample_lowerCaseFirst
                   [User; Post] [] _ [] _ "/post/{id}/relationships/author") _);
    [vm_compute; reflexivity|].
  exists {| dm_name := "Post" |}, Post. eexists.
  split; [cbn [In]; tauto|]. split; [reflexivity|]. split; [reflexivity|].
  split; [vm_compute; reflexivity|]. cbn. tauto.
Defined.

(** Extra X14.  In the document of a run, every operation carries exactly
    one tag, and that tag is declared in the [tags] list of the document. *)
Theorem X14_operation_tags_declared :
  forall (this_model : Model) (options : PluginOptions) (dmmf_models : list DMMFModel)
         (analyzePolicies : DataModel -> Policies)
         (getModelResourceMeta : DataModel -> option ResourceMeta)
         (lowerCaseFirst : string -> string)
         (getDataModels includedModels : list DataModel)
         (wrapNullable : JSON -> bool -> JSON) (generateSecuritySchemes : Outcome JSON)
         (DEFAULT_SPEC_VERSION : string) (this : Generator) (doc : JSON),
    fst (generate this_model options dmmf_models analyzePolicies getModelResourceMeta
           lowerCaseFirst getDataModels includedModels wrapNullable
           generateSecuritySchemes DEFAULT_SPEC_VERSION this) = Ok doc ->
    tag_names (prop "tags" doc)
      = map (fun model => lowerCaseFirst (m_name model)) includedModels /\
    all_operations
      (fun op => exists tag,
           prop "tags" op = JArr [JStr tag] /\ In tag (tag_names (prop "tags" doc)))
      (spread_obj (prop "paths" doc)).
Proof.
  intros until doc. intros H.
  destruct (generate_assembled _ _ _ _ _ _ _ _ _ _ _ _ _ H)
    as (generated & paths & w & schemes & _ & Hpaths & _ & _ & Htags & Hdoc & _).
  rewrite Htags, Hdoc, tag_names_document. split; [reflexivity|].
  intros path method op Hop. cbn [spread_obj] in Hop.
  destruct (generatePaths_shaped _ _ _ _ _ _ _ _ _ _ Hpaths path method op Hop)
    as (name & Hname & Htag & _).
  exists (lowerCaseFirst name). split; [exact Htag|].
  apply in_map_iff in Hname. destruct Hname as (m & <- & Hm).
  apply in_map_iff. exists m. split; [reflexivity | exact Hm].
Qed.

(** Extra X15.  Every operation of the generated paths declares the 403
    response, with the error-response schema. *)
Theorem X15_operations_declare_forbidden :
  forall (this_model : Model) (options : PluginOptions) (dmmf_models : list DMMFModel)
         (analyzePolicies : DataModel -> Policies)
         (getModelResourceMeta : DataModel -> option ResourceMeta)
         (lowerCaseFirst : string -> string) (includedModels : list DataModel)
         (collected : list string) (paths : Obj) (w : list string),
    generatePaths this_model options dmmf_models analyzePolicies getModelResourceMeta
      lowerCaseFirst includedModels collected = (Ok paths, w) ->
    all_operations
      (fun op =>
         prop "403" (prop "responses" op)
           = JObj [("description", JStr "Request is forbidden");
                   ("content",
                     JObj [("application/vnd.api+json",
                            JObj [("schema", ref "_errorResponse")])])])
      paths.
Proof.
  intros until w. intros H path method op Hop.
  destruct (generatePaths_shaped _ _ _ _ _ _ _ _ _ _ H path method op Hop)
    as (name & _ & _ & Hforbidden).
  exact Hforbidden.
Qed.

Lemma X14_operation_tags_declared_witness :
  exists doc,
    fst (generate blog no_options [{| dm_name := "User" |}; {| dm_name := "Post" |}]
           no_policies no_meta sample_lowerCaseFirst [User; Post; Profile] [User; Post]
           sample_wrapNullable (Ok JUndefined) "3.1.0" {| warnings := [] |}) = Ok doc /\
    tag_names (prop "tags" doc) = ["user"; "post"] /\
    all_operations
      (fun op => exists tag,
           prop "tags" op = JArr [JStr tag] /\ In tag (tag_names (prop "tags" doc)))
      (spread_obj (prop "paths" doc)).
Proof.
  eexists. split; [vm_compute; reflexivity|].
  split; [reflexivity|].
  apply (X14_operation_tags_declared blog no_options
           [{| dm_name := "User" |}; {| dm_name := "Post" |}] no_policies no_meta
           sample_lowerCaseFirst [User; Post; Profile] [User; Post] sample_wrapNullable
           (Ok JUndefined) "3.1.0" {| warnings := [] |}).
  vm_compute. reflexivity.
Defined.

Lemma X15_operations_declare_forbidden_witness :
  exists paths,
    generatePaths blog no_options [{| dm_name := "User" |}; {| dm_name := "Post" |}]
      no_policies no_meta sample_lowerCaseFirst [User; Post] [] = (Ok paths, []) /\
    List.length (operations paths) = 21 /\
    all_operations (fun op => prop "403" (prop "responses" op) = forbidden) paths.
Proof.
  eexists. split; [vm_compute; reflexivity|].
  split; [reflexivity|].
  apply (X15_operations_declare_forbidden blog no_options
           [{| dm_name := "User" |}; {| dm_name := "Post" |}] no_policies no_meta
           sample_lowerCaseFirst [User; Post] [] _ []).
  vm_compute. reflexivity.
Defined.

Section ParameterReferences.

Variable this_model : Model.
Variable options : PluginOptions.
Variable analyzePolicies : DataModel -> Policies.
Variable getModelResourceMeta : DataModel -> option ResourceMeta.
Variable lowerCaseFirst : string -> string.

Local Abbreviation declared := (spread [] generateParameters).

Lemma resolvable_named (n : string) :
  In n ["id"; "include"; "sort"; "page-offset"; "page-limit"] ->
  resolvable declared (parameter n).
Proof. intros H. left. exists n. split; [reflexivity | exact H]. Qed.

Lemma resolvable_filters (model : DataModel) (filters : list JSON) :
  generateFilterParameters this_model model = Ok filters ->
  Forall (resolvable declared) filters.
Proof.
  intros H. eapply Forall_impl; [|apply generateFilterParameters_made; exact H].
  intros p (field & _ & name & description & isArray & schemaOverride & Hp).
  unfold makeFilterParameter in Hp. ok_inv Hp. apply Ok_inj in Hp. subst p.
  right. split; [reflexivity|]. eexists. reflexivity.
Qed.

Lemma resolvable_fetch_parameters (model : DataModel) (field : DataModelField)
    (fixed parameters : list JSON) :
  Forall (resolvable declared) fixed ->
  (if t_array (f_type field)
   then filters <- generateFilterParameters this_model model ;;
        Ok (fixed ++
            [parameter "sort"; parameter "page-offset"; parameter "page-limit"] ++ filters)
   else Ok fixed) = Ok parameters ->
  Forall (resolvable declared) parameters.
Proof.
  intros Hfixed H. destruct (t_array (f_type field)).
  - ok_inv H. apply Ok_inj in H. subst parameters.
    rewrite !Forall_app. split; [exact Hfixed|]. split.
    + repeat (apply Forall_cons; [apply resolvable_named; cbn [In]; tauto|]).
      apply Forall_nil.
    + eapply resolvable_filters. exact Ha.
  - apply Ok_inj in H. subst parameters. exact Hfixed.
Qed.

Lemma generatePathsForModel_parameters (model : DMMFModel) (zmodel : DataModel)
    (paths : Obj) :
  generatePathsForModel this_model options analyzePolicies getModelResourceMeta
    lowerCaseFirst model zmodel = Ok paths ->
  all_operations (fun op => Forall (resolvable declared) (operation_parameters op)) paths.
Proof.
  assert (Hid : Forall (resolvable declared) [parameter "id"]).
  { apply Forall_cons; [apply resolvable_named; cbn [In]; tauto | apply Forall_nil]. }
  apply generatePathsForModel_operations.
  - intros policies resourceMeta op H. unfold makeResourceList in H.
    ok_inv H. apply Ok_inj in H. subst op.
    change (Forall (resolvable declared)
              ([parameter "include"; parameter "sort"; parameter "page-offset";
                parameter "page-limit"] ++ a)).
    rewrite Forall_app. split; [|eapply resolvable_filters; exact Ha].
    repeat (apply Forall_cons; [apply resolvable_named; cbn [In]; tauto|]).
    apply Forall_nil.
  - intros. apply Forall_nil.
  - intros.
    change (Forall (resolvable declared) [parameter "id"; parameter "include"]).
    repeat (apply Forall_cons; [apply resolvable_named; cbn [In]; tauto|]).
    apply Forall_nil.
  - intros. exact Hid.
  - intros. exact Hid.
  - intros field rd resourceMeta op H. unfold makeRelatedFetch in H.
    ok_inv H. apply Ok_inj in H. subst op.
    change (Forall (resolvable declared) a).
    eapply resolvable_fetch_parameters; [|exact Ha].
    repeat (apply Forall_cons; [apply resolvable_named; cbn [In]; tauto|]).
    apply Forall_nil.
  - intros field policies resourceMeta op H. unfold makeRelationshipFetch in H.
    ok_inv H. apply Ok_inj in H. subst op.
    change (Forall (resolvable declared) a).
    eapply resolvable_fetch_parameters; [exact Hid | exact Ha].
  - intros. exact Hid.
  - intros. exact Hid.
Qed.

End ParameterReferences.

(** Extra X16.  In the document of a run, every parameter of every
    operation resolves: it is a reference to a parameter that the
    components of the document define, or an inline query parameter with
    a name. *)
Theorem X16_parameter_references_resolve :
  forall (this_model : Model) (options : PluginOptions) (dmmf_models : list DMMFModel)
         (analyzePolicies : DataModel -> Policies)
         (getModelResourceMeta : DataModel -> option ResourceMeta)
         (lowerCaseFirst : string -> string)
         (getDataModels includedModels : list DataModel)
         (wrapNullable : JSON -> bool -> JSON) (generateSecuritySchemes : Outcome JSON)
         (DEFAULT_SPEC_VERSION : string) (this : Generator) (doc : JSON),
    fst (generate this_model options dmmf_models analyzePolicies getModelResourceMeta
           lowerCaseFirst getDataModels includedModels wrapNullable
           generateSecuritySchemes DEFAULT_SPEC_VERSION this) = Ok doc ->
    all_operations
      (fun op =>
         Forall (resolvable (spread_obj (prop "parameters" (prop "components" doc))))
                (operation_parameters op))
      (spread_obj (prop "paths" doc)).
Proof.
  intros until doc. intros H.
  destruct (generate_assembled _ _ _ _ _ _ _ _ _ _ _ _ _ H)
    as (generated & paths & w & schemes & _ & Hpaths & _ & _ & _ & Hdoc & Hcomponents & _).
  rewrite Hdoc, Hcomponents.
  change (prop "parameters"
            (JObj [("schemas", JObj (pruneComponents paths generated));
                   ("parameters", JObj (spread [] generateParameters));
                   ("securitySchemes", schemes)]))
    with (JObj (spread [] generateParameters)).
  cbn [spread_obj].
  eapply generatePaths_operations; [|exact Hpaths].
  intros m zmodel built _ _ Hbuilt.
  eapply generatePathsForModel_parameters. exact Hbuilt.
Qed.

Lemma X16_parameter_references_resolve_witness :
  exists doc,
    fst (generate blog no_options [{| dm_name := "User" |}; {| dm_name := "Post" |}]
           no_policies no_meta sample_lowerCaseFirst [User; Post; Profile] [User; Post]
           sample_wrapNullable (Ok JUndefined) "3.1.0" {| warnings := [] |}) = Ok doc /\
    obj_keys (spread_obj (prop "parameters" (prop "components" doc)))
      = ["id"; "include"; "sort"; "page-offset"; "page-limit"] /\
    all_operations
      (fun op =>
         Forall (resolvable (spread_obj (prop "parameters" (prop "components" doc))))
                (operation_parameters op))
      (spread_obj (prop "paths" doc)).
Proof.
  eexists. split; [vm_compute; reflexivity|].
  split; [reflexivity|].
  apply (X16_parameter_references_resolve blog no_options
           [{| dm_name := "User" |}; {| dm_name := "Post" |}] no_policies no_meta
           sample_lowerCaseFirst [User; Post; Profile] [User; Post] sample_wrapNullable
           (Ok JUndefined) "3.1.0" {| warnings := [] |}).
  vm_compute. reflexivity.
Defined.

Section PathParameter.

Variable this_model : Model.
Variable options : PluginOptions.
Variable analyzePolicies : DataModel -> Policies.
Variable getModelResourceMeta : DataModel -> option ResourceMeta.
Variable lowerCaseFirst : string -> string.

Lemma filters_not_id (model : DataModel) (filters : list JSON) :
  generateFilterParameters this_model model = Ok filters ->
  ~ In (parameter "id") filters.
Proof.
  intros H Hin.
  pose proof (generateFilterParameters_made _ _ _ H) as Hmade.
  rewrite Forall_forall in Hmade.
  destruct (Hmade _ Hin) as (field & _ & name & description & isArray & schemaOverride & Hp).
  unfold makeFilterParameter in Hp. ok_inv Hp. discriminate Hp.
Qed.

(** Extra X17.  In the paths of an entity, every operation at a path
    other than the collection path (the item path, and the related and
    relationships paths of the fields, which all carry the [{id}]
    template) takes the [id] path parameter as its first parameter, and no
    operation at the collection path takes it. *)
Theorem X17_id_parameter_where_templated :
  forall (model : DMMFModel) (zmodel : DataModel) (paths : Obj),
    generatePathsForModel this_model options analyzePolicies getModelResourceMeta
      lowerCaseFirst model zmodel = Ok paths ->
    let collection :=
      url_prefix options +++ "/" +++ lowerCaseFirst (mapModelName options (dm_name model)) in
    all_placed_operations
      (fun path op =>
         (path = collection -> ~ In (parameter "id") (operation_parameters op)) /\
         (path <> collection ->
          exists rest, operation_parameters op = parameter "id" :: rest))
      paths.
Proof.
  intros model zmodel paths H collection.
  set (resource := lowerCaseFirst (mapModelName options (dm_name model))) in *.
  assert (Hsingle : url_prefix options +++ "/" +++ resource +++ "/{id}" <> collection).
  { unfold collection. rewrite <- !append_assoc. apply item_not_resource. }
  assert (Hrelated : forall f,
            relatedDataPath (url_prefix options) resource f <> collection).
  { intros f E. symmetry in E.
    apply (proj1 (resource_not_related (url_prefix options) resource f)). exact E. }
  assert (Hrelationship : forall f,
            relationshipPath (url_prefix options) resource f <> collection).
  { intros f E. symmetry in E.
    apply (proj1 (resource_not_relationship (url_prefix options) resource f)). exact E. }
  assert (Hfetch : forall field model' (fixed parameters : list JSON),
            (if t_array (f_type field)
             then filters <- generateFilterParameters this_model model' ;;
                  Ok ((parameter "id" :: fixed) ++
                      [parameter "sort"; parameter "page-offset"; parameter "page-limit"]
                      ++ filters)
             else Ok (parameter "id" :: fixed)) = Ok parameters ->
            exists rest, parameters = parameter "id" :: rest).
  { intros field model' fixed parameters Hp. destruct (t_array (f_type field)).
    - ok_inv Hp. apply Ok_inj in Hp. subst parameters. eexists. reflexivity.
    - apply Ok_inj in Hp. subst parameters. eexists. reflexivity. }
  apply (generatePathsForModel_placed_operations this_model options analyzePolicies
           getModelResourceMeta lowerCaseFirst _ model zmodel paths); try exact H;
    fold resource; fold collection.
  - intros policies resourceMeta op Hop. unfold makeResourceList in Hop.
    ok_inv Hop. apply Ok_inj in Hop. subst op.
    split; [intros _ | intros Hne; exfalso; apply Hne; reflexivity].
    change (~ In (parameter "id")
              ([parameter "include"; parameter "sort"; parameter "page-offset";
                parameter "page-limit"] ++ a)).
    intros Hin. apply in_app_or in Hin. destruct Hin as [Hin|Hin].
    + cbn [In] in Hin.
      repeat (destruct Hin as [Hin|Hin]; [discriminate Hin|]). exact Hin.
    + exact (filters_not_id _ _ Ha Hin).
  - intros policies resourceMeta.
    split; [intros _ [] | intros Hne; exfalso; apply Hne; reflexivity].
  - intros policies resourceMeta.
    split; [intros E; exfalso; exact (Hsingle E) | intros _; eexists; reflexivity].
  - intros policies operationId resourceMeta.
    split; [intros E; exfalso; exact (Hsingle E) | intros _; eexists; reflexivity].
  - intros policies resourceMeta.
    split; [intros E; exfalso; exact (Hsingle E) | intros _; eexists; reflexivity].
  - intros field rd resourceMeta op Hop. unfold makeRelatedFetch in Hop.
    ok_inv Hop. apply Ok_inj in Hop. subst op.
    split; [intros E; exfalso; exact (Hrelated _ E) | intros _].
    change (exists rest, a = parameter "id" :: rest).
    exact (Hfetch field zmodel [parameter "include"] a Ha).
  - intros field policies resourceMeta op Hop. unfold makeRelationshipFetch in Hop.
    ok_inv Hop. apply Ok_inj in Hop. subst op.
    split; [intros E; exfalso; exact (Hrelationship _ E) | intros _].
    change (exists rest, a = parameter "id" :: rest).
    exact (Hfetch field zmodel [] a Ha).
  - intros field policies operationId resourceMeta.
    split; [intros E; exfalso; exact (Hrelationship _ E) | intros _; eexists; reflexivity].
  - intros field policies resourceMeta.
    split; [intros E; exfalso; exact (Hrelationship _ E) | intros _; eexists; reflexivity].
Qed.

End PathParameter.

Lemma X17_id_parameter_where_templated_witness :
  exists paths,
    generatePathsForModel blog no_options no_policies no_meta sample_lowerCaseFirst
      {| dm_name := "User" |} User = Ok paths /\
    all_placed_operations
      (fun path op =>
         (path = "/user" -> ~ In (parameter "id") (operation_parameters op)) /\
         (path <> "/user" -> exists rest, operation_parameters op = parameter "id" :: rest))
      paths.
Proof.
  eexists. split; [vm_compute; reflexivity|].
  apply (X17_id_parameter_where_templated blog no_options no_policies no_meta
           sample_lowerCaseFirst {| dm_name := "User" |} User).
  vm_compute. reflexivity.
Defined.

(* ================================================================= *)
(** ** The entity schema *)

Section EntityParts.

Variable this_model : Model.
Variable wrapNullable : JSON -> bool -> JSON.
Variable mode : Mode.

Local Abbreviation round := (entityPartsOfField this_model wrapNullable mode).

(** What one round of the field loop does to the three accumulators. *)
Lemma entityPartsOfField_spec (acc acc' : EntityParts) (f : DataModelField) :
  round acc f = Ok acc' ->
  (isAttribute this_model mode f = true /\
   exists schema,
     generateField this_model wrapNullable (f_type f) = Ok schema /\
     attributes acc' = obj_set (f_name f) schema (attributes acc) /\
     relationships acc' = relationships acc /\
     required acc'
       = required acc ++ (if requiredIn this_model mode f then [f_name f] else [])) \/
  (isRelation this_model mode f = true /\
   attributes acc' = attributes acc /\
   relationships acc'
     = obj_set (f_name f)
         (wrapNullable (ref (relationshipType mode (t_array (f_type f))))
                       (t_optional (f_type f)))
         (relationships acc) /\
   required acc' = required acc) \/
  (exposedIn mode f = false /\ acc' = acc).
Proof.
  unfold entityPartsOfField, isAttribute, isRelation, exposedIn. intros H.
  destruct (isForeignKeyField f && negb (is_read mode)); cbn [negb andb].
  { right. right. apply Ok_inj in H. auto. }
  destruct (isRelationshipField this_model f); cbn [negb].
  { right. left. apply Ok_inj in H. subst acc'. cbn [attributes relationships required].
    split; [reflexivity|]. split; [reflexivity|]. split; [|reflexivity].
    destruct mode; reflexivity. }
  left. ok_inv H. apply Ok_inj in H. subst acc'. split; [reflexivity|].
  exists a. split; [exact Ha|]. cbn [attributes relationships required].
  split; [reflexivity|]. split; [reflexivity|].
  unfold requiredIn. destruct mode; cbn [is_create is_read andb].
  - reflexivity.
  - destruct (negb (t_optional (f_type f)) && negb (hasAttribute f "@default") &&
              negb (isDataModel (resolve this_model (f_resolvedDecl f))
                    && t_array (f_type f))); [reflexivity | rewrite app_nil_r; reflexivity].
  - rewrite app_nil_r. reflexivity.
Qed.

Lemma entityParts_spec (fields : list DataModelField) (acc parts : EntityParts) :
  foldM round fields acc = Ok parts ->
  let exposed := filter (isAttribute this_model mode) fields in
  let related := filter (isRelation this_model mode) fields in
  required parts
    = required acc ++ map f_name (filter (requiredIn this_model mode) exposed) /\
  (forall k, In k (obj_keys (attributes parts)) <->
             In k (obj_keys (attributes acc)) \/ In k (map f_name exposed)) /\
  (forall k, In k (obj_keys (relationships parts)) <->
             In k (obj_keys (relationships acc)) \/ In k (map f_name related)) /\
  (forall k v, In (k, v) (attributes parts) ->
               In (k, v) (attributes acc) \/
               exists f, In f exposed /\ f_name f = k /\
                         generateField this_model wrapNullable (f_type f) = Ok v) /\
  (forall k v, In (k, v) (relationships parts) ->
               In (k, v) (relationships acc) \/
               exists f, In f related /\ f_name f = k /\
                         v = wrapNullable
                               (ref (relationshipType mode (t_array (f_type f))))
                               (t_optional (f_type f))).
Proof.
  revert acc.
  induction fields as [|f rest IH]; intros acc H; cbn [foldM] in H.
  - apply Ok_inj in H. subst parts. cbn. rewrite app_nil_r.
    repeat split; try tauto; auto.
  - ok_inv H. specialize (IH a H). cbv zeta in IH.
    destruct IH as (Hreq & Hattr & Hrel & Hattrs & Hrels).
    cbv zeta. cbn [filter].
    destruct (entityPartsOfField_spec acc a f Ha)
      as [(Hkind & schema & Hschema & Ea & Er & Eq)
         |[(Hkind & Ea & Er & Eq)|(Hkind & ->)]].
    + assert (Hother : isRelation this_model mode f = false).
      { unfold isAttribute in Hkind. unfold isRelation.
        apply andb_true_iff in Hkind. destruct Hkind as [-> Hkind].
        apply negb_true_iff in Hkind. rewrite Hkind. reflexivity. }
      rewrite Hkind, Hother. cbn [filter map].
      rewrite Hreq, Eq, <- app_assoc.
      split.
      { f_equal. destruct (requiredIn this_model mode f); reflexivity. }
      split.
      { intros k. rewrite Hattr, Ea, keys_obj_set. cbn [In]. split.
        - intros [[->|Hk]|Hk]; auto.
        - intros [Hk|[<-|Hk]]; auto. }
      split.
      { intros k. rewrite Hrel, Er. reflexivity. }
      split.
      { intros k v Hin. apply Hattrs in Hin. destruct Hin as [Hin|(g & Hg & Hk & Hv)].
        - rewrite Ea in Hin. apply In_obj_set in Hin.
          destruct Hin as [[-> ->]|Hin]; [|left; exact Hin].
          right. exists f. split; [left; reflexivity | split; [reflexivity | exact Hschema]].
        - right. exists g. split; [right; exact Hg | split; assumption]. }
      { intros k v Hin. apply Hrels in Hin. rewrite Er in Hin. exact Hin. }
    + assert (Hother : isAttribute this_model mode f = false).
      { unfold isRelation in Hkind. unfold isAttribute.
        apply andb_true_iff in Hkind. destruct Hkind as [-> Hkind].
        rewrite Hkind. reflexivity. }
      rewrite Hkind, Hother. cbn [filter map].
      rewrite Hreq, Eq.
      split; [reflexivity|].
      split.
      { intros k. rewrite Hattr, Ea. reflexivity. }
      split.
      { intros k. rewrite Hrel, Er, keys_obj_set. cbn [In]. split.
        - intros [[->|Hk]|Hk]; auto.
        - intros [Hk|[<-|Hk]]; auto. }
      split.
      { intros k v Hin. apply Hattrs in Hin. rewrite Ea in Hin. exact Hin. }
      { intros k v Hin. apply Hrels in Hin. destruct Hin as [Hin|(g & Hg & Hk & Hv)].
        - rewrite Er in Hin. apply In_obj_set in Hin.
          destruct Hin as [[-> ->]|Hin]; [|left; exact Hin].
          right. exists f. split; [left; reflexivity | split; reflexivity].
        - right. exists g. split; [right; exact Hg | split; assumption]. }
    + unfold isAttribute, isRelation. rewrite Hkind. cbn [andb].
      exact (conj Hreq (conj Hattr (conj Hrel (conj Hattrs Hrels)))).
Qed.

(** The parts of a generated entity schema. *)
Lemma generateModelEntity_parts (model : DataModel) (schema : JSON) :
  generateModelEntity this_model wrapNullable model mode = Ok schema ->
  exists parts,
    foldM round (entityFields model)
          {| attributes := []; relationships := []; required := [] |} = Ok parts /\
    prop "attributes" (prop "properties" schema)
      = JObj [("type", JStr "object");
              ("required", optional_strings (required parts));
              ("properties", JObj (attributes parts))] /\
    prop "relationships" (prop "properties" schema)
      = (if Nat.ltb 0 (List.length (obj_keys (relationships parts)))
         then JObj [("type", JStr "object");
                    ("properties", JObj (relationships parts))]
         else JUndefined).
Proof.
  unfold generateModelEntity. fold (entityFields model). intros H.
  ok_inv H. cbv zeta in H. ok_inv H.
  exists a. split; [exact Ha|].
  unfold optional_strings.
  destruct (Nat.ltb 0 (List.length (obj_keys (relationships a))));
    destruct (is_create mode);
    try destruct (filter isIdField (m_fields model)) as [|idField [|other rest]];
    try destruct (negb (hasAttribute idField "@default"));
    apply Ok_inj in H; subst schema; split; reflexivity.
Qed.

End EntityParts.

(** Extra X18.  The [attributes] of a generated entity schema: its
    properties are keyed by the names of the fields the mode exposes
    (foreign keys only when reading; for a single or missing identifier
    not the identifier fields) that are no relationship fields, each with
    the schema [generateField] gives; and its [required] lists, in field
    order, every such field when reading, none when updating, and when
    creating those that are not optional, carry no default and are no list
    of models; [required] is absent when that list is empty. *)
Theorem X18_entity_attributes :
  forall (this_model : Model) (wrapNullable : JSON -> bool -> JSON)
         (model : DataModel) (mode : Mode) (schema : JSON),
    generateModelEntity this_model wrapNullable model mode = Ok schema ->
    let attrs := prop "attributes" (prop "properties" schema) in
    let exposed := filter (isAttribute this_model mode) (entityFields model) in
    (forall k, In k (obj_keys (spread_obj (prop "properties" attrs))) <->
               In k (map f_name exposed)) /\
    (forall k v, In (k, v) (spread_obj (prop "properties" attrs)) ->
                 exists f, In f exposed /\ f_name f = k /\
                           generateField this_model wrapNullable (f_type f) = Ok v) /\
    prop "required" attrs
      = optional_strings (map f_name (filter (requiredIn this_model mode) exposed)).
Proof.
  intros this_model wrapNullable model mode schema H attrs exposed.
  destruct (generateModelEntity_parts _ _ _ _ _ H) as (parts & Hparts & Hattrs & _).
  destruct (entityParts_spec _ _ _ _ _ _ Hparts) as (Hreq & Hkeys & _ & Hentries & _).
  subst attrs. rewrite Hattrs.
  change (prop "properties" (JObj [("type", JStr "object");
                                   ("required", optional_strings (required parts));
                                   ("properties", JObj (attributes parts))]))
    with (JObj (attributes parts)).
  change (prop "required" (JObj [("type", JStr "object");
                                 ("required", optional_strings (required parts));
                                 ("properties", JObj (attributes parts))]))
    with (optional_strings (required parts)).
  cbn [spread_obj].
  split; [|split].
  - intros k. rewrite Hkeys. cbn [attributes obj_keys map In]. tauto.
  - intros k v Hin. apply Hentries in Hin. destruct Hin as [[]|Hin]. exact Hin.
  - rewrite Hreq. reflexivity.
Qed.

(** Extra X19.  The [relationships] of a generated entity schema: the
    property is present exactly when the mode exposes a relationship field
    of the entity; its properties are keyed by the names of those fields;
    and each refers, wrapped as nullable for an optional field, to the
    to-many or to-one relationship component, the one with links when
    reading. *)
Theorem X19_entity_relationships :
  forall (this_model : Model) (wrapNullable : JSON -> bool -> JSON)
         (model : DataModel) (mode : Mode) (schema : JSON),
    generateModelEntity this_model wrapNullable model mode = Ok schema ->
    let rels := prop "relationships" (prop "properties" schema) in
    let related := filter (isRelation this_model mode) (entityFields model) in
    (rels = JUndefined <-> related = []) /\
    (forall k, In k (obj_keys (spread_obj (prop "properties" rels))) <->
               In k (map f_name related)) /\
    (forall k v, In (k, v) (spread_obj (prop "properties" rels)) ->
                 exists f, In f related /\ f_name f = k /\
                           v = wrapNullable
                                 (ref (relationshipType mode (t_array (f_type f))))
                                 (t_optional (f_type f))).
Proof.
  intros this_model wrapNullable model mode schema H rels related.
  destruct (generateModelEntity_parts _ _ _ _ _ H) as (parts & Hparts & _ & Hrels).
  destruct (entityParts_spec _ _ _ _ _ _ Hparts) as (_ & _ & Hkeys & _ & Hentries).
  cbv zeta in Hkeys, Hentries. fold related in Hkeys, Hentries.
  cbn [relationships obj_keys map In] in Hkeys, Hentries.
  subst rels. rewrite Hrels.
  destruct (obj_keys (relationships parts)) as [|k0 keys] eqn:E.
  - cbn [List.length Nat.ltb Nat.leb].
    assert (Hnone : related = []).
    { destruct related as [|f rest]; [reflexivity|].
      exfalso. apply (proj2 (Hkeys (f_name f))). right. left. reflexivity. }
    split; [tauto|]. split.
    + intros k. rewrite Hnone. reflexivity.
    + intros k v [].
  - cbn [List.length Nat.ltb Nat.leb].
    change (prop "properties" (JObj [("type", JStr "object");
                                     ("properties", JObj (relationships parts))]))
      with (JObj (relationships parts)).
    cbn [spread_obj]. split; [|split].
    + split; [discriminate|].
      intros Hnone. exfalso. rewrite Hnone in Hkeys.
      destruct (proj1 (Hkeys k0) (or_introl eq_refl)) as [[]|[]].
    + intros k. rewrite E, Hkeys. tauto.
    + intros k v Hin. apply Hentries in Hin. destruct Hin as [[]|Hin]. exact Hin.
Qed.

Lemma X18_entity_attributes_witness :
  exists schema,
    generateModelEntity blog sample_wrapNullable Post ModeCreate = Ok schema /\
    prop "required" (prop "attributes" (prop "properties" schema)) = strings ["title"] /\
    exists read,
      generateModelEntity blog sample_wrapNullable Post ModeRead = Ok read /\
      prop "required" (prop "attributes" (prop "properties" read))
        = strings ["title"; "authorId"].
Proof.
  eexists. split; [vm_compute; reflexivity|]. split.
  - refine (eq_trans
              (proj2 (proj2 (X18_entity_attributes blog sample_wrapNullable Post
                               ModeCreate _ _))) _);
      [vm_compute; reflexivity | reflexivity].
  - eexists. split; [vm_compute; reflexivity|].
    refine (eq_trans
              (proj2 (proj2 (X18_entity_attributes blog sample_wrapNullable Post
                               ModeRead _ _))) _);
      [vm_compute; reflexivity | reflexivity].
Defined.

Lemma X19_entity_relationships_witness :
  exists schema,
    generateModelEntity blog sample_wrapNullable Post ModeRead = Ok schema /\
    forall k, In k (obj_keys (spread_obj (prop "properties"
                                            (prop "relationships"
                                                  (prop "properties" schema))))) <->
              In k ["author"].
Proof.
  eexists. split; [vm_compute; reflexivity|].
  exact (proj1 (proj2 (X19_entity_relationships blog sample_wrapNullable Post ModeRead
                         _ eq_refl))).
Defined.

(* ================================================================= *)
(** ** The names of the component schemas *)

Lemma suffixed_not_plain (n s : string) : s <> EmptyString -> n +++ s <> n.
Proof.
  intros Hs E. apply (f_equal String.length) in E. rewrite length_append in E.
  destruct s; [contradiction | simpl in E; lia].
Qed.

Lemma model_components_distinct (n : string) : NoDup (model_components n).
Proof.
  unfold model_components.
  repeat (apply NoDup_cons; [cbn [In]; intros H|]); [| | | | |apply NoDup_nil].
  all: repeat (destruct H as [H|H];
               [first [ apply suffixed_not_plain in H; [contradiction | discriminate]
                      | apply append_inj_l in H; discriminate H ]|]);
    destruct H.
Qed.

Section ComponentNames.

Variable this_model : Model.
Variable wrapNullable : JSON -> bool -> JSON.

Lemma keys_set_new (k : string) (v : JSON) (o : Obj) :
  ~ In k (obj_keys o) -> obj_keys (obj_set k v o) = obj_keys o ++ [k].
Proof. intros H. apply keys_set_fresh. apply obj_get_keys. exact H. Qed.

(** The response envelope's [data]: the entity with the relationships of
    the response. *)
Local Abbreviation withRelationships model :=
  (allOf [ref (m_name model);
          JObj [("type", JStr "object");
                ("properties",
                  JObj [("relationships",
                         JObj [("type", JStr "object");
                               ("properties",
                                 JObj (responseRelationships this_model model))])])]]).

(** The five components of an entity, one by one. *)
Lemma generateDataModelComponents_entries (model : DataModel) (components : Obj) :
  generateDataModelComponents this_model wrapNullable model = Ok components ->
  let name := m_name model in
  exists read create update,
    generateModelEntity this_model wrapNullable model ModeRead = Ok read /\
    generateModelEntity this_model wrapNullable model ModeCreate = Ok create /\
    generateModelEntity this_model wrapNullable model ModeUpdate = Ok update /\
    obj_keys components = model_components name /\
    prop name (JObj components) = read /\
    prop "properties" (prop (name +++ "CreateRequest") (JObj components))
      = JObj [("data", create); ("meta", ref "_meta")] /\
    prop "properties" (prop (name +++ "UpdateRequest") (JObj components))
      = JObj [("data", update); ("meta", ref "_meta")] /\
    prop "properties" (prop (name +++ "Response") (JObj components))
      = JObj [("jsonapi", ref "_jsonapi");
              ("data", withRelationships model);
              ("meta", ref "_meta");
              ("included", JObj [("type", JStr "array"); ("items", ref "_resource")]);
              ("links", ref "_links")] /\
    prop "properties" (prop (name +++ "ListResponse") (JObj components))
      = JObj [("jsonapi", ref "_jsonapi");
              ("data", array (withRelationships model));
              ("meta", ref "_meta");
              ("included", JObj [("type", JStr "array"); ("items", ref "_resource")]);
              ("links", allOf [ref "_links"; ref "_pagination"])].
Proof.
  intros H name.
  pose proof (model_components_distinct name) as Hdistinct.
  unfold model_components in Hdistinct |- *.
  unfold generateDataModelComponents in H. fold name in H.
  ok_inv H. ok_inv H. ok_inv H. cbv zeta in H. apply Ok_inj in H. subst components.
  exists a, a0, a1.
  split; [exact Ha|]. split; [exact Ha0|]. split; [exact Ha1|].
  inversion Hdistinct as [|k1 l1 N1 D1]; subst.
  inversion D1 as [|k2 l2 N2 D2]; subst.
  inversion D2 as [|k3 l3 N3 D3]; subst.
  inversion D3 as [|k4 l4 N4 D4]; subst.
  cbn [In] in N1, N2, N3, N4.
  match goal with
  | |- obj_keys (obj_set ?k5 ?v5 (obj_set ?k4 ?v4 (obj_set ?k3 ?v3 (obj_set ?k2 ?v2 ?o1))))
       = _ /\ _ =>
      set (o2 := obj_set k2 v2 o1);
      set (o3 := obj_set k3 v3 o2);
      set (o4 := obj_set k4 v4 o3);
      set (o5 := obj_set k5 v5 o4)
  end.
  assert (K2 : obj_keys o2 = [name; name +++ "CreateRequest"]).
  { unfold o2. rewrite keys_set_new; [reflexivity|].
    cbn [obj_set obj_keys map fst In]. intuition congruence. }
  assert (K3 : obj_keys o3 = [name; name +++ "CreateRequest"; name +++ "UpdateRequest"]).
  { unfold o3. rewrite keys_set_new; rewrite K2; [reflexivity|].
    cbn [In]. intuition congruence. }
  assert (K4 : obj_keys o4 = [name; name +++ "CreateRequest"; name +++ "UpdateRequest";
                              name +++ "Response"]).
  { unfold o4. rewrite keys_set_new; rewrite K3; [reflexivity|].
    cbn [In]. intuition congruence. }
  assert (Hprop : forall k o v, obj_get k o = Some v -> prop k (JObj o) = v).
  { intros k o v E. unfold prop. rewrite E. reflexivity. }
  split.
  { unfold o5. rewrite keys_set_new; rewrite K4; [reflexivity|].
    cbn [In]. intuition congruence. }
  split.
  { apply Hprop. unfold o5, o4, o3, o2.
    repeat (rewrite obj_get_set_other by (intuition congruence)).
    apply obj_get_set_same. }
  split.
  { erewrite (Hprop (name +++ "CreateRequest")); cycle 1.
    { unfold o5, o4, o3, o2.
      repeat (rewrite obj_get_set_other by (intuition congruence)).
      apply obj_get_set_same. }
    reflexivity. }
  split.
  { erewrite (Hprop (name +++ "UpdateRequest")); cycle 1.
    { unfold o5, o4, o3.
      repeat (rewrite obj_get_set_other by (intuition congruence)).
      apply obj_get_set_same. }
    reflexivity. }
  split.
  { erewrite (Hprop (name +++ "Response")); cycle 1.
    { unfold o5, o4.
      repeat (rewrite obj_get_set_other by (intuition congruence)).
      apply obj_get_set_same. }
    reflexivity. }
  erewrite (Hprop (name +++ "ListResponse")); cycle 1.
  { unfold o5. apply obj_get_set_same. }
  reflexivity.
Qed.

(** Extra X20.  [generateDataModelComponents] returns exactly five
    components for an entity, in this order: the entity itself, its create
    and update requests, its response and its list response; the entity
    component is the entity schema in read mode, and the [data] of the two
    requests is the entity schema in create and in update mode. *)
Theorem X20_components_of_entity :
  forall (model : DataModel) (components : Obj),
    generateDataModelComponents this_model wrapNullable model = Ok components ->
    let name := m_name model in
    obj_keys components
      = [name; name +++ "CreateRequest"; name +++ "UpdateRequest"; name +++ "Response";
         name +++ "ListResponse"] /\
    generateModelEntity this_model wrapNullable model ModeRead
      = Ok (prop name (JObj components)) /\
    generateModelEntity this_model wrapNullable model ModeCreate
      = Ok (prop "data" (prop "properties"
                              (prop (name +++ "CreateRequest") (JObj components)))) /\
    generateModelEntity this_model wrapNullable model ModeUpdate
      = Ok (prop "data" (prop "properties"
                              (prop (name +++ "UpdateRequest") (JObj components)))).
Proof.
  intros model components H name.
  destruct (generateDataModelComponents_entries model components H)
    as (read & create & update & Hread & Hcreate & Hupdate & Hkeys & Hentity & Hc & Hu & _).
  fold name in Hkeys, Hentity, Hc, Hu.
  rewrite Hentity, Hc, Hu. repeat split; assumption.
Qed.

(** The relationships of the response envelopes. *)
Lemma responseRelationships_spec (model : DataModel) :
  let related := filter (isRelationshipField this_model) (m_fields model) in
  (forall k, In k (obj_keys (responseRelationships this_model model)) <->
             In k (map f_name related)) /\
  (forall k v, In (k, v) (responseRelationships this_model model) ->
               exists f, In f related /\ f_name f = k /\
                         v = ref (if t_array (f_type f)
                                  then "_toManyRelationship" else "_toOneRelationship")).
Proof.
  unfold responseRelationships.
  assert (Hgeneral : forall fields acc,
    let out :=
      fold_left
        (fun relationships field =>
           if isRelationshipField this_model field then
             if t_array (f_type field)
             then obj_set (f_name field) (ref "_toManyRelationship") relationships
             else obj_set (f_name field) (ref "_toOneRelationship") relationships
           else relationships) fields acc in
    let related := filter (isRelationshipField this_model) fields in
    (forall k, In k (obj_keys out) <-> In k (obj_keys acc) \/ In k (map f_name related)) /\
    (forall k v, In (k, v) out ->
                 In (k, v) acc \/
                 exists f, In f related /\ f_name f = k /\
                           v = ref (if t_array (f_type f)
                                    then "_toManyRelationship"
                                    else "_toOneRelationship"))).
  { induction fields as [|f rest IH]; intros acc; cbn [fold_left filter].
    - cbn. split; [tauto | auto].
    - cbv zeta in IH |- *.
      destruct (isRelationshipField this_model f).
      + assert (Hset :
          (if t_array (f_type f)
           then obj_set (f_name f) (ref "_toManyRelationship") acc
           else obj_set (f_name f) (ref "_toOneRelationship") acc)
          = obj_set (f_name f)
              (ref (if t_array (f_type f)
                    then "_toManyRelationship" else "_toOneRelationship")) acc)
          by (destruct (t_array (f_type f)); reflexivity).
        rewrite Hset.
        match goal with
        | |- context [fold_left _ rest ?acc'] => destruct (IH acc') as [Hkeys Hentries]
        end.
        split.
        * intros k. rewrite Hkeys, keys_obj_set. cbn [map In]. split.
          -- intros [[->|Hk]|Hk]; auto.
          -- intros [Hk|[<-|Hk]]; auto.
        * intros k v Hin. apply Hentries in Hin.
          destruct Hin as [Hin|(g & Hg & Hk & Hv)].
          -- apply In_obj_set in Hin. destruct Hin as [[-> ->]|Hin]; [|left; exact Hin].
             right. exists f. split; [left; reflexivity | split; reflexivity].
          -- right. exists g. split; [right; exact Hg | split; assumption].
      + apply IH. }
  cbv zeta. destruct (Hgeneral (m_fields model) []) as [Hkeys Hentries].
  split.
  - intros k. rewrite Hkeys. cbn [obj_keys map In]. tauto.
  - intros k v Hin. apply Hentries in Hin. destruct Hin as [[]|Hin]. exact Hin.
Qed.

(** Extra X21.  The [data] of the response of an entity is the entity
    combined with a [relationships] object, and the [data] of its list
    response is an array of the same; that object is keyed by the names of
    the relationship fields of the entity, each referring to the to-many
    relationship for an array-valued field and to the to-one relationship
    otherwise. *)
Theorem X21_response_envelopes :
  forall (model : DataModel) (components : Obj),
    generateDataModelComponents this_model wrapNullable model = Ok components ->
    let name := m_name model in
    let relationships := responseRelationships this_model model in
    let related := filter (isRelationshipField this_model) (m_fields model) in
    let wrapped :=
      allOf [ref name;
             JObj [("type", JStr "object");
                   ("properties",
                     JObj [("relationships",
                            JObj [("type", JStr "object");
                                  ("properties", JObj relationships)])])]] in
    prop "data" (prop "properties" (prop (name +++ "Response") (JObj components)))
      = wrapped /\
    prop "data" (prop "properties" (prop (name +++ "ListResponse") (JObj components)))
      = array wrapped /\
    (forall k, In k (obj_keys relationships) <-> In k (map f_name related)) /\
    (forall k v, In (k, v) relationships ->
                 exists f, In f related /\ f_name f = k /\
                           v = ref (if t_array (f_type f)
                                    then "_toManyRelationship"
                                    else "_toOneRelationship")).
Proof.
  intros model components H name relationships related wrapped.
  destruct (generateDataModelComponents_entries model components H)
    as (read & create & update & _ & _ & _ & _ & _ & _ & _ & Hresponse & Hlist).
  fold name in Hresponse, Hlist. rewrite Hresponse, Hlist.
  destruct (responseRelationships_spec model) as [Hkeys Hentries].
  split; [reflexivity|]. split; [reflexivity|]. split; assumption.
Qed.

Lemma generateDataModelComponents_keys (model : DataModel) (components : Obj) :
  generateDataModelComponents this_model wrapNullable model = Ok components ->
  forall n, In n (obj_keys components) -> In n (model_components (m_name model)).
Proof.
  intros H n Hn. unfold generateDataModelComponents in H.
  ok_inv H. ok_inv H. ok_inv H. cbv zeta in H. apply Ok_inj in H. subst components.
  unfold model_components.
  repeat (apply In_keys_obj_set in Hn; destruct Hn as [->|Hn]; [cbn [In]; tauto|]).
  destruct Hn.
Qed.

Variable getDataModels : list DataModel.

Lemma generateSchemas_keys (schemas : Obj) (n : string) :
  generateSchemas this_model getDataModels wrapNullable = Ok schemas ->
  In n (obj_keys schemas) -> In n (component_names this_model getDataModels).
Proof.
  unfold generateSchemas, component_names. cbv zeta. intros H Hn. ok_inv H.
  assert (Hshared : forall k,
            In k (obj_keys (spread [] (generateSharedComponents wrapNullable))) ->
            In k shared_names).
  { intros k Hk. apply keys_spread_iff in Hk. destruct Hk as [[]|Hk]. exact Hk. }
  assert (Henums : forall enums acc k,
            In k (obj_keys (fold_left
                              (fun schemas _enum =>
                                 obj_set (e_name _enum) (generateEnumComponent _enum)
                                         schemas) enums acc)) ->
            In k (obj_keys acc) \/ In k (map e_name enums)).
  { induction enums as [|e rest IH]; cbn [fold_left map In]; intros acc k Hk; [auto|].
    apply IH in Hk. destruct Hk as [Hk|Hk]; [|auto].
    apply In_keys_obj_set in Hk. destruct Hk as [->|Hk]; auto. }
  assert (Hmodels : forall models acc out k,
            foldM (fun schemas model =>
                     components <- generateDataModelComponents this_model wrapNullable
                                     model ;;
                     Ok (spread schemas components)) models acc = Ok out ->
            In k (obj_keys out) ->
            In k (obj_keys acc) \/
            In k (flat_map (fun m => model_components (m_name m)) models)).
  { induction models as [|m rest IH]; cbn [foldM flat_map]; intros acc out k Hfold Hk.
    - apply Ok_inj in Hfold. subst out. auto.
    - ok_inv Hfold. ok_inv Ha0. apply Ok_inj in Ha0. subst a0.
      destruct (IH _ _ _ Hfold Hk) as [Hin|Hin].
      + apply keys_spread_iff in Hin. destruct Hin as [Hin|Hin]; [auto|].
        right. apply in_or_app. left.
        eapply generateDataModelComponents_keys; eassumption.
      + right. apply in_or_app. right. exact Hin. }
  assert (HtypeDefs : forall typeDefs acc out k,
            foldM (fun schemas typeDef =>
                     component <- generateTypeDefComponent this_model wrapNullable
                                    typeDef ;;
                     Ok (obj_set (td_name typeDef) component schemas))
                  typeDefs acc = Ok out ->
            In k (obj_keys out) ->
            In k (obj_keys acc) \/ In k (map td_name typeDefs)).
  { induction typeDefs as [|t rest IH]; cbn [foldM map In]; intros acc out k Hfold Hk.
    - apply Ok_inj in Hfold. subst out. auto.
    - ok_inv Hfold. ok_inv Ha0. apply Ok_inj in Ha0. subst a0.
      destruct (IH _ _ _ Hfold Hk) as [Hin|Hin]; [|auto].
      apply In_keys_obj_set in Hin. destruct Hin as [->|Hin]; auto. }
  rewrite !in_app_iff.
  destruct (HtypeDefs _ _ _ _ H Hn) as [Hin|Hin]; [|auto].
  destruct (Hmodels _ _ _ _ Ha Hin) as [Hin'|Hin']; [|auto].
  destruct (Henums _ _ _ Hin') as [Hin''|Hin'']; [|auto].
  left. apply Hshared. exact Hin''.
Qed.

(** Extra X22.  The component schemas [generateComponents] builds are
    named exactly by the eighteen shared components, the declared enums,
    the five components of each data model [getDataModels] returns and the
    declared type definitions; the parameters are [id], [include], [sort],
    [page-offset] and [page-limit]. *)
Theorem X22_component_names :
  forall (schemas parameters : Obj),
    generateComponents this_model getDataModels wrapNullable = Ok (schemas, parameters) ->
    (forall n, In n (obj_keys schemas) <->
               In n (shared_names
                     ++ map e_name (declared_enums this_model)
                     ++ flat_map (fun m => model_components (m_name m)) getDataModels
                     ++ map td_name (declared_typeDefs this_model))) /\
    obj_keys parameters = ["id"; "include"; "sort"; "page-offset"; "page-limit"].
Proof.
  intros schemas parameters H. unfold generateComponents in H. ok_inv H.
  apply Ok_inj in H. injection H as <- <-.
  split; [|reflexivity].
  intros n. split.
  - apply generateSchemas_keys. exact Ha.
  - apply (generateSchemas_names _ _ _ _ _ Ha).
Qed.

End ComponentNames.

Lemma X20_components_of_entity_witness :
  exists components,
    generateDataModelComponents blog sample_wrapNullable User = Ok components /\
    obj_keys components
      = ["User"; "UserCreateRequest"; "UserUpdateRequest"; "UserResponse";
         "UserListResponse"].
Proof.
  eexists. split; [vm_compute; reflexivity|].
  exact (proj1 (X20_components_of_entity blog sample_wrapNullable User _ eq_refl)).
Defined.

Lemma X21_response_envelopes_witness :
  exists components,
    generateDataModelComponents blog sample_wrapNullable User = Ok components /\
    forall k, In k (obj_keys (responseRelationships blog User)) <-> In k ["posts"].
Proof.
  eexists. split; [vm_compute; reflexivity|].
  exact (proj1 (proj2 (proj2 (X21_response_envelopes blog sample_wrapNullable User _
                                eq_refl)))).
Defined.

Lemma X22_component_names_witness :
  exists schemas parameters,
    generateComponents blog [User; Post] sample_wrapNullable = Ok (schemas, parameters) /\
    List.length schemas = 28 /\
    forall n, In n (obj_keys schemas) <->
              In n (shared_names
                    ++ ["User"; "UserCreateRequest"; "UserUpdateRequest"; "UserResponse";
                        "UserListResponse"; "Post"; "PostCreateRequest";
                        "PostUpdateRequest"; "PostResponse"; "PostListResponse"]).
Proof.
  eexists. eexists. split; [vm_compute; reflexivity|]. split; [reflexivity|].
  exact (proj1 (X22_component_names blog sample_wrapNullable [User; Post] _ _ eq_refl)).
Defined.

(** Extra X23.  The component of a type definition is an object schema
    whose properties are keyed by the names of the fields of the type
    definition, each with the schema [generateField] gives for a field of
    that name. *)
Theorem X23_typeDef_component :
  forall (this_model : Model) (wrapNullable : JSON -> bool -> JSON)
         (typeDef : TypeDef) (component : JSON),
    generateTypeDefComponent this_model wrapNullable typeDef = Ok component ->
    let properties := spread_obj (prop "properties" component) in
    prop "type" component = JStr "object" /\
    (forall k, In k (obj_keys properties) <-> In k (map tf_name (td_fields typeDef))) /\
    (forall k v, In (k, v) properties ->
                 exists f, In f (td_fields typeDef) /\ tf_name f = k /\
                           generateField this_model wrapNullable (tf_type f) = Ok v).
Proof.
  intros this_model wrapNullable typeDef component H properties.
  unfold generateTypeDefComponent in H. ok_inv H. apply Ok_inj in H.
  subst component properties.
  change (prop "properties"
            (JObj [("type", JStr "object");
                   ("description", JStr ("The " +++ quoted (td_name typeDef) +++ " TypeDef"));
                   ("properties", JObj a)]))
    with (JObj a).
  cbn [spread_obj]. split; [reflexivity|].
  assert (Hgeneral : forall fields acc out,
    foldM (fun acc field =>
             schema <- generateField this_model wrapNullable (tf_type field) ;;
             Ok (obj_set (tf_name field) schema acc)) fields acc = Ok out ->
    (forall k, In k (obj_keys out) <-> In k (obj_keys acc) \/ In k (map tf_name fields)) /\
    (forall k v, In (k, v) out ->
                 In (k, v) acc \/
                 exists f, In f fields /\ tf_name f = k /\
                           generateField this_model wrapNullable (tf_type f) = Ok v)).
  { induction fields as [|f rest IH]; intros acc out Hfold; cbn [foldM] in Hfold.
    - apply Ok_inj in Hfold. subst out. cbn. split; [tauto | auto].
    - ok_inv Hfold. ok_inv Ha0. apply Ok_inj in Ha0. subst a0.
      destruct (IH _ _ Hfold) as [Hkeys Hentries]. split.
      + intros k. rewrite Hkeys, keys_obj_set. cbn [map In]. split.
        * intros [[->|Hk]|Hk]; auto.
        * intros [Hk|[<-|Hk]]; auto.
      + intros k v Hin. apply Hentries in Hin.
        destruct Hin as [Hin|(g & Hg & Hk & Hv)].
        * apply In_obj_set in Hin. destruct Hin as [[-> ->]|Hin]; [|left; exact Hin].
          right. exists f. split; [left; reflexivity | split; [reflexivity | assumption]].
        * right. exists g. split; [right; exact Hg | split; assumption]. }
  destruct (Hgeneral _ _ _ Ha) as [Hkeys Hentries]. split.
  - intros k. rewrite Hkeys. cbn [obj_keys map In]. tauto.
  - intros k v Hin. apply Hentries in Hin. destruct Hin as [[]|Hin]. exact Hin.
Qed.

Lemma X23_typeDef_component_witness :
  let address :=
    {| td_name := "Address";
       td_fields := [{| tf_name := "city"; tf_type := scalar "String" |};
                     {| tf_name := "zip"; tf_type := scalar "Int" |}] |} in
  exists component,
    generateTypeDefComponent blog sample_wrapNullable address = Ok component /\
    forall k, In k (obj_keys (spread_obj (prop "properties" component))) <->
              In k ["city"; "zip"].
Proof.
  intros address. eexists. split; [vm_compute; reflexivity|].
  exact (proj1 (proj2 (X23_typeDef_component blog sample_wrapNullable address _ eq_refl))).
Defined.
